(** * pmnc3ksvc: the Win32 service wrapper of Pythomnic3k

    A shallow embedding of [tools/pmnc3ksvc/popen_win32.cpp] (the pipe
    and child-process lifecycle) and of the service entry and control
    handler of [tools/pmnc3ksvc/service.cpp], over an explicit model of
    the Win32 calls they make.

    The program state is threaded explicitly.  Every Win32 call appends
    one [Event] to a chronological trace; what the operating system
    answers (does [CreatePipe] succeed, what does [WaitForSingleObject]
    return, ...) is read from an [OS] oracle, an arbitrary function of
    the calls made so far.  Theorems quantify over every oracle, that is
    over every behaviour of the operating system. *)

From Stdlib Require Import ZArith Ascii String.
From Stdlib.Strings Require Import Byte.
From stdpp Require Import gmap strings list.

Local Open Scope Z_scope.

(** ** Win32 data *)

Abbreviation DWORD := Z (only parsing).
Abbreviation HANDLE := Z (only parsing).

Module Win32.

(** Values of the Windows SDK headers. *)
Definition INVALID_HANDLE_VALUE : HANDLE := -1.
Definition STD_INPUT_HANDLE : DWORD := (-10) mod 2 ^ 32.
Definition STD_OUTPUT_HANDLE : DWORD := (-11) mod 2 ^ 32.
Definition STD_ERROR_HANDLE : DWORD := (-12) mod 2 ^ 32.
Definition SECURITY_DESCRIPTOR_REVISION : DWORD := 1.
Definition DUPLICATE_SAME_ACCESS : DWORD := 2.
Definition CREATE_NEW_CONSOLE : DWORD := 16.
Definition SW_HIDE : DWORD := 0.
Definition STARTF_USESHOWWINDOW : DWORD := 1.
Definition STARTF_USESTDHANDLES : DWORD := 256.
Definition WAIT_OBJECT_0 : DWORD := 0.
Definition WAIT_TIMEOUT : DWORD := 258.
Definition WAIT_FAILED : DWORD := 2 ^ 32 - 1.
Definition NO_ERROR : DWORD := 0.
Definition ERROR_BROKEN_PIPE : DWORD := 109.
Definition ERROR_CALL_NOT_IMPLEMENTED : DWORD := 120.
Definition ERROR_NO_DATA : DWORD := 232.
Definition ERROR_MORE_DATA : DWORD := 234.
Definition ERROR_INVALID_HANDLE : DWORD := 6.
Definition SERVICE_WIN32_OWN_PROCESS : DWORD := 16.
Definition SERVICE_STOPPED : DWORD := 1.
Definition SERVICE_START_PENDING : DWORD := 2.
Definition SERVICE_STOP_PENDING : DWORD := 3.
Definition SERVICE_RUNNING : DWORD := 4.
Definition SERVICE_CONTROL_STOP : DWORD := 1.
Definition SERVICE_CONTROL_SHUTDOWN : DWORD := 5.
Definition SERVICE_ACCEPT_STOP : DWORD := 1.
Definition SERVICE_ACCEPT_SHUTDOWN : DWORD := 4.

(** The part of [STARTUPINFO] the constructor fills in; every other
    field is zeroed by [memset]. *)
Record STARTUPINFO := {
  hStdInput : HANDLE;
  hStdOutput : HANDLE;
  hStdError : HANDLE;
  wShowWindow : DWORD;
  dwFlags : DWORD
}.

Record SERVICE_STATUS := {
  dwServiceType : DWORD;
  dwCurrentState : DWORD;
  dwControlsAccepted : DWORD;
  dwWin32ExitCode : DWORD;
  dwServiceSpecificExitCode : DWORD;
  dwCheckPoint : DWORD;
  dwWaitHint : DWORD
}.

(** One entry per Win32 call, with the arguments the program passed. *)
Inductive Event :=
| EvInitializeSecurityDescriptor (dwRevision : DWORD)
| EvSetSecurityDescriptorDacl (bDaclPresent dacl_is_null bDaclDefaulted : bool)
| EvCreatePipe (bInheritHandle : bool) (nSize : DWORD)
| EvGetStdHandle (nStdHandle : DWORD)
| EvSetStdHandle (nStdHandle : DWORD) (h : HANDLE)
| EvDuplicateHandle (hSource : HANDLE) (bInheritHandle : bool) (dwOptions : DWORD)
| EvCloseHandle (h : HANDLE)
| EvWriteFile (h : HANDLE) (buffer : list byte)
| EvFlushFileBuffers (h : HANDLE)
| EvReadFile (h : HANDLE) (nNumberOfBytesToRead : DWORD)
| EvGetLastError
| EvCreateProcess (lpCommandLine : string) (bInheritHandles : bool)
                  (dwCreationFlags : DWORD) (si : STARTUPINFO)
| EvWaitForSingleObject (h : HANDLE) (dwMilliseconds : DWORD)
| EvTerminateProcess (h : HANDLE) (uExitCode : DWORD)
| EvGetExitCodeProcess (h : HANDLE)
| EvSleep (dwMilliseconds : DWORD)
| EvRegisterServiceCtrlHandlerEx (lpServiceName : string)
| EvSetServiceStatus (hServiceStatus : HANDLE) (st : SERVICE_STATUS).

(** What [ReadFile] did: the bytes it had to deliver, and the error
    code when it failed.  A call that fails may have delivered bytes
    all the same (as with [ERROR_MORE_DATA]). *)
Inductive ReadOutcome :=
| ReadDelivered (data : list byte)
| ReadFailed (error_code : DWORD) (data : list byte).

(** The operating system's answers, each a function of the calls made
    so far.  [os_indeterminate] is the content found in a variable that
    the program reads without having initialised it. *)
Class OS := {
  os_CreatePipe : list Event -> bool;
  os_DuplicateHandle : list Event -> bool;
  os_CreateProcess : list Event -> bool;
  os_WaitForSingleObject : list Event -> DWORD;
  os_GetExitCodeProcess : list Event -> option DWORD;
  os_ReadFile : list Event -> ReadOutcome;
  os_RegisterServiceCtrlHandlerEx : list Event -> HANDLE;
  os_SetServiceStatus : list Event -> bool;
  os_new : list Event -> bool;
  os_indeterminate : list Event -> Z
}.

(** The three standard-handle slots of the process parameters. *)
Record StdHandles := {
  StandardInput : HANDLE;
  StandardOutput : HANDLE;
  StandardError : HANDLE
}.

Record World := {
  std : StdHandles;
  open_handles : gset HANDLE;
  last_error : DWORD;
  trace : list Event
}.

Definition get_std (k : DWORD) (s : StdHandles) : HANDLE :=
  if k =? STD_INPUT_HANDLE then StandardInput s
  else if k =? STD_OUTPUT_HANDLE then StandardOutput s
  else if k =? STD_ERROR_HANDLE then StandardError s
  else INVALID_HANDLE_VALUE.

Definition set_std (k : DWORD) (h : HANDLE) (s : StdHandles) : StdHandles :=
  if k =? STD_INPUT_HANDLE then
    {| StandardInput := h; StandardOutput := StandardOutput s;
       StandardError := StandardError s |}
  else if k =? STD_OUTPUT_HANDLE then
    {| StandardInput := StandardInput s; StandardOutput := h;
       StandardError := StandardError s |}
  else if k =? STD_ERROR_HANDLE then
    {| StandardInput := StandardInput s; StandardOutput := StandardOutput s;
       StandardError := h |}
  else s.

(** A handle value the kernel may hand out: not in use, and neither
    the invalid sentinel nor null. *)
Definition fresh_handle (used : gset HANDLE) : HANDLE :=
  fresh (used ∪ {[ INVALID_HANDLE_VALUE; 0 ]}).
Definition handles_add (h : HANDLE) (used : gset HANDLE) : gset HANDLE :=
  {[ h ]} ∪ used.
Definition handles_del (h : HANDLE) (used : gset HANDLE) : gset HANDLE :=
  used ∖ {[ h ]}.
Global Arguments fresh_handle : simpl never.
Global Arguments handles_add : simpl never.
Global Arguments handles_del : simpl never.

(** *** The state monad of Win32 calls *)

Definition OSM (A : Type) : Type := World -> A * World.

Global Instance OSM_ret : MRet OSM := λ A a w, (a, w).
Global Instance OSM_bind : MBind OSM :=
  λ A B f m w, let (a, w') := m w in f a w'.

Definition log (e : Event) : OSM unit := λ w,
  (tt, {| std := std w; open_handles := open_handles w;
          last_error := last_error w; trace := trace w ++ [e] |}).

Definition ask {A} (f : list Event -> A) : OSM A := λ w, (f (trace w), w).

Definition gets {A} (f : World -> A) : OSM A := λ w, (f w, w).

Definition set_std_handles (s : StdHandles) : OSM unit := λ w,
  (tt, {| std := s; open_handles := open_handles w;
          last_error := last_error w; trace := trace w |}).

Definition release_handle (h : HANDLE) : OSM unit := λ w,
  (tt, {| std := std w; open_handles := handles_del h (open_handles w);
          last_error := last_error w; trace := trace w |}).

Definition alloc_handle : OSM HANDLE := λ w,
  let h := fresh_handle (open_handles w) in
  (h, {| std := std w; open_handles := handles_add h (open_handles w);
         last_error := last_error w; trace := trace w |}).

Definition set_last_error (e : DWORD) : OSM unit := λ w,
  (tt, {| std := std w; open_handles := open_handles w;
          last_error := e; trace := trace w |}).

Section Calls.
Context {os : OS}.

Definition InitializeSecurityDescriptor (rev : DWORD) : OSM unit :=
  log (EvInitializeSecurityDescriptor rev).

Definition SetSecurityDescriptorDacl (present dacl_null defaulted : bool)
  : OSM unit :=
  log (EvSetSecurityDescriptorDacl present dacl_null defaulted).

(** [None] when the call fails; the out-parameters are then untouched. *)
Definition CreatePipe (bInheritHandle : bool) (nSize : DWORD)
  : OSM (option (HANDLE * HANDLE)) :=
  log (EvCreatePipe bInheritHandle nSize);;
  ok ← ask os_CreatePipe;
  if ok : bool then
    hRead ← alloc_handle;
    hWrite ← alloc_handle;
    mret (Some (hRead, hWrite))
  else mret None.

Definition GetStdHandle (k : DWORD) : OSM HANDLE :=
  log (EvGetStdHandle k);;
  gets (λ w, get_std k (std w)).

Definition SetStdHandle (k : DWORD) (h : HANDLE) : OSM unit :=
  log (EvSetStdHandle k h);;
  s ← gets std;
  set_std_handles (set_std k h s).

(** [None] when the call fails; the target variable is then untouched. *)
Definition DuplicateHandle (hSource : HANDLE) (bInheritHandle : bool)
    (dwOptions : DWORD) : OSM (option HANDLE) :=
  log (EvDuplicateHandle hSource bInheritHandle dwOptions);;
  ok ← ask os_DuplicateHandle;
  if ok : bool then h ← alloc_handle; mret (Some h) else mret None.

Definition CloseHandle (h : HANDLE) : OSM unit :=
  log (EvCloseHandle h);;
  release_handle h.

(** [WriteFile(h, buf, n, &dwWr, 0)]: the event carries the [n] bytes
    offered; the program never looks at the result or at [dwWr]. *)
Definition WriteFile (h : HANDLE) (lpBuffer : list byte) (n : DWORD)
  : OSM unit :=
  log (EvWriteFile h (take (Z.to_nat n) lpBuffer)).

Definition FlushFileBuffers (h : HANDLE) : OSM unit :=
  log (EvFlushFileBuffers h).

(** [ReadFile(h, buf, n, &dwRd, 0)] returns the [BOOL], the bytes put
    in the buffer and the value left in [dwRd].  As documented for a
    call without [OVERLAPPED], the byte count is set to zero before
    any work or error checking and is then the number of bytes put in
    the buffer, at most [n], whether the call succeeds or fails; a
    failure records its code as the thread's last error. *)
Definition ReadFile (h : HANDLE) (n : DWORD)
  : OSM (bool * list byte * DWORD) :=
  log (EvReadFile h n);;
  r ← ask os_ReadFile;
  match r with
  | ReadDelivered data =>
      let got := take (Z.to_nat n) data in
      mret (true, got, Z.of_nat (length got))
  | ReadFailed e data =>
      let got := take (Z.to_nat n) data in
      set_last_error e;;
      mret (false, got, Z.of_nat (length got))
  end.

Definition GetLastError : OSM DWORD :=
  log EvGetLastError;;
  gets last_error.

(** [Some (hProcess, hThread)] on success. *)
Definition CreateProcess (lpCommandLine : string) (bInheritHandles : bool)
    (dwCreationFlags : DWORD) (si : STARTUPINFO)
  : OSM (option (HANDLE * HANDLE)) :=
  log (EvCreateProcess lpCommandLine bInheritHandles dwCreationFlags si);;
  ok ← ask os_CreateProcess;
  if ok : bool then
    hProcess ← alloc_handle;
    hThread ← alloc_handle;
    mret (Some (hProcess, hThread))
  else mret None.

Definition WaitForSingleObject (h : HANDLE) (ms : DWORD) : OSM DWORD :=
  log (EvWaitForSingleObject h ms);;
  ask os_WaitForSingleObject.

(** [TerminateProcess(h, code)] for a handle of another process: the
    call is made and returns.  Given the pseudo-handle of the calling
    process, whose value is that of [INVALID_HANDLE_VALUE], the call
    ends the caller and does not return: see [ends_caller], and
    [Service.lift] for the service. *)
Definition TerminateProcess (h : HANDLE) (code : DWORD) : OSM unit :=
  log (EvTerminateProcess h code).

(** The calls that end the process that makes them. *)
Definition ends_caller (e : Event) : bool :=
  match e with
  | EvTerminateProcess h _ => h =? INVALID_HANDLE_VALUE
  | _ => false
  end.

(** Of the calls [evs] that a computation on this layer lists, the
    ones that the process makes when one of them ends it: those up to
    and including the first such call.  [None] when none ends it, and
    all are made. *)
Fixpoint until_exit (evs : list Event) : option (list Event) :=
  match evs with
  | [] => None
  | e :: evs' =>
      if ends_caller e then Some [e]
      else match until_exit evs' with
           | Some made => Some (e :: made)
           | None => None
           end
  end.

(** Returns the value of [*lpExitCode] after the call, [initial]
    being its value before: a failed call leaves it alone. *)
Definition GetExitCodeProcess (h : HANDLE) (initial : DWORD) : OSM DWORD :=
  log (EvGetExitCodeProcess h);;
  r ← ask os_GetExitCodeProcess;
  mret (default initial r).

Definition Sleep (ms : DWORD) : OSM unit := log (EvSleep ms).

(** The status handle, [0] on failure. *)
Definition RegisterServiceCtrlHandlerEx (name : string) : OSM HANDLE :=
  log (EvRegisterServiceCtrlHandlerEx name);;
  ask os_RegisterServiceCtrlHandlerEx.

Definition SetServiceStatus (h : HANDLE) (st : SERVICE_STATUS) : OSM bool :=
  log (EvSetServiceStatus h st);;
  ask os_SetServiceStatus.

End Calls.

End Win32.
Import Win32.

(** ** popen_win32.cpp *)

Module Popen.

(** The two buffer sizes are macros of [stdafx.h], which is not part of
    the sources at hand: they are parameters of the development. *)
Class BufferSizes := {
  PIPE_INPUT_BUFFER_SIZE : DWORD;
  PIPE_OUTPUT_BUFFER_SIZE : DWORD
}.

(** [class CIOPipe] *)
Record CIOPipe := {
  m_dwHandleType : DWORD;
  m_hSaved : HANDLE;
  m_hRead : HANDLE;
  m_hWrite : HANDLE;
  m_hClose : HANDLE
}.

(** [class CSatelliteProcess::CSatelliteProcessImpl] *)
Record CSatelliteProcessImpl := {
  m_hStdIn : HANDLE;
  m_hStdOut : HANDLE;
  m_hStdErr : HANDLE;
  m_hProcess : HANDLE
}.

(** [class CSatelliteProcess].  [m_shpoImpl] is a [shared_ptr] whose
    only owner is this object, so the pointee is held by value and is
    destroyed with the object. *)
Record CSatelliteProcess := {
  m_strCommandLine : string;
  m_shpoImpl : CSatelliteProcessImpl;
  m_boolCompleted : bool;
  m_ulRetCode : DWORD;
  m_ulDestructorWaitMs : DWORD
}.

Section Code.
Context {os : OS} {sizes : BufferSizes}.

(** [CIOPipe::CIOPipe(_dwHandleType, _cMode)].  [m_hRead] and
    [m_hWrite] start as [INVALID_HANDLE_VALUE] and stay so when
    [CreatePipe] fails; the local [hRead] / [hWrite] and the member
    [m_hClose] are not initialised, so they hold an indeterminate
    value when nothing is stored in them. *)
Definition CIOPipe_ctor (_dwHandleType : DWORD) (_cMode : ascii)
  : OSM CIOPipe :=
  InitializeSecurityDescriptor SECURITY_DESCRIPTOR_REVISION;;
  SetSecurityDescriptorDacl true true false;;
  created ← CreatePipe true 0;
  let '(hR, hW) :=
    default (INVALID_HANDLE_VALUE, INVALID_HANDLE_VALUE) created in
  hSaved ← GetStdHandle _dwHandleType;
  if Ascii.eqb _cMode "r" then
    dup ← DuplicateHandle hR false DUPLICATE_SAME_ACCESS;
    hRead ← match dup with
            | Some h => mret h
            | None => ask os_indeterminate
            end;
    CloseHandle hR;;
    SetStdHandle _dwHandleType hW;;
    mret {| m_dwHandleType := _dwHandleType; m_hSaved := hSaved;
            m_hRead := hRead; m_hWrite := hW; m_hClose := hW |}
  else if Ascii.eqb _cMode "w" then
    dup ← DuplicateHandle hW false DUPLICATE_SAME_ACCESS;
    hWrite ← match dup with
             | Some h => mret h
             | None => ask os_indeterminate
             end;
    CloseHandle hW;;
    SetStdHandle _dwHandleType hR;;
    mret {| m_dwHandleType := _dwHandleType; m_hSaved := hSaved;
            m_hRead := hR; m_hWrite := hWrite; m_hClose := hR |}
  else
    hClose ← ask os_indeterminate;
    mret {| m_dwHandleType := _dwHandleType; m_hSaved := hSaved;
            m_hRead := hR; m_hWrite := hW; m_hClose := hClose |}.

(** [CIOPipe::~CIOPipe()] *)
Definition CIOPipe_dtor (this : CIOPipe) : OSM unit :=
  SetStdHandle (m_dwHandleType this) (m_hSaved this);;
  CloseHandle (m_hClose this).

(** [~CSatelliteProcessImpl()] *)
Definition CSatelliteProcessImpl_dtor (this : CSatelliteProcessImpl)
  : OSM unit :=
  CloseHandle (m_hStdIn this);;
  CloseHandle (m_hStdOut this);;
  CloseHandle (m_hStdErr this);;
  CloseHandle (m_hProcess this).

(** [CSatelliteProcessImpl::Write(_pcData, _ulDataLength)] *)
Definition Impl_Write (this : CSatelliteProcessImpl)
    (_pcData : list byte) (_ulDataLength : DWORD) : OSM unit :=
  let ulDataLength :=
    if _ulDataLength >? PIPE_OUTPUT_BUFFER_SIZE
    then PIPE_OUTPUT_BUFFER_SIZE else _ulDataLength in
  WriteFile (m_hStdIn this) _pcData ulDataLength;;
  FlushFileBuffers (m_hStdIn this).

(** [CSatelliteProcessImpl::ReadInternal(_hFile, _rulDataLength)]:
    returns the bytes [ReadFile] put at the start of the freshly
    allocated array of [PIPE_INPUT_BUFFER_SIZE] chars, and the value
    stored in [_rulDataLength].  The two calls of [GetLastError] are
    made only as far as [&&] evaluates its operands. *)
Definition ReadInternal (_hFile : HANDLE) : OSM (list byte * DWORD) :=
  '(ok, buffer, dwRd) ← ReadFile _hFile PIPE_INPUT_BUFFER_SIZE;
  failed ←
    (if negb ok then
       e1 ← GetLastError;
       if negb (e1 =? ERROR_BROKEN_PIPE) then
         e2 ← GetLastError;
         mret (negb (e2 =? ERROR_NO_DATA))
       else mret false
     else mret false);
  let dwRd := if failed : bool then 0 else dwRd in
  mret (buffer, dwRd).

(** [CSatelliteProcessImpl::Read] and [::ReadErr] *)
Definition Impl_Read (this : CSatelliteProcessImpl)
  : OSM (list byte * DWORD) := ReadInternal (m_hStdOut this).
Definition Impl_ReadErr (this : CSatelliteProcessImpl)
  : OSM (list byte * DWORD) := ReadInternal (m_hStdErr this).

(** The three local [CIOPipe] objects of the constructor, in the
    order of their declarations. *)
Definition make_pipes : OSM (CIOPipe * CIOPipe * CIOPipe) :=
  oStdIn ← CIOPipe_ctor STD_INPUT_HANDLE "w";
  oStdOut ← CIOPipe_ctor STD_OUTPUT_HANDLE "r";
  oStdErr ← CIOPipe_ctor STD_ERROR_HANDLE "r";
  mret (oStdIn, oStdOut, oStdErr).

Definition startup_info (oStdIn oStdOut oStdErr : CIOPipe) : STARTUPINFO :=
  {| hStdInput := m_hRead oStdIn;
     hStdOutput := m_hWrite oStdOut;
     hStdError := m_hWrite oStdErr;
     wShowWindow := SW_HIDE;
     dwFlags := Z.lor 0 (Z.lor STARTF_USESTDHANDLES STARTF_USESHOWWINDOW) |}.

(** [CSatelliteProcess::CSatelliteProcess(_rstrCommandLine,
    _ulDestructorWaitMs)].  [m_ulRetCode] has no initialiser; the
    three pipes are destroyed in reverse order when the body ends. *)
Definition CSatelliteProcess_ctor (_rstrCommandLine : string)
    (_ulDestructorWaitMs : DWORD) : OSM CSatelliteProcess :=
  ulRetCode ← ask os_indeterminate;
  '(oStdIn, oStdOut, oStdErr) ← make_pipes;
  created ← CreateProcess _rstrCommandLine true CREATE_NEW_CONSOLE
              (startup_info oStdIn oStdOut oStdErr);
  hProcessHandle ←
    match created with
    | Some (hProcess, hThread) => CloseHandle hThread;; mret hProcess
    | None => mret INVALID_HANDLE_VALUE
    end;
  let impl := {| m_hStdIn := m_hWrite oStdIn; m_hStdOut := m_hRead oStdOut;
                 m_hStdErr := m_hRead oStdErr;
                 m_hProcess := hProcessHandle |} in
  CIOPipe_dtor oStdErr;;
  CIOPipe_dtor oStdOut;;
  CIOPipe_dtor oStdIn;;
  mret {| m_strCommandLine := _rstrCommandLine; m_shpoImpl := impl;
          m_boolCompleted := false; m_ulRetCode := ulRetCode;
          m_ulDestructorWaitMs := _ulDestructorWaitMs |}.

(** [CSatelliteProcess::WaitForCompletion(_ulWaitMs)]: the value
    returned and the object after the call. *)
Definition WaitForCompletion (this : CSatelliteProcess) (_ulWaitMs : DWORD)
  : OSM (DWORD * CSatelliteProcess) :=
  if m_boolCompleted this then mret (m_ulRetCode this, this)
  else
    let hProcess := m_hProcess (m_shpoImpl this) in
    waited ← WaitForSingleObject hProcess _ulWaitMs;
    (if negb (waited =? WAIT_OBJECT_0)
     then TerminateProcess hProcess 0 else mret tt);;
    dwExitCode ← GetExitCodeProcess hProcess 0;
    let this' :=
      {| m_strCommandLine := m_strCommandLine this;
         m_shpoImpl := m_shpoImpl this;
         m_boolCompleted := true;
         m_ulRetCode := dwExitCode;
         m_ulDestructorWaitMs := m_ulDestructorWaitMs this |} in
    mret (m_ulRetCode this', this').

(** The default argument of the declaration in [popen.h]. *)
Definition WaitForCompletion_default_ms : DWORD := 60000.

(** The body of [CSatelliteProcess::~CSatelliteProcess()]: the object
    as the body leaves it. *)
Definition CSatelliteProcess_dtor_body (this : CSatelliteProcess)
  : OSM CSatelliteProcess :=
  if negb (m_boolCompleted this) then
    '(_, this') ← WaitForCompletion this (m_ulDestructorWaitMs this);
    mret this'
  else mret this.

(** The whole destructor: the body, then the members; the last owner
    of [m_shpoImpl] goes, which runs [~CSatelliteProcessImpl]. *)
Definition CSatelliteProcess_dtor (this : CSatelliteProcess) : OSM unit :=
  this' ← CSatelliteProcess_dtor_body this;
  CSatelliteProcessImpl_dtor (m_shpoImpl this').

(** [CSatelliteProcess::Read], [::ReadErr] and [::Write] *)
Definition Read (this : CSatelliteProcess) : OSM (list byte * DWORD) :=
  Impl_Read (m_shpoImpl this).
Definition ReadErr (this : CSatelliteProcess) : OSM (list byte * DWORD) :=
  Impl_ReadErr (m_shpoImpl this).
Definition Write (this : CSatelliteProcess) (_pcData : list byte)
    (_ulDataLength : DWORD) : OSM unit :=
  Impl_Write (m_shpoImpl this) _pcData _ulDataLength.

End Code.

End Popen.
Import Popen.

(** ** service.cpp *)

Module Service.

Definition SERVICE_SHORT_NAME_PREFIX : string := "pmnc3k_".

(** A [CSatelliteProcess*]: null, or the address of an object that was
    allocated with [new]. *)
Inductive Ptr :=
| NULL
| Addr (a : positive).

Definition is_null (p : Ptr) : bool :=
  match p with NULL => true | Addr _ => false end.

(** The process: the operating system's side, the objects allocated
    with [new] and still alive, and the globals of [service.cpp]. *)
Record Process := {
  world : World;
  heap : gmap positive CSatelliteProcess;
  hServiceStatus : HANDLE;
  poApp : Ptr;
  strCage : string;
  strCommandLine : string
}.

Definition with_world (w : World) (s : Process) : Process :=
  {| world := w; heap := heap s; hServiceStatus := hServiceStatus s;
     poApp := poApp s; strCage := strCage s;
     strCommandLine := strCommandLine s |}.
Definition with_heap (h : gmap positive CSatelliteProcess) (s : Process)
  : Process :=
  {| world := world s; heap := h; hServiceStatus := hServiceStatus s;
     poApp := poApp s; strCage := strCage s;
     strCommandLine := strCommandLine s |}.
Definition with_hServiceStatus (h : HANDLE) (s : Process) : Process :=
  {| world := world s; heap := heap s; hServiceStatus := h;
     poApp := poApp s; strCage := strCage s;
     strCommandLine := strCommandLine s |}.
Definition with_poApp (p : Ptr) (s : Process) : Process :=
  {| world := world s; heap := heap s; hServiceStatus := hServiceStatus s;
     poApp := p; strCage := strCage s;
     strCommandLine := strCommandLine s |}.

(** A computation of the service returns, or reaches undefined
    behaviour (it deletes an object that is no longer alive), or is
    left by a C++ exception, which nothing in [service.cpp] catches,
    or ends the process ([TerminateProcess] on its own pseudo-handle).
    The state is the one in which that happened; after any of the
    last three nothing more is done. *)
Inductive Outcome (A : Type) :=
| Done (a : A) (s : Process)
| Undefined (s : Process)
| Thrown (s : Process)
| Exited (s : Process).
Global Arguments Done {A} a s.
Global Arguments Undefined {A} s.
Global Arguments Thrown {A} s.
Global Arguments Exited {A} s.

Definition final {A} (o : Outcome A) : Process :=
  match o with
  | Done _ s => s
  | Undefined s => s
  | Thrown s => s
  | Exited s => s
  end.

Definition SvcM (A : Type) : Type := Process -> Outcome A.

Global Instance SvcM_ret : MRet SvcM := λ A a s, Done a s.
Global Instance SvcM_bind : MBind SvcM :=
  λ A B f m s,
    match m s with
    | Done a s' => f a s'
    | Undefined s' => Undefined s'
    | Thrown s' => Thrown s'
    | Exited s' => Exited s'
    end.

(** The Win32 calls of [m], made by the service.  When one of them
    ends the service the later ones are not made and nothing is
    returned: the process is left as it was before [m], with the calls
    up to that one. *)
Definition lift {A} (m : OSM A) : SvcM A := λ s,
  let (a, w) := m (world s) in
  match until_exit (drop (length (trace (world s))) (trace w)) with
  | None => Done a (with_world w s)
  | Some made =>
      Exited (with_world {| std := std (world s);
                            open_handles := open_handles (world s);
                            last_error := last_error (world s);
                            trace := trace (world s) ++ made |} s)
  end.
Definition get {A} (f : Process -> A) : SvcM A := λ s, Done (f s) s.
Definition update (f : Process -> Process) : SvcM unit := λ s, Done tt (f s).
Definition undefined_behaviour {A} : SvcM A := λ s, Undefined s.
(** [throw std::bad_alloc()] *)
Definition throw {A} : SvcM A := λ s, Thrown s.

Section Code.
Context {os : OS}.

(** [new CSatelliteProcess(cmd, ms)], the plain new-expression: when
    the allocation yields no storage it throws [std::bad_alloc] and no
    constructor runs; its result is never null. *)
Definition new_CSatelliteProcess (cmd : string) (ms : DWORD) : SvcM Ptr :=
  ok ← lift (ask os_new);
  if ok : bool then
    a ← get (λ s, fresh (dom (heap s)));
    obj ← lift (CSatelliteProcess_ctor cmd ms);
    update (λ s, with_heap (<[a := obj]> (heap s)) s);;
    mret (Addr a)
  else throw.

(** [delete p]: nothing for a null pointer; the destructor and the
    release of the storage for a live object; undefined for an
    address that holds no live object. *)
Definition delete_CSatelliteProcess (p : Ptr) : SvcM unit :=
  match p with
  | NULL => mret tt
  | Addr a =>
      o ← get (λ s, heap s !! a);
      match o with
      | Some obj =>
          lift (CSatelliteProcess_dtor obj);;
          update (λ s, with_heap (delete a (heap s)) s)
      | None => undefined_behaviour
      end
  end.

(** [ServiceSignalStatus] *)
Definition ServiceSignalStatus
    (_dwServiceStatus _dwControlsAccepted _dwWin32ExitCode : DWORD)
  : SvcM bool :=
  let strucServiceStatus :=
    {| dwServiceType := SERVICE_WIN32_OWN_PROCESS;
       dwCurrentState := _dwServiceStatus;
       dwControlsAccepted := _dwControlsAccepted;
       dwWin32ExitCode := _dwWin32ExitCode;
       dwServiceSpecificExitCode := 0;
       dwCheckPoint := 0;
       dwWaitHint := 0 |} in
  h ← get hServiceStatus;
  lift (SetServiceStatus h strucServiceStatus).

(** [ServiceStart] *)
Definition ServiceStart : SvcM bool :=
  lift (Sleep 7000);;
  cmd ← get strCommandLine;
  p ← new_CSatelliteProcess cmd 0;
  update (with_poApp p);;
  mret (negb (is_null p)).

(** [ServiceRun] *)
Definition ServiceRun : SvcM unit := mret tt.

(** [ServiceStop] *)
Definition ServiceStop : SvcM unit :=
  p ← get poApp;
  delete_CSatelliteProcess p;;
  lift (Sleep 7000).

(** [ServiceHandlerEx]; the last three arguments are not used. *)
Definition ServiceHandlerEx (dwControl dwEventType : DWORD)
    (lpEventData lpContext : Z) : SvcM DWORD :=
  if (dwControl =? SERVICE_CONTROL_SHUTDOWN)
     || (dwControl =? SERVICE_CONTROL_STOP)
  then
    ServiceStop;;
    ServiceSignalStatus SERVICE_STOPPED 0 NO_ERROR;;
    mret NO_ERROR
  else mret ERROR_CALL_NOT_IMPLEMENTED.

(** [ServiceEntry]; its two arguments are not used. *)
Definition ServiceEntry : SvcM unit :=
  cage ← get strCage;
  let strServiceName := (SERVICE_SHORT_NAME_PREFIX ++ cage)%string in
  h ← lift (RegisterServiceCtrlHandlerEx strServiceName);
  update (with_hServiceStatus h);;
  if negb (h =? 0) then
    started ← ServiceStart;
    if started : bool then
      ServiceSignalStatus SERVICE_RUNNING
        (Z.lor SERVICE_ACCEPT_SHUTDOWN SERVICE_ACCEPT_STOP) NO_ERROR;;
      ServiceRun
    else
      ServiceSignalStatus SERVICE_STOPPED 0 NO_ERROR;;
      mret tt
  else mret tt.

(** The control signals [cs] delivered one after the other, each a
    call of the registered handler. *)
Fixpoint deliver (cs : list DWORD) : SvcM unit :=
  match cs with
  | [] => mret tt
  | c :: cs' => ServiceHandlerEx c 0 0 0;; deliver cs'
  end.

(** The service thread's entry, then the control signals. *)
Definition service_run (cs : list DWORD) : SvcM unit :=
  ServiceEntry;; deliver cs.

End Code.

(** The globals as their definitions initialise them, [strCage] and
    [strCommandLine] as [WinMain] parsed them. *)
Definition startup (w : World) (cage cmd : string) : Process :=
  {| world := w; heap := ∅; hServiceStatus := 0; poApp := NULL;
     strCage := cage; strCommandLine := cmd |}.

End Service.
Import Service.


(** ** Observations on traces, and clients of the code *)

Module Observe.

(** The events appended between an earlier and a later trace. *)
Definition since (before after : list Event) : list Event :=
  drop (length before) after.

(** The [SetStdHandle] calls of a trace: which slot, which handle. *)
Definition std_writes (t : list Event) : list (DWORD * HANDLE) :=
  omap (λ e, match e with EvSetStdHandle k h => Some (k, h) | _ => None end) t.

(** The [WaitForSingleObject] calls of a trace: which handle, how long. *)
Definition waits (t : list Event) : list (HANDLE * DWORD) :=
  omap (λ e, match e with
             | EvWaitForSingleObject h ms => Some (h, ms)
             | _ => None
             end) t.

(** The states reported to the service manager, oldest first. *)
Definition reported (t : list Event) : list DWORD :=
  omap (λ e, match e with
             | EvSetServiceStatus _ st => Some (dwCurrentState st)
             | _ => None
             end) t.

(** A call after which the process that made it goes on. *)
Definition alive_call (e : Event) : bool := negb (ends_caller e).

Definition is_status_report (e : Event) : bool :=
  match e with EvSetServiceStatus _ _ => true | _ => false end.

Definition not_a_report (e : Event) : bool := negb (is_status_report e).

(** Whether [CIOPipe::CIOPipe] takes one of its two branches for this
    mode character, and so installs an end as the standard handle. *)
Definition installs (_cMode : ascii) : bool :=
  orb (Ascii.eqb _cMode "r") (Ascii.eqb _cMode "w").

(** The controls on which [ServiceHandlerEx] stops the service. *)
Definition is_stop_control (c : DWORD) : bool :=
  (c =? SERVICE_CONTROL_SHUTDOWN) || (c =? SERVICE_CONTROL_STOP).

(** What [ServiceHandlerEx] passes to [SetServiceStatus] on a stop. *)
Definition stopped_status : SERVICE_STATUS :=
  {| dwServiceType := SERVICE_WIN32_OWN_PROCESS;
     dwCurrentState := SERVICE_STOPPED;
     dwControlsAccepted := 0;
     dwWin32ExitCode := NO_ERROR;
     dwServiceSpecificExitCode := 0;
     dwCheckPoint := 0;
     dwWaitHint := 0 |}.

(** A client that calls [WaitForCompletion] once per timeout of the
    list, in order, and collects the values returned. *)
Fixpoint WaitForCompletion_each {os : OS} (this : CSatelliteProcess)
    (timeouts : list DWORD) : OSM (list DWORD * CSatelliteProcess) :=
  match timeouts with
  | [] => mret ([], this)
  | ms :: rest =>
      '(rc, this1) ← WaitForCompletion this ms;
      '(rcs, this2) ← WaitForCompletion_each this1 rest;
      mret (rc :: rcs, this2)
  end.

(** The later trace is the earlier one followed by events that all
    satisfy [p]. *)
Definition extends (p : Event -> bool) (before after : list Event) : Prop :=
  ∃ evs, after = before ++ evs ∧ forallb p evs = true.

(** Whatever the state, the computation only appends events that
    satisfy [p]. *)
Definition emits {A} (p : Event -> bool) (m : OSM A) : Prop :=
  ∀ w, extends p (trace w) (trace (m w).2).

Definition svc_emits {A} (p : Event -> bool) (m : SvcM A) : Prop :=
  ∀ s, extends p (trace (world s)) (trace (world (final (m s)))).

(** An event that is not a status report, or reports Running or
    Stopped. *)
Definition running_or_stopped (e : Event) : bool :=
  match e with
  | EvSetServiceStatus _ st =>
      (dwCurrentState st =? SERVICE_RUNNING)
      || (dwCurrentState st =? SERVICE_STOPPED)
  | _ => true
  end.

(** The calls [ServiceHandlerEx] makes itself for one control. *)
Definition stop_events (hStatus : HANDLE) (c : DWORD) : list Event :=
  if is_stop_control c
  then [EvSleep 7000; EvSetServiceStatus hStatus stopped_status]
  else [].

(** The process after Win32 calls that leave everything but the trace
    as it was. *)
Definition after_calls (evs : list Event) (s : Process) : Process :=
  with_world {| std := std (world s);
                open_handles := open_handles (world s);
                last_error := last_error (world s);
                trace := trace (world s) ++ evs |} s.

End Observe.
Import Observe.

(** ** Concrete operating systems and inputs *)

Module Scenario.

(** A process whose standard handles are three open console handles. *)
Definition console : World :=
  {| std := {| StandardInput := 3; StandardOutput := 7; StandardError := 11 |};
     open_handles := {[ 3; 7; 11 ]};
     last_error := 0;
     trace := [] |}.

Definition hello : list byte := [x68; x65; x6c; x6c; x6f; x0a].

(** Every call succeeds and the child exits in time with code 0. *)
Definition cooperative : OS :=
  {| os_CreatePipe := λ _, true;
     os_DuplicateHandle := λ _, true;
     os_CreateProcess := λ _, true;
     os_WaitForSingleObject := λ _, WAIT_OBJECT_0;
     os_GetExitCodeProcess := λ _, Some 0;
     os_ReadFile := λ _, ReadDelivered hello;
     os_RegisterServiceCtrlHandlerEx := λ _, 1000;
     os_SetServiceStatus := λ _, true;
     os_new := λ _, true;
     os_indeterminate := λ _, 3435973836 |}.

(** The child never exits: every wait times out. *)
Definition hung_child : OS :=
  {| os_CreatePipe := λ _, true;
     os_DuplicateHandle := λ _, true;
     os_CreateProcess := λ _, true;
     os_WaitForSingleObject := λ _, WAIT_TIMEOUT;
     os_GetExitCodeProcess := λ _, Some 0;
     os_ReadFile := λ _, ReadFailed ERROR_NO_DATA [];
     os_RegisterServiceCtrlHandlerEx := λ _, 1000;
     os_SetServiceStatus := λ _, true;
     os_new := λ _, true;
     os_indeterminate := λ _, 3435973836 |}.

(** The child cannot be created; reads find the pipe broken. *)
Definition no_spawn : OS :=
  {| os_CreatePipe := λ _, true;
     os_DuplicateHandle := λ _, true;
     os_CreateProcess := λ _, false;
     os_WaitForSingleObject := λ _, WAIT_FAILED;
     os_GetExitCodeProcess := λ _, None;
     os_ReadFile := λ _, ReadFailed ERROR_BROKEN_PIPE [];
     os_RegisterServiceCtrlHandlerEx := λ _, 1000;
     os_SetServiceStatus := λ _, true;
     os_new := λ _, true;
     os_indeterminate := λ _, 3435973836 |}.

(** A read finds a message longer than the buffer: [ReadFile] fails
    with [ERROR_MORE_DATA], having delivered the bytes that fit. *)
Definition long_message : OS :=
  {| os_CreatePipe := λ _, true;
     os_DuplicateHandle := λ _, true;
     os_CreateProcess := λ _, true;
     os_WaitForSingleObject := λ _, WAIT_TIMEOUT;
     os_GetExitCodeProcess := λ _, Some 0;
     os_ReadFile := λ _, ReadFailed ERROR_MORE_DATA hello;
     os_RegisterServiceCtrlHandlerEx := λ _, 1000;
     os_SetServiceStatus := λ _, true;
     os_new := λ _, true;
     os_indeterminate := λ _, 3435973836 |}.

Definition sizes_4096 : BufferSizes :=
  {| PIPE_INPUT_BUFFER_SIZE := 4096; PIPE_OUTPUT_BUFFER_SIZE := 4096 |}.

(** The object that the constructor builds on [console] when every
    call succeeds. *)
Definition fresh_child : CSatelliteProcess :=
  {| m_strCommandLine := "python.exe startup.py cage";
     m_shpoImpl := {| m_hStdIn := 14; m_hStdOut := 17; m_hStdErr := 20;
                      m_hProcess := 21 |};
     m_boolCompleted := false;
     m_ulRetCode := 3435973836;
     m_ulDestructorWaitMs := 0 |}.

Definition payload_10000 : list byte := replicate (Z.to_nat 10000) x41.

(** The allocation of [new] yields no storage. *)
Definition no_memory : OS :=
  {| os_CreatePipe := λ _, true;
     os_DuplicateHandle := λ _, true;
     os_CreateProcess := λ _, true;
     os_WaitForSingleObject := λ _, WAIT_OBJECT_0;
     os_GetExitCodeProcess := λ _, Some 0;
     os_ReadFile := λ _, ReadDelivered hello;
     os_RegisterServiceCtrlHandlerEx := λ _, 1000;
     os_SetServiceStatus := λ _, true;
     os_new := λ _, false;
     os_indeterminate := λ _, 3435973836 |}.

(** The service process as [WinMain] hands it to the dispatcher. *)
Definition launched : Process :=
  startup console "cage" "python.exe startup.py cage".

(** The service process once [ServiceEntry] has registered the handler
    and before [ServiceStart] has created the child: nothing is owned. *)
Definition registered : Process :=
  with_hServiceStatus 1000
    (after_calls [EvRegisterServiceCtrlHandlerEx "pmnc3k_cage"] launched).

End Scenario.


(** ** Further observations on traces *)

Module Observe2.

(** The [CreateProcess] calls of a trace, with their arguments. *)
Definition spawns (t : list Event)
  : list (string * bool * DWORD * STARTUPINFO) :=
  omap (λ e, match e with
             | EvCreateProcess cmd inherit flags si =>
                 Some (cmd, inherit, flags, si)
             | _ => None
             end) t.

Definition not_a_spawn (e : Event) : bool :=
  match e with EvCreateProcess _ _ _ _ => false | _ => true end.

(** The handles passed to [CloseHandle] in a trace, in order. *)
Definition closes (t : list Event) : list HANDLE :=
  omap (λ e, match e with EvCloseHandle h => Some h | _ => None end) t.

(** The Win32 calls of [WaitForCompletion] on an object whose flag is
    not set, given what the wait returned. *)
Definition wait_events (h : HANDLE) (ms waited : DWORD) : list Event :=
  [EvWaitForSingleObject h ms]
  ++ (if waited =? WAIT_OBJECT_0 then [] else [EvTerminateProcess h 0])
  ++ [EvGetExitCodeProcess h].

(** The four [CloseHandle] calls of [~CSatelliteProcessImpl]. *)
Definition impl_close_events (impl : CSatelliteProcessImpl) : list Event :=
  [EvCloseHandle (m_hStdIn impl); EvCloseHandle (m_hStdOut impl);
   EvCloseHandle (m_hStdErr impl); EvCloseHandle (m_hProcess impl)].

(** What [ServiceEntry] passes to [SetServiceStatus] after a start that
    returned true. *)
Definition running_status : SERVICE_STATUS :=
  {| dwServiceType := SERVICE_WIN32_OWN_PROCESS;
     dwCurrentState := SERVICE_RUNNING;
     dwControlsAccepted := Z.lor SERVICE_ACCEPT_SHUTDOWN SERVICE_ACCEPT_STOP;
     dwWin32ExitCode := NO_ERROR;
     dwServiceSpecificExitCode := 0;
     dwCheckPoint := 0;
     dwWaitHint := 0 |}.

(** The Win32 calls of [~CSatelliteProcess] on an object, given what
    the wait returns when there is one. *)
Definition dtor_events (this : CSatelliteProcess) (waited : DWORD)
  : list Event :=
  (if m_boolCompleted this then []
   else wait_events (m_hProcess (m_shpoImpl this))
          (m_ulDestructorWaitMs this) waited)
  ++ impl_close_events (m_shpoImpl this).

(** Whether [~CSatelliteProcess] ends the process that runs it: the
    flag of the object is not set, the wait did not return
    [WAIT_OBJECT_0], and the process handle is the pseudo-handle of
    the caller, the value that the constructor stores when
    [CreateProcess] fails. *)
Definition ends_itself (this : CSatelliteProcess) (waited : DWORD) : bool :=
  negb (m_boolCompleted this)
  && negb (waited =? WAIT_OBJECT_0)
  && (m_hProcess (m_shpoImpl this) =? INVALID_HANDLE_VALUE).

End Observe2.
Import Observe2.

(** ** service.cpp: [split] *)

Module Strings.

(** [s.find(sep)]: the position of the first occurrence of [sep] in
    [s], [None] for [string::npos]. *)
Definition find (s sep : string) : option nat := String.index 0 sep s.

(** [s.substr(pos, n)], for [pos] not beyond the end of [s]. *)
Definition substr (s : string) (pos n : nat) : string :=
  String.substring pos n s.

Definition empty (s : string) : bool :=
  match s with EmptyString => true | String _ _ => false end.

Section References.
Context {V : Type} `{EqDecision V}.

(** The [std::string] variables that the references of a call may
    denote, and their contents. *)
Definition Store : Type := V -> string.

Definition assign (v : V) (x : string) (st : Store) : Store :=
  λ u, if decide (u = v) then x else st u.

(** A [const string&] argument: a variable, or a temporary made from a
    literal. *)
Inductive Arg :=
| ByRef (v : V)
| Temporary (s : string).

Definition value (a : Arg) (st : Store) : string :=
  match a with ByRef v => st v | Temporary s => s end.

(** [split(_rstrSrc, _rstrSep, _rstrL, _rstrR)]: the result and the
    variables after the call.  The source and the separator are copied
    into the locals [strSrc] and [strSep] before [_rstrL] or [_rstrR]
    is written; the lengths are [size_t], and the subtraction is
    written on naturals (it does not go below zero: see
    [find_Some]). *)
Definition split (_rstrSrc _rstrSep : Arg) (_rstrL _rstrR : V) (st : Store)
  : bool * Store :=
  if empty (value _rstrSrc st) then
    (false, assign _rstrR EmptyString (assign _rstrL EmptyString st))
  else
    let strSrc := value _rstrSrc st in
    let strSep := value _rstrSep st in
    match find strSrc strSep with
    | None => (false, assign _rstrR EmptyString (assign _rstrL strSrc st))
    | Some iSepPos =>
        (true,
         assign _rstrR
           (substr strSrc (iSepPos + String.length strSep)
              (String.length strSrc - iSepPos - String.length strSep))
           (assign _rstrL (substr strSrc 0 iSepPos) st))
    end.

End References.

(** [split] on two values, with two distinct result variables: the
    result and the contents of [_rstrL] and [_rstrR]. *)
Definition split_values (src sep : string) : bool * string * string :=
  let '(found, st) :=
    split (V := bool) (Temporary src) (Temporary sep) false true
      (λ _, EmptyString) in
  (found, st false, st true).

End Strings.

(** ** service.cpp: installing, removing and launching the service *)

Module Admin.

Definition SERVICE_FULL_NAME_PREFIX : string := "Pythomnic3k cage ".
Definition SERVICE_DESCRIPTION_PREFIX : string :=
  "Pythomnic3k-based service running cage ".

(** Values of the Windows SDK headers. *)
Definition SC_MANAGER_ALL_ACCESS : DWORD := 983103.
Definition SERVICE_QUERY_STATUS : DWORD := 4.
Definition SERVICE_STOP : DWORD := 32.
Definition DELETE : DWORD := 65536.
Definition SERVICE_ALL_ACCESS : DWORD := 983551.
Definition SERVICE_AUTO_START : DWORD := 2.
Definition SERVICE_ERROR_IGNORE : DWORD := 0.
Definition SERVICE_CONFIG_DESCRIPTION : DWORD := 1.
Definition MB_OK : DWORD := 0.
Definition MAX_PATH : DWORD := 260.

(** The double quote and the line feed, as one-character strings. *)
Definition quote : string := String (Ascii.ascii_of_nat 34) EmptyString.
Definition nl : string := String (Ascii.ascii_of_nat 10) EmptyString.

(** One entry per call to the service control manager or to the user
    interface, with the arguments the program passed; an argument that
    is the constant 0 in every call of the program, and the pointer to
    a result that the program does not read, are left out. *)
Inductive AdminEvent :=
| EvGetModuleFileName (hModule : Z) (nSize : DWORD)
| EvOpenSCManager (dwDesiredAccess : DWORD)
| EvOpenService (hSCManager : Z) (lpServiceName : string)
                (dwDesiredAccess : DWORD)
| EvCreateService (hSCManager : Z) (lpServiceName lpDisplayName : string)
                  (dwDesiredAccess dwServiceType dwStartType
                   dwErrorControl : DWORD)
                  (lpBinaryPathName : string)
| EvChangeServiceConfig2 (hService : Z) (dwInfoLevel : DWORD)
                         (lpDescription : string)
| EvControlService (hService : Z) (dwControl : DWORD)
| EvDeleteService (hService : Z)
| EvCloseServiceHandle (hSCObject : Z)
| EvStartServiceCtrlDispatcher (lpServiceName : string)
| EvMessageBox (lpText lpCaption : string) (uType : DWORD).

(** The answers of the service control manager, each a function of the
    calls made so far; a handle of [0] is a failure. *)
Class SCM := {
  scm_GetModuleFileName : list AdminEvent -> string;
  scm_OpenSCManager : list AdminEvent -> Z;
  scm_OpenService : list AdminEvent -> Z;
  scm_CreateService : list AdminEvent -> Z;
  scm_StartServiceCtrlDispatcher : list AdminEvent -> bool
}.

(** The [std::string] variables: the local [strCommand] of [WinMain]
    and the globals [strCage] and [strCommandLine]. *)
Inductive Var :=
| var_strCommand
| var_strCage
| var_strCommandLine.

Global Instance Var_eq_dec : EqDecision Var.
Proof. solve_decision. Defined.

(** The variables, the static [strModuleFileName] of [module_filename]
    and the calls made so far. *)
Record Main := {
  vars : Strings.Store (V := Var);
  strModuleFileName : string;
  calls : list AdminEvent
}.

Definition MainM (A : Type) : Type := Main -> A * Main.

Global Instance MainM_ret : MRet MainM := λ A a m, (a, m).
Global Instance MainM_bind : MBind MainM :=
  λ A B f c m, let (a, m') := c m in f a m'.

Definition call (e : AdminEvent) : MainM unit := λ m,
  (tt, {| vars := vars m; strModuleFileName := strModuleFileName m;
          calls := calls m ++ [e] |}).

Definition answer {A} (f : list AdminEvent -> A) : MainM A :=
  λ m, (f (calls m), m).

Definition var (v : Var) : MainM string := λ m, (vars m v, m).

Definition set_var (v : Var) (x : string) : MainM unit := λ m,
  (tt, {| vars := Strings.assign v x (vars m);
          strModuleFileName := strModuleFileName m; calls := calls m |}).

Definition set_strModuleFileName (x : string) : MainM unit := λ m,
  (tt, {| vars := vars m; strModuleFileName := x; calls := calls m |}).

Definition get_strModuleFileName : MainM string :=
  λ m, (strModuleFileName m, m).

(** [split] on the variables of the program. *)
Definition split (_rstrSrc _rstrSep : Strings.Arg (V := Var))
    (_rstrL _rstrR : Var) : MainM bool := λ m,
  let (found, st) := Strings.split _rstrSrc _rstrSep _rstrL _rstrR (vars m) in
  (found, {| vars := st; strModuleFileName := strModuleFileName m;
             calls := calls m |}).

Section Code.
Context {scm : SCM}.

(** The string that [GetModuleFileName] leaves in the buffer. *)
Definition GetModuleFileName (hModule : Z) (nSize : DWORD) : MainM string :=
  call (EvGetModuleFileName hModule nSize);;
  answer scm_GetModuleFileName.

Definition OpenSCManager (access : DWORD) : MainM Z :=
  call (EvOpenSCManager access);;
  answer scm_OpenSCManager.

Definition OpenService (hSCManager : Z) (name : string) (access : DWORD)
  : MainM Z :=
  call (EvOpenService hSCManager name access);;
  answer scm_OpenService.

Definition CreateService (hSCManager : Z) (name display : string)
    (access type start error : DWORD) (binary : string) : MainM Z :=
  call (EvCreateService hSCManager name display access type start error
          binary);;
  answer scm_CreateService.

Definition ChangeServiceConfig2 (hService : Z) (level : DWORD)
    (description : string) : MainM unit :=
  call (EvChangeServiceConfig2 hService level description).

Definition ControlService (hService : Z) (control : DWORD) : MainM unit :=
  call (EvControlService hService control).

Definition DeleteService (hService : Z) : MainM unit :=
  call (EvDeleteService hService).

Definition CloseServiceHandle (h : Z) : MainM unit :=
  call (EvCloseServiceHandle h).

Definition StartServiceCtrlDispatcher (name : string) : MainM bool :=
  call (EvStartServiceCtrlDispatcher name);;
  answer scm_StartServiceCtrlDispatcher.

(** The macro [MSG(X)] *)
Definition MSG (X : string) : MainM unit :=
  call (EvMessageBox X "pmnc3ksvc.exe" MB_OK).

(** [module_filename(_hInstance)] *)
Definition module_filename (_hInstance : Z) : MainM string :=
  (if negb (_hInstance =? 0) then
     arrcBuf ← GetModuleFileName _hInstance MAX_PATH;
     set_strModuleFileName arrcBuf
   else mret tt);;
  get_strModuleFileName.

(** [EntryInstallService] *)
Definition EntryInstallService : MainM Z :=
  schSCManager ← OpenSCManager SC_MANAGER_ALL_ACCESS;
  if schSCManager =? 0 then mret 1
  else
    cage ← var var_strCage;
    commandLine ← var var_strCommandLine;
    module ← module_filename 0;
    let strServiceName := (SERVICE_SHORT_NAME_PREFIX ++ cage)%string in
    let strFullServiceName := (SERVICE_FULL_NAME_PREFIX ++ cage)%string in
    let strServiceDescription :=
      (SERVICE_DESCRIPTION_PREFIX ++ cage)%string in
    let strServiceCommandLine :=
      (((quote ++ module) ++ (quote ++ " run ")) ++ commandLine)%string in
    schService ← OpenService schSCManager strServiceName SERVICE_QUERY_STATUS;
    obtained ←
      (if schService =? 0 then
         schService ← CreateService schSCManager strServiceName
                        strFullServiceName SERVICE_ALL_ACCESS
                        SERVICE_WIN32_OWN_PROCESS SERVICE_AUTO_START
                        SERVICE_ERROR_IGNORE strServiceCommandLine;
         if schService =? 0 then
           CloseServiceHandle schSCManager;;
           mret None
         else
           ChangeServiceConfig2 schService SERVICE_CONFIG_DESCRIPTION
             strServiceDescription;;
           mret (Some schService)
       else mret (Some schService));
    match obtained with
    | None => mret 1
    | Some schService =>
        CloseServiceHandle schService;;
        CloseServiceHandle schSCManager;;
        MSG (strFullServiceName ++ " has been installed   ")%string;;
        mret 0
    end.

(** [EntryRemoveService] *)
Definition EntryRemoveService : MainM Z :=
  schSCManager ← OpenSCManager SC_MANAGER_ALL_ACCESS;
  if schSCManager =? 0 then mret 1
  else
    cage ← var var_strCage;
    let strServiceName := (SERVICE_SHORT_NAME_PREFIX ++ cage)%string in
    let strFullServiceName := (SERVICE_FULL_NAME_PREFIX ++ cage)%string in
    schService ← OpenService schSCManager strServiceName
                   (Z.lor DELETE SERVICE_STOP);
    (if negb (schService =? 0) then
       ControlService schService SERVICE_CONTROL_STOP;;
       DeleteService schService;;
       CloseServiceHandle schService
     else mret tt);;
    CloseServiceHandle schSCManager;;
    MSG (("Service " ++ strFullServiceName)
         ++ " has been successfully removed   ")%string;;
    mret 0.

(** [EntryLaunchService]: the dispatcher is given a table with the one
    entry [(strServiceName, ServiceEntry)]. *)
Definition EntryLaunchService : MainM Z :=
  cage ← var var_strCage;
  let strServiceName := (SERVICE_SHORT_NAME_PREFIX ++ cage)%string in
  connected ← StartServiceCtrlDispatcher strServiceName;
  if negb connected then mret 1 else mret 0.

(** The text of the last branch of [WinMain]. *)
Definition usage : string :=
  ("Pythomnic3k win32 service installer:" ++ nl
   ++ nl
   ++ "To install a cage as a service:" ++ nl
   ++ nl
   ++ "c:>  pmnc3ksvc.exe  install  cage_name  c:\python31\python.exe  \    "
   ++ nl
   ++ "        c:\pythomnic3k\startup.py  [node_name.]cage_name" ++ nl
   ++ nl
   ++ "To remove an installed cage:" ++ nl
   ++ nl
   ++ "c:>  pmnc3ksvc.exe  remove  cage_name" ++ nl
   ++ nl)%string.

(** [WinMain(hInstance, hPrevInstance, lpCmdLine, nCmdShow)]; the
    second and the last argument are not used. *)
Definition WinMain (hInstance : Z) (lpCmdLine : string) : MainM Z :=
  module_filename hInstance;;
  set_var var_strCommand EmptyString;;
  set_var var_strCommandLine lpCmdLine;;
  split (Strings.ByRef var_strCommandLine) (Strings.Temporary " ")
    var_strCommand var_strCommandLine;;
  strCommand ← var var_strCommand;
  if String.eqb strCommand "install" then
    split (Strings.ByRef var_strCommandLine) (Strings.Temporary " ")
      var_strCage var_strCommandLine;;
    EntryInstallService
  else if String.eqb strCommand "remove" then
    split (Strings.ByRef var_strCommandLine) (Strings.Temporary " ")
      var_strCage var_strCommandLine;;
    EntryRemoveService
  else if String.eqb strCommand "run" then
    EntryLaunchService
  else
    MSG usage;;
    mret 1.

End Code.

(** The program at its start: every string is empty. *)
Definition at_start : Main :=
  {| vars := λ _, EmptyString; strModuleFileName := EmptyString;
     calls := [] |}.

(** The handles passed to [CloseServiceHandle], in order. *)
Definition closed (t : list AdminEvent) : list Z :=
  omap (λ e, match e with EvCloseServiceHandle h => Some h | _ => None end) t.

(** The services that a trace asks to create: the name, the display
    name and the command line that starts the service. *)
Definition created (t : list AdminEvent) : list (string * string * string) :=
  omap (λ e, match e with
             | EvCreateService _ name display _ _ _ _ path =>
                 Some (name, display, path)
             | _ => None
             end) t.

(** The services that a trace asks to open: the name and the access
    asked for. *)
Definition opened (t : list AdminEvent) : list (string * DWORD) :=
  omap (λ e, match e with
             | EvOpenService _ name access => Some (name, access)
             | _ => None
             end) t.

(** The texts shown to the user. *)
Definition messages (t : list AdminEvent) : list string :=
  omap (λ e, match e with EvMessageBox x _ _ => Some x | _ => None end) t.

(** Whether a call creates, reconfigures, stops or deletes a service. *)
Definition changes_services (e : AdminEvent) : bool :=
  match e with
  | EvCreateService _ _ _ _ _ _ _ _ | EvChangeServiceConfig2 _ _ _
  | EvControlService _ _ | EvDeleteService _ => true
  | _ => false
  end.

(** The calls made between an earlier and a later state. *)
Definition made (m m' : Main) : list AdminEvent :=
  drop (length (calls m)) (calls m').

Section Handles.
Context {scm : SCM}.

(** The handles that the calls of [new] were answered with, [before]
    being the calls made earlier; a call that failed gave none. *)
Fixpoint obtained (before new : list AdminEvent) : list Z :=
  match new with
  | [] => []
  | e :: rest =>
      let t := before ++ [e] in
      let h := match e with
               | EvOpenSCManager _ => scm_OpenSCManager t
               | EvOpenService _ _ _ => scm_OpenService t
               | EvCreateService _ _ _ _ _ _ _ _ => scm_CreateService t
               | _ => 0
               end in
      (if h =? 0 then [] else [h]) ++ obtained t rest
  end.

End Handles.

End Admin.

(** The command lines passed to [CreateProcess] in a trace. *)
Definition commands (t : list Event) : list string :=
  omap (λ e, match e with EvCreateProcess cmd _ _ _ => Some cmd | _ => None end) t.

(** The service process in which the dispatcher that [WinMain] started
    runs [ServiceEntry]: the globals hold what [WinMain] left in them. *)
Definition dispatched (w : World) (m : Admin.Main) : Process :=
  startup w (Admin.vars m Admin.var_strCage)
    (Admin.vars m Admin.var_strCommandLine).

(** ** Further states of the service and of the machine *)

Module Scenario2.

(** The service once [ServiceEntry] has returned, every call having
    succeeded: it owns its child. *)
Definition running : Process :=
  final (ServiceEntry (os := Scenario.cooperative) Scenario.launched).

(** A machine on which no service of the asked name exists and every
    call succeeds. *)
Definition bare : Admin.SCM :=
  {| Admin.scm_GetModuleFileName := λ _, "C:\pmnc3k\pmnc3ksvc.exe"%string;
     Admin.scm_OpenSCManager := λ _, 500;
     Admin.scm_OpenService := λ _, 0;
     Admin.scm_CreateService := λ _, 600;
     Admin.scm_StartServiceCtrlDispatcher := λ _, true |}.

(** A machine on which the service exists. *)
Definition installed : Admin.SCM :=
  {| Admin.scm_GetModuleFileName := λ _, "C:\pmnc3k\pmnc3ksvc.exe"%string;
     Admin.scm_OpenSCManager := λ _, 500;
     Admin.scm_OpenService := λ _, 550;
     Admin.scm_CreateService := λ _, 600;
     Admin.scm_StartServiceCtrlDispatcher := λ _, true |}.

(** The instance handle that [WinMain] is given. *)
Definition hInstance : Z := 4194304.

End Scenario2.


(** * Properties *)

(** ** Standard handles and the handle table *)

Lemma set_std_get_std k h s : set_std k (get_std k s) (set_std k h s) = s.
Proof.
  unfold set_std, get_std.
  destruct (k =? STD_INPUT_HANDLE) eqn:E1; [destruct s; reflexivity|].
  destruct (k =? STD_OUTPUT_HANDLE) eqn:E2;
    [destruct s; simpl; rewrite ?E1, ?E2; reflexivity|].
  destruct (k =? STD_ERROR_HANDLE) eqn:E3; [destruct s; reflexivity|].
  rewrite ?E1, ?E2, ?E3. reflexivity.
Qed.

Lemma set_std_get_std_same k s : set_std k (get_std k s) s = s.
Proof.
  unfold set_std, get_std.
  destruct (k =? STD_INPUT_HANDLE); [destruct s; reflexivity|].
  destruct (k =? STD_OUTPUT_HANDLE); [destruct s; reflexivity|].
  destruct (k =? STD_ERROR_HANDLE); [destruct s; reflexivity|].
  reflexivity.
Qed.

Lemma handles_del_not_elem h (X : gset Z) : h ∉ handles_del h X.
Proof.
  unfold handles_del. intros [_ Hn]%elem_of_difference.
  apply Hn, elem_of_singleton. reflexivity.
Qed.

Lemma since_app (t evs : list Event) : since t (t ++ evs) = evs.
Proof. unfold since. apply drop_app_length. Qed.

Lemma since_self (t : list Event) : since t t = [].
Proof. unfold since. apply drop_all. Qed.

(** ** Running Win32 calls *)

Ltac run_calls :=
  unfold InitializeSecurityDescriptor, SetSecurityDescriptorDacl, CreatePipe,
    GetStdHandle, SetStdHandle, DuplicateHandle, CloseHandle, WriteFile,
    FlushFileBuffers, ReadFile, GetLastError, CreateProcess,
    WaitForSingleObject, TerminateProcess, GetExitCodeProcess, Sleep,
    RegisterServiceCtrlHandlerEx, SetServiceStatus;
  unfold mbind, mret, OSM_bind, OSM_ret, log, ask, gets, set_std_handles,
    release_handle, alloc_handle, set_last_error;
  simpl.

Ltac split_oracle :=
  repeat match goal with
  | |- context [if os_CreatePipe ?t then _ else _] =>
      destruct (os_CreatePipe t); simpl
  | |- context [if os_DuplicateHandle ?t then _ else _] =>
      destruct (os_DuplicateHandle t); simpl
  | |- context [if os_CreateProcess ?t then _ else _] =>
      destruct (os_CreateProcess t); simpl
  end.

Ltac flatten_trace := rewrite <- ?app_assoc, ?since_app, ?since_self; simpl.

(** ** CIOPipe *)

(** C2. Whatever the stream kind, the mode character, the state of the
    process and the outcome of [CreatePipe] and [DuplicateHandle]: after
    a [CIOPipe] is constructed and destroyed the three standard-handle
    slots are what they were before the construction; the destructor
    makes exactly two calls, one [SetStdHandle] that stores the value
    read before the construction and one [CloseHandle] of [m_hClose];
    that handle is not open afterwards; for the modes ['r'] and ['w']
    it is the end the constructor installed as the standard handle; and
    over the whole lifetime the slot is written once to install (for
    these modes) and once to restore. *)
Theorem CIOPipe_lifetime_restores_std_handle {os : OS}
    (kind : DWORD) (mode : ascii) (w : World) :
  let (p, w1) := CIOPipe_ctor kind mode w in
  let (_, w2) := CIOPipe_dtor p w1 in
  std w2 = std w
  ∧ trace w2 = trace w1 ++
      [EvSetStdHandle kind (get_std kind (std w)); EvCloseHandle (m_hClose p)]
  ∧ (m_hClose p ∉ open_handles w2)
  ∧ std w1 = (if installs mode then set_std kind (m_hClose p) (std w)
              else std w)
  ∧ std_writes (since (trace w) (trace w2)) =
      (if installs mode then [(kind, m_hClose p)] else [])
      ++ [(kind, get_std kind (std w))].
Proof.
  unfold CIOPipe_ctor, CIOPipe_dtor, installs. run_calls.
  destruct (Ascii.eqb mode "r"); [|destruct (Ascii.eqb mode "w")];
    split_oracle; flatten_trace;
    rewrite ?set_std_get_std, ?set_std_get_std_same;
    repeat split; try reflexivity; apply handles_del_not_elem.
Qed.

(** ** CSatelliteProcess::WaitForCompletion *)

Lemma WaitForCompletion_completed {os : OS} this ms w :
  m_boolCompleted this = true →
  WaitForCompletion this ms w = (m_ulRetCode this, this, w).
Proof. intros Hc. unfold WaitForCompletion. rewrite Hc. reflexivity. Qed.

Lemma WaitForCompletion_each_completed {os : OS} this ts w :
  m_boolCompleted this = true →
  WaitForCompletion_each this ts w =
    (replicate (length ts) (m_ulRetCode this), this, w).
Proof.
  intros Hc. induction ts as [|ms ts IH]; [reflexivity|].
  simpl. unfold mbind, OSM_bind.
  rewrite WaitForCompletion_completed by exact Hc.
  rewrite IH. reflexivity.
Qed.

Lemma WaitForCompletion_sets_flag {os : OS} this ms w :
  let '(rc, this1, _) := WaitForCompletion this ms w in
  m_boolCompleted this1 = true ∧ m_ulRetCode this1 = rc.
Proof.
  unfold WaitForCompletion.
  destruct (m_boolCompleted this) eqn:Hc; [split; [exact Hc|reflexivity]|].
  run_calls. destruct (negb _); simpl; split; reflexivity.
Qed.

(** C3. After any call of [WaitForCompletion] has returned [rc] and left
    the object [this1], the flag is set and [rc] is the cached code;
    every later call, with any timeout and in any state of the process,
    returns [rc] again and leaves both the object and the process state
    (so also the trace of Win32 calls: no wait, no termination, no
    query) exactly as they were; the same holds for any number of later
    calls in a row. *)
Theorem WaitForCompletion_idempotent {os : OS}
    (this : CSatelliteProcess) (ms : DWORD) (w : World) :
  let '(rc, this1, _) := WaitForCompletion this ms w in
  m_boolCompleted this1 = true
  ∧ m_ulRetCode this1 = rc
  ∧ (∀ ms' w', WaitForCompletion this1 ms' w' = (rc, this1, w'))
  ∧ (∀ timeouts w',
       WaitForCompletion_each this1 timeouts w' =
         (replicate (length timeouts) rc, this1, w')).
Proof.
  pose proof (WaitForCompletion_sets_flag this ms w) as Hflag.
  destruct (WaitForCompletion this ms w) as [[rc this1] w1].
  destruct Hflag as [Hc Hrc]. subst rc.
  repeat split; [exact Hc| |].
  - intros ms' w'. apply WaitForCompletion_completed, Hc.
  - intros ts w'. apply WaitForCompletion_each_completed, Hc.
Qed.

(** C6. A call of [WaitForCompletion] on an object whose flag is not set
    makes these Win32 calls and no other: [WaitForSingleObject] on the
    process handle with the given timeout; [TerminateProcess] on it with
    exit code 0 exactly when the wait returned something else than
    [WAIT_OBJECT_0]; then at once [GetExitCodeProcess].  The value
    returned is the code queried (0 when the query fails); it is stored
    in [m_ulRetCode] and the flag is set. *)
Theorem WaitForCompletion_first_call {os : OS}
    (this : CSatelliteProcess) (ms : DWORD) (w : World) :
  m_boolCompleted this = false →
  let h := m_hProcess (m_shpoImpl this) in
  let t1 := trace w ++ [EvWaitForSingleObject h ms] in
  let t2 := if os_WaitForSingleObject t1 =? WAIT_OBJECT_0 then t1
            else t1 ++ [EvTerminateProcess h 0] in
  let t3 := t2 ++ [EvGetExitCodeProcess h] in
  let code := default 0 (os_GetExitCodeProcess t3) in
  WaitForCompletion this ms w =
    (code,
     {| m_strCommandLine := m_strCommandLine this;
        m_shpoImpl := m_shpoImpl this;
        m_boolCompleted := true;
        m_ulRetCode := code;
        m_ulDestructorWaitMs := m_ulDestructorWaitMs this |},
     {| std := std w; open_handles := open_handles w;
        last_error := last_error w; trace := t3 |}).
Proof.
  intros Hc. unfold WaitForCompletion. rewrite Hc. run_calls.
  destruct (os_WaitForSingleObject _ =? WAIT_OBJECT_0); reflexivity.
Qed.

(** The child of [Scenario.hung_child] never exits: the wait of 1000 ms
    times out, the child is terminated and the code is queried. *)
Lemma WaitForCompletion_first_call_hung :
  m_boolCompleted Scenario.fresh_child = false
  ∧ (WaitForCompletion (os := Scenario.hung_child)
       Scenario.fresh_child 1000 Scenario.console).1.1 = 0
  ∧ trace (WaitForCompletion (os := Scenario.hung_child)
       Scenario.fresh_child 1000 Scenario.console).2 =
      [EvWaitForSingleObject 21 1000; EvTerminateProcess 21 0;
       EvGetExitCodeProcess 21].
Proof.
  split; [reflexivity|].
  rewrite (@WaitForCompletion_first_call Scenario.hung_child
             Scenario.fresh_child 1000 Scenario.console eq_refl).
  split; reflexivity.
Defined.

(** ** Write and Read *)

(** C4. [Write] called with a payload and its length makes exactly two
    Win32 calls and changes nothing else: one [WriteFile] on the stdin
    handle that offers the payload cut to its first
    [PIPE_OUTPUT_BUFFER_SIZE] bytes when it is longer than that, and the
    whole payload otherwise; then [FlushFileBuffers] on the same handle,
    which is the last thing it does.  The number of bytes offered is the
    minimum of the length and the limit, and [Write] returns nothing:
    the bytes cut off are not reported. *)
Theorem Write_truncates_to_buffer_size {sizes : BufferSizes}
    (this : CSatelliteProcess) (data : list byte) (w : World) :
  0 ≤ PIPE_OUTPUT_BUFFER_SIZE →
  let n := Z.of_nat (length data) in
  let sent := if n >? PIPE_OUTPUT_BUFFER_SIZE
              then take (Z.to_nat PIPE_OUTPUT_BUFFER_SIZE) data else data in
  let h := m_hStdIn (m_shpoImpl this) in
  Write this data n w =
    (tt, {| std := std w; open_handles := open_handles w;
            last_error := last_error w;
            trace := trace w ++ [EvWriteFile h sent; EvFlushFileBuffers h] |})
  ∧ Z.of_nat (length sent) = Z.min n PIPE_OUTPUT_BUFFER_SIZE
  ∧ sent `prefix_of` data.
Proof.
  intros HL n sent h. subst n sent h.
  unfold Write, Impl_Write. run_calls. rewrite <- app_assoc. simpl.
  destruct (Z.gtb_spec (Z.of_nat (length data)) PIPE_OUTPUT_BUFFER_SIZE)
    as [Hgt|Hle].
  - repeat split.
    + rewrite length_take. lia.
    + apply prefix_take.
  - rewrite Nat2Z.id, firstn_all. repeat split; [lia|reflexivity].
Qed.

(** The second example scenario of the specification: 10 000 bytes
    against a limit of 4096. *)
Lemma Write_truncates_10000_to_4096 :
  0 ≤ 4096
  ∧ trace (Write (sizes := Scenario.sizes_4096)
             Scenario.fresh_child Scenario.payload_10000 10000
             Scenario.console).2 =
      [EvWriteFile 14 (replicate (Z.to_nat 4096) x41); EvFlushFileBuffers 14].
Proof.
  split; [lia|].
  pose proof (@Write_truncates_to_buffer_size
                Scenario.sizes_4096 Scenario.fresh_child
                Scenario.payload_10000 Scenario.console) as Hw.
  destruct Hw as [Hrun _]; [vm_compute; discriminate|].
  change (Z.of_nat (length Scenario.payload_10000)) with 10000 in Hrun.
  rewrite Hrun. vm_compute. reflexivity.
Defined.

Lemma ReadInternal_run {os : OS} {sizes : BufferSizes} h w :
  (ReadInternal h w).1 =
    match os_ReadFile (trace w ++ [EvReadFile h PIPE_INPUT_BUFFER_SIZE]) with
    | ReadDelivered bytes =>
        let got := take (Z.to_nat PIPE_INPUT_BUFFER_SIZE) bytes in
        (got, Z.of_nat (length got))
    | ReadFailed e bytes =>
        let got := take (Z.to_nat PIPE_INPUT_BUFFER_SIZE) bytes in
        (got, if (e =? ERROR_BROKEN_PIPE) || (e =? ERROR_NO_DATA)
              then Z.of_nat (length got) else 0)
    end.
Proof.
  unfold ReadInternal. run_calls.
  destruct (os_ReadFile _) as [bytes|e bytes]; simpl; [reflexivity|].
  destruct (e =? ERROR_BROKEN_PIPE); simpl; [reflexivity|].
  destruct (e =? ERROR_NO_DATA); reflexivity.
Qed.

(** C5. [Read] and [ReadErr] always return: a buffer and a length, with
    no way to signal a failure, and the length is between 0 and
    [PIPE_INPUT_BUFFER_SIZE].  When [ReadFile] succeeds the length is
    that of the bytes it delivered.  When [ReadFile] fails the length
    is 0: for a code other than [ERROR_BROKEN_PIPE] and
    [ERROR_NO_DATA] because [ReadInternal] stores 0 over the count,
    also when bytes were delivered; for these two codes [ReadInternal]
    keeps the count of [ReadFile], which is 0 since a call that fails
    with one of them has delivered nothing. *)
Theorem Read_degrades_failures {os : OS} {sizes : BufferSizes}
    (this : CSatelliteProcess) (w : World) :
  0 ≤ PIPE_INPUT_BUFFER_SIZE →
  (∀ t e bytes,
     os_ReadFile t = ReadFailed e bytes →
     e = ERROR_BROKEN_PIPE ∨ e = ERROR_NO_DATA → bytes = []) →
  (let '(buffer, len, _) := Read this w in
   0 ≤ len ≤ PIPE_INPUT_BUFFER_SIZE
   ∧ match os_ReadFile (trace w ++ [EvReadFile (m_hStdOut (m_shpoImpl this))
                                      PIPE_INPUT_BUFFER_SIZE]) with
     | ReadDelivered bytes =>
         buffer = take (Z.to_nat PIPE_INPUT_BUFFER_SIZE) bytes
         ∧ len = Z.of_nat (length buffer)
     | ReadFailed _ bytes =>
         len = 0 ∧ buffer = take (Z.to_nat PIPE_INPUT_BUFFER_SIZE) bytes
     end)
  ∧ (let '(buffer, len, _) := ReadErr this w in
     0 ≤ len ≤ PIPE_INPUT_BUFFER_SIZE
     ∧ match os_ReadFile (trace w ++ [EvReadFile (m_hStdErr (m_shpoImpl this))
                                        PIPE_INPUT_BUFFER_SIZE]) with
       | ReadDelivered bytes =>
           buffer = take (Z.to_nat PIPE_INPUT_BUFFER_SIZE) bytes
           ∧ len = Z.of_nat (length buffer)
       | ReadFailed _ bytes =>
           len = 0 ∧ buffer = take (Z.to_nat PIPE_INPUT_BUFFER_SIZE) bytes
       end).
Proof.
  intros Hsize Hpipe.
  assert (Hread : ∀ h,
    let '(buffer, len, _) := ReadInternal h w in
    0 ≤ len ≤ PIPE_INPUT_BUFFER_SIZE
    ∧ match os_ReadFile (trace w ++ [EvReadFile h PIPE_INPUT_BUFFER_SIZE]) with
      | ReadDelivered bytes =>
          buffer = take (Z.to_nat PIPE_INPUT_BUFFER_SIZE) bytes
          ∧ len = Z.of_nat (length buffer)
      | ReadFailed _ bytes =>
          len = 0 ∧ buffer = take (Z.to_nat PIPE_INPUT_BUFFER_SIZE) bytes
      end).
  { intros h. pose proof (ReadInternal_run h w) as Hrun.
    destruct (ReadInternal h w) as [[buffer len] w']. cbn [fst] in Hrun.
    destruct (os_ReadFile _) as [bytes|e bytes] eqn:Hos;
      cbv zeta in Hrun; injection Hrun as -> ->.
    - rewrite length_take. repeat split; lia.
    - destruct ((e =? ERROR_BROKEN_PIPE) || (e =? ERROR_NO_DATA)) eqn:He.
      + rewrite (Hpipe _ _ _ Hos).
        * rewrite take_nil. repeat split; simpl; lia.
        * apply orb_true_iff in He as [He|He]; apply Z.eqb_eq in He; auto.
      + repeat split; lia. }
  split; [exact (Hread (m_hStdOut (m_shpoImpl this)))
         |exact (Hread (m_hStdErr (m_shpoImpl this)))].
Qed.

(** A read on a pipe that the exited child has closed: [ReadFile] fails
    with [ERROR_BROKEN_PIPE] and [Read] returns length 0. *)
Lemma Read_broken_pipe_is_empty :
  0 ≤ 4096
  ∧ (Read (os := Scenario.no_spawn) (sizes := Scenario.sizes_4096)
       Scenario.fresh_child Scenario.console).1 = ([], 0).
Proof.
  split; [lia|].
  pose proof (@Read_degrades_failures Scenario.no_spawn Scenario.sizes_4096
                Scenario.fresh_child Scenario.console) as Hr.
  destruct Hr as [Hr _];
    [vm_compute; discriminate|intros t e bytes [= _ <-] _; reflexivity|].
  destruct (Read _ _) as [[buffer len] w'].
  destruct Hr as (_ & Hlen & Hbuf). simpl in Hlen, Hbuf.
  simpl. rewrite Hlen, Hbuf. reflexivity.
Defined.

(** A read that fails with another code after bytes have been
    delivered: the bytes are in the buffer and the length is 0. *)
Lemma Read_failure_with_bytes_has_length_0 :
  (Read (os := Scenario.long_message) (sizes := Scenario.sizes_4096)
     Scenario.fresh_child Scenario.console).1 = (Scenario.hello, 0)
  ∧ (ReadErr (os := Scenario.long_message) (sizes := Scenario.sizes_4096)
       Scenario.fresh_child Scenario.console).1 = (Scenario.hello, 0).
Proof. split; vm_compute; reflexivity. Qed.

(** ** The destructor *)

(** C9. The destructor waits exactly when the flag is not set: the
    [WaitForSingleObject] calls it makes are none for a completed
    object, and one, on the process handle with the budget
    [m_ulDestructorWaitMs], otherwise.  Its body is a call of
    [WaitForCompletion] with that budget in the second case and does
    nothing in the first; either way the flag is set when the body
    ends, and the destructor goes on to close the four handles. *)
Theorem destructor_waits_iff_not_completed {os : OS}
    (this : CSatelliteProcess) (w : World) :
  let '(this', w1) := CSatelliteProcess_dtor_body this w in
  let '(_, w2) := CSatelliteProcess_dtor this w in
  m_boolCompleted this' = true
  ∧ (this', w1) =
      (if m_boolCompleted this then (this, w)
       else let '(_, this1, w') :=
              WaitForCompletion this (m_ulDestructorWaitMs this) w in
            (this1, w'))
  ∧ waits (since (trace w) (trace w2)) =
      (if m_boolCompleted this then []
       else [(m_hProcess (m_shpoImpl this), m_ulDestructorWaitMs this)])
  ∧ trace w2 = trace w1 ++
      [EvCloseHandle (m_hStdIn (m_shpoImpl this));
       EvCloseHandle (m_hStdOut (m_shpoImpl this));
       EvCloseHandle (m_hStdErr (m_shpoImpl this));
       EvCloseHandle (m_hProcess (m_shpoImpl this))].
Proof.
  unfold CSatelliteProcess_dtor, CSatelliteProcess_dtor_body,
    CSatelliteProcessImpl_dtor, WaitForCompletion.
  destruct (m_boolCompleted this) eqn:Hc; run_calls.
  - flatten_trace. repeat split; exact Hc.
  - destruct (negb _); simpl; flatten_trace; repeat split;
      rewrite <- ?app_assoc; reflexivity.
Qed.

(** ** Which events a computation appends *)

Lemma extends_refl p t : extends p t t.
Proof. exists []. split; [symmetry; apply app_nil_r|reflexivity]. Qed.

Lemma extends_trans p t1 t2 t3 :
  extends p t1 t2 → extends p t2 t3 → extends p t1 t3.
Proof.
  intros (e1 & -> & H1) (e2 & -> & H2). exists (e1 ++ e2). split.
  - symmetry. apply app_assoc.
  - rewrite forallb_app, H1, H2. reflexivity.
Qed.

Lemma extends_weaken (p q : Event → bool) t t' :
  (∀ e, p e = true → q e = true) → extends p t t' → extends q t t'.
Proof.
  intros Hpq (evs & -> & Hp). exists evs. split; [reflexivity|].
  rewrite forallb_forall in *. auto.
Qed.

Lemma emits_ret {A} p (a : A) : emits p (mret a).
Proof. intros w. apply extends_refl. Qed.

Lemma emits_bind {A B} p (m : OSM A) (f : A → OSM B) :
  emits p m → (∀ a, emits p (f a)) → emits p (m ≫= f).
Proof.
  intros Hm Hf w. unfold mbind, OSM_bind.
  specialize (Hm w). destruct (m w) as [a w']. simpl in Hm.
  eapply extends_trans; [exact Hm|apply Hf].
Qed.

Lemma emits_log p e : p e = true → emits p (log e).
Proof.
  intros He w. exists [e]. split; [reflexivity|]. simpl. rewrite He. reflexivity.
Qed.

Lemma emits_ask {A} p (f : list Event → A) : emits p (ask f).
Proof. intros w. apply extends_refl. Qed.

Lemma emits_gets {A} p (f : World → A) : emits p (gets f).
Proof. intros w. apply extends_refl. Qed.

Lemma emits_set_std_handles p s : emits p (set_std_handles s).
Proof. intros w. apply extends_refl. Qed.

Lemma emits_release_handle p h : emits p (release_handle h).
Proof. intros w. apply extends_refl. Qed.

Lemma emits_alloc_handle p : emits p alloc_handle.
Proof. intros w. apply extends_refl. Qed.

Lemma emits_set_last_error p e : emits p (set_last_error e).
Proof. intros w. apply extends_refl. Qed.

Lemma emits_weaken {A} (p q : Event → bool) (m : OSM A) :
  (∀ e, p e = true → q e = true) → emits p m → emits q m.
Proof. intros Hpq Hm w. eapply extends_weaken; [exact Hpq|apply Hm]. Qed.

Create HintDb emits discriminated.
#[local] Hint Resolve emits_ret emits_ask emits_gets emits_set_std_handles
  emits_release_handle emits_alloc_handle emits_set_last_error : emits.

Ltac emits_step :=
  match goal with
  | |- emits _ (mbind _ _) => apply emits_bind; [|intros]
  | |- emits _ (log _) => apply emits_log; reflexivity
  | |- emits _ (if ?b then _ else _) => destruct b
  | |- emits _ (match ?x with _ => _ end) => destruct x
  | |- emits _ _ => solve [auto with emits]
  end.

(** No call of [popen_win32.cpp] is a status report. *)
Lemma CIOPipe_ctor_emits {os : OS} kind mode :
  emits not_a_report (CIOPipe_ctor kind mode).
Proof.
  unfold CIOPipe_ctor, InitializeSecurityDescriptor, SetSecurityDescriptorDacl,
    CreatePipe, GetStdHandle, DuplicateHandle, CloseHandle, SetStdHandle.
  repeat emits_step.
Qed.

Lemma CIOPipe_dtor_emits p : emits not_a_report (CIOPipe_dtor p).
Proof.
  unfold CIOPipe_dtor, CloseHandle, SetStdHandle. repeat emits_step.
Qed.

#[local] Hint Resolve CIOPipe_ctor_emits CIOPipe_dtor_emits : emits.

Lemma CSatelliteProcess_ctor_emits {os : OS} cmd ms :
  emits not_a_report (CSatelliteProcess_ctor cmd ms).
Proof.
  unfold CSatelliteProcess_ctor, make_pipes, CreateProcess, CloseHandle.
  repeat emits_step.
Qed.

Lemma CSatelliteProcess_dtor_emits {os : OS} this :
  emits not_a_report (CSatelliteProcess_dtor this).
Proof.
  unfold CSatelliteProcess_dtor, CSatelliteProcess_dtor_body,
    CSatelliteProcessImpl_dtor, WaitForCompletion, WaitForSingleObject,
    TerminateProcess, GetExitCodeProcess, CloseHandle.
  repeat emits_step.
Qed.

(** ** The calls that the service makes *)

Lemma until_exit_alive evs :
  forallb alive_call evs = true → until_exit evs = None.
Proof.
  induction evs as [|e evs IH]; [reflexivity|]. simpl.
  intros [He Hevs]%andb_true_iff. unfold alive_call in He.
  apply negb_true_iff in He. rewrite He, (IH Hevs). reflexivity.
Qed.

Lemma until_exit_made evs made :
  until_exit evs = Some made → ∃ rest, evs = made ++ rest.
Proof.
  revert made. induction evs as [|e evs IH]; intros made; [discriminate|].
  simpl. destruct (ends_caller e).
  - intros [= <-]. exists evs. reflexivity.
  - destruct (until_exit evs) as [made'|]; [|discriminate].
    intros [= <-]. destruct (IH made' eq_refl) as [rest ->].
    exists rest. reflexivity.
Qed.

Lemma lift_alive {os : OS} {A} (m : OSM A) s :
  emits alive_call m →
  lift m s = Done (m (world s)).1 (with_world (m (world s)).2 s).
Proof.
  intros Hm. unfold lift. destruct (Hm (world s)) as (evs & Ht & Hevs).
  destruct (m (world s)) as [a w]. simpl in *.
  rewrite Ht, drop_app_length, (until_exit_alive _ Hevs). reflexivity.
Qed.

Lemma CSatelliteProcess_ctor_alive {os : OS} cmd ms :
  emits alive_call (CSatelliteProcess_ctor cmd ms).
Proof.
  unfold CSatelliteProcess_ctor, make_pipes, CIOPipe_ctor, CIOPipe_dtor,
    InitializeSecurityDescriptor, SetSecurityDescriptorDacl, CreatePipe,
    GetStdHandle, DuplicateHandle, CloseHandle, SetStdHandle, CreateProcess.
  repeat emits_step.
Qed.

#[local] Arguments lift : simpl never.

Ltac alive :=
  first [apply CSatelliteProcess_ctor_alive
        |solve [unfold Sleep, SetServiceStatus, RegisterServiceCtrlHandlerEx;
                repeat emits_step]
        |solve [intros ?; simpl; eexists; split; reflexivity]
        |solve [intros ?; apply extends_refl]].

Ltac run_lifts := repeat (rewrite lift_alive by alive; simpl).

Lemma CSatelliteProcess_dtor_run {os : OS} this w :
  let impl := m_shpoImpl this in
  let waited :=
    os_WaitForSingleObject
      (trace w ++ [EvWaitForSingleObject (m_hProcess impl)
                     (m_ulDestructorWaitMs this)]) in
  CSatelliteProcess_dtor this w =
    (tt, {| std := std w;
            open_handles :=
              handles_del (m_hProcess impl)
                (handles_del (m_hStdErr impl)
                   (handles_del (m_hStdOut impl)
                      (handles_del (m_hStdIn impl) (open_handles w))));
            last_error := last_error w;
            trace := trace w ++ dtor_events this waited |}).
Proof.
  unfold CSatelliteProcess_dtor, CSatelliteProcess_dtor_body,
    CSatelliteProcessImpl_dtor, WaitForCompletion, dtor_events, wait_events,
    impl_close_events.
  destruct (m_boolCompleted this); run_calls.
  - rewrite <- !app_assoc. reflexivity.
  - destruct (os_WaitForSingleObject _ =? WAIT_OBJECT_0); simpl;
      rewrite <- !app_assoc; reflexivity.
Qed.

#[local] Arguments CSatelliteProcess_dtor : simpl never.

Lemma lift_dtor {os : OS} this s :
  let impl := m_shpoImpl this in
  let wait := EvWaitForSingleObject (m_hProcess impl)
                (m_ulDestructorWaitMs this) in
  let waited := os_WaitForSingleObject (trace (world s) ++ [wait]) in
  lift (CSatelliteProcess_dtor this) s =
    if ends_itself this waited
    then Exited (after_calls [wait; EvTerminateProcess (m_hProcess impl) 0] s)
    else Done tt (with_world (CSatelliteProcess_dtor this (world s)).2 s).
Proof.
  cbv zeta. unfold lift. rewrite CSatelliteProcess_dtor_run. cbn [trace].
  rewrite drop_app_length.
  unfold ends_itself, dtor_events, wait_events, impl_close_events.
  destruct (m_boolCompleted this); [reflexivity|].
  destruct (_ =? WAIT_OBJECT_0); [reflexivity|].
  cbn [negb andb app until_exit ends_caller].
  destruct (_ =? INVALID_HANDLE_VALUE); reflexivity.
Qed.

Lemma svc_emits_ret {A} p (a : A) : svc_emits p (mret a).
Proof. intros s. apply extends_refl. Qed.

Lemma svc_emits_bind {A B} p (m : SvcM A) (f : A → SvcM B) :
  svc_emits p m → (∀ a, svc_emits p (f a)) → svc_emits p (m ≫= f).
Proof.
  intros Hm Hf s. unfold mbind, SvcM_bind.
  specialize (Hm s). destruct (m s) as [a s'|s'|s'|s']; simpl in Hm.
  - eapply extends_trans; [exact Hm|apply Hf].
  - exact Hm.
  - exact Hm.
  - exact Hm.
Qed.

Lemma svc_emits_lift {A} p (m : OSM A) : emits p m → svc_emits p (lift m).
Proof.
  intros Hm s. unfold lift. destruct (Hm (world s)) as (evs & Ht & Hevs).
  destruct (m (world s)) as [a w]. simpl in Ht. rewrite Ht, drop_app_length.
  destruct (until_exit evs) as [made|] eqn:Hexit; simpl.
  - destruct (until_exit_made _ _ Hexit) as [rest ->].
    rewrite forallb_app in Hevs. apply andb_true_iff in Hevs as [Hmade _].
    exists made. split; [reflexivity|exact Hmade].
  - exists evs. split; [exact Ht|exact Hevs].
Qed.

Lemma svc_emits_get {A} p (f : Process → A) : svc_emits p (get f).
Proof. intros s. apply extends_refl. Qed.

Lemma svc_emits_update p (f : Process → Process) :
  (∀ s, world (f s) = world s) → svc_emits p (update f).
Proof. intros Hf s. simpl. rewrite Hf. apply extends_refl. Qed.

Lemma svc_emits_undefined {A} p : svc_emits p (@undefined_behaviour A).
Proof. intros s. apply extends_refl. Qed.

Lemma svc_emits_throw {A} p : svc_emits p (@throw A).
Proof. intros s. apply extends_refl. Qed.

Ltac svc_emits_step :=
  match goal with
  | |- svc_emits _ (mbind _ _) => apply svc_emits_bind; [|intros]
  | |- svc_emits _ (mret _) => apply svc_emits_ret
  | |- svc_emits _ (get _) => apply svc_emits_get
  | |- svc_emits _ (update _) => apply svc_emits_update; reflexivity
  | |- svc_emits _ undefined_behaviour => apply svc_emits_undefined
  | |- svc_emits _ throw => apply svc_emits_throw
  | |- svc_emits _ (lift _) => apply svc_emits_lift
  | |- svc_emits _ (if ?b then _ else _) => destruct b
  | |- svc_emits _ (match ?x with _ => _ end) => destruct x
  end.

Lemma not_a_report_running_or_stopped e :
  not_a_report e = true → running_or_stopped e = true.
Proof. destruct e; simpl; intros; reflexivity || discriminate. Qed.

Lemma popen_emits_running_or_stopped {A} (m : OSM A) :
  emits not_a_report m → emits running_or_stopped m.
Proof. apply emits_weaken, not_a_report_running_or_stopped. Qed.

Lemma ServiceEntry_emits {os : OS} : svc_emits running_or_stopped ServiceEntry.
Proof.
  unfold ServiceEntry, ServiceStart, ServiceRun, ServiceSignalStatus,
    new_CSatelliteProcess.
  repeat svc_emits_step;
    try (apply popen_emits_running_or_stopped, CSatelliteProcess_ctor_emits);
    unfold RegisterServiceCtrlHandlerEx, Sleep, SetServiceStatus;
    repeat emits_step.
Qed.

Lemma ServiceHandlerEx_emits {os : OS} c et ed ctx :
  svc_emits running_or_stopped (ServiceHandlerEx c et ed ctx).
Proof.
  unfold ServiceHandlerEx, ServiceStop, ServiceSignalStatus,
    delete_CSatelliteProcess.
  repeat svc_emits_step;
    try (apply popen_emits_running_or_stopped, CSatelliteProcess_dtor_emits);
    unfold Sleep, SetServiceStatus;
    repeat emits_step.
Qed.

Lemma deliver_emits {os : OS} cs : svc_emits running_or_stopped (deliver cs).
Proof.
  induction cs as [|c cs IH]; simpl.
  - apply svc_emits_ret.
  - apply svc_emits_bind; [apply ServiceHandlerEx_emits|intros _; exact IH].
Qed.

Lemma reported_running_or_stopped evs :
  forallb running_or_stopped evs = true →
  Forall (λ st, st = SERVICE_RUNNING ∨ st = SERVICE_STOPPED) (reported evs).
Proof.
  induction evs as [|e evs IH]; simpl; [constructor|].
  intros [He Hevs]%andb_true_iff. specialize (IH Hevs).
  unfold reported in *. destruct e; simpl; try exact IH.
  constructor; [|exact IH]. simpl in He.
  apply orb_true_iff in He as [He|He]; apply Z.eqb_eq in He; auto.
Qed.

Lemma pending_not_reported evs :
  Forall (λ st, st = SERVICE_RUNNING ∨ st = SERVICE_STOPPED) (reported evs) →
  (SERVICE_START_PENDING ∉ reported evs)
  ∧ (SERVICE_STOP_PENDING ∉ reported evs).
Proof.
  intros Hall. rewrite Forall_forall in Hall.
  split; intros Hin; destruct (Hall _ Hin); discriminate.
Qed.

(** ** The control handler when no instance is owned *)

Lemma after_calls_nil s : after_calls [] s = s.
Proof.
  destruct s as [[] ? ? ? ? ?]. unfold after_calls, with_world. simpl.
  rewrite app_nil_r. reflexivity.
Qed.

Lemma after_calls_app evs1 evs2 s :
  after_calls evs2 (after_calls evs1 s) = after_calls (evs1 ++ evs2) s.
Proof.
  unfold after_calls, with_world. simpl. rewrite app_assoc. reflexivity.
Qed.

Ltac run_service :=
  unfold ServiceStop, ServiceSignalStatus, ServiceRun, get, update,
    undefined_behaviour, throw;
  unfold mbind, mret, SvcM_bind, SvcM_ret;
  simpl; run_lifts.

Lemma ServiceHandlerEx_no_instance {os : OS} c s :
  poApp s = NULL →
  ServiceHandlerEx c 0 0 0 s =
    Done (if is_stop_control c then NO_ERROR else ERROR_CALL_NOT_IMPLEMENTED)
         (after_calls (stop_events (hServiceStatus s) c) s).
Proof.
  intros Hnull. unfold ServiceHandlerEx, stop_events, is_stop_control.
  destruct ((c =? SERVICE_CONTROL_SHUTDOWN) || (c =? SERVICE_CONTROL_STOP)).
  - run_service. rewrite Hnull. simpl. run_lifts.
    unfold after_calls, with_world. simpl. rewrite <- app_assoc. reflexivity.
  - rewrite after_calls_nil. reflexivity.
Qed.

Lemma reported_stop_events h cs :
  reported (flat_map (stop_events h) cs) =
    replicate (length (filter (λ c, is_stop_control c = true) cs))
              SERVICE_STOPPED.
Proof.
  induction cs as [|c cs IH]; [reflexivity|].
  simpl. unfold reported in *. rewrite omap_app, IH.
  rewrite filter_cons. unfold stop_events.
  destruct (is_stop_control c) eqn:Hc.
  - rewrite decide_True by reflexivity. reflexivity.
  - rewrite decide_False by discriminate. reflexivity.
Qed.

(** C1, as the code has it.  Control signals delivered while [poApp] is
    null (the service has not created its child) never reach
    undefined behaviour, delete nothing and leave
    [poApp], the heap, the standard handles and the handle table as
    they were.  They are not without effect: each stop or shutdown
    control sleeps 7000 ms and then reports Stopped, and any other
    control does nothing, so the service reports Stopped once per stop
    or shutdown control delivered. *)
Theorem stop_without_instance {os : OS}
    (cs : list DWORD) (s : Process) :
  poApp s = NULL →
  deliver cs s =
    Done tt (after_calls (flat_map (stop_events (hServiceStatus s)) cs) s)
  ∧ reported (flat_map (stop_events (hServiceStatus s)) cs) =
      replicate (length (filter (λ c, is_stop_control c = true) cs))
                SERVICE_STOPPED.
Proof.
  intros Hnull. split; [|apply reported_stop_events].
  revert s Hnull. induction cs as [|c cs IH]; intros s Hnull.
  - simpl. rewrite after_calls_nil. reflexivity.
  - cbn [deliver flat_map]. unfold mbind, SvcM_bind.
    rewrite ServiceHandlerEx_no_instance by exact Hnull.
    rewrite IH by exact Hnull. cbn [hServiceStatus after_calls with_world].
    rewrite after_calls_app. reflexivity.
Qed.

(** Two stop controls in a row while nothing is owned: Stopped is
    reported twice. *)
Lemma two_stops_without_instance :
  poApp Scenario.registered = NULL
  ∧ reported (trace (world (final
      (deliver (os := Scenario.cooperative)
         [SERVICE_CONTROL_STOP; SERVICE_CONTROL_STOP] Scenario.registered))))
    = [SERVICE_STOPPED; SERVICE_STOPPED].
Proof.
  split; [reflexivity|].
  destruct (@stop_without_instance Scenario.cooperative
              [SERVICE_CONTROL_STOP; SERVICE_CONTROL_STOP]
              Scenario.registered eq_refl) as [Hrun _].
  rewrite Hrun. reflexivity.
Defined.

(** C1, as the claim states it, fails.  With the handler registered and
    nothing owned, a first stop control leaves nothing owned; the second
    stop control delivered right after it is no no-op, it sleeps and
    reports again, and the service has then reported Stopped twice, not
    once. *)
Lemma second_stop_reports_Stopped_again :
  let stop := ServiceHandlerEx (os := Scenario.cooperative)
                SERVICE_CONTROL_STOP 0 0 0 in
  let s1 := final (stop Scenario.registered) in
  let s2 := final (stop s1) in
  poApp Scenario.registered = NULL
  ∧ poApp s1 = NULL
  ∧ since (trace (world s1)) (trace (world s2)) =
      [EvSleep 7000; EvSetServiceStatus 1000 stopped_status]
  ∧ reported (trace (world s2)) = [SERVICE_STOPPED; SERVICE_STOPPED]
  ∧ length (reported (trace (world s2))) ≠ 1%nat.
Proof.
  cbv zeta. repeat split; try (vm_compute; reflexivity).
  vm_compute. discriminate.
Qed.

(** C10. In a run of the service entry followed by any control signals,
    and in the delivery of any control signals to the handler in any
    state of the process, every state passed to [SetServiceStatus] is
    [SERVICE_RUNNING] or [SERVICE_STOPPED]; [SERVICE_START_PENDING] and
    [SERVICE_STOP_PENDING] are reported at no point, so neither around
    the sleep before the child is created nor around the sleep after it
    is destroyed.  A run that reaches undefined behaviour is covered up
    to that point. *)
Theorem only_Running_and_Stopped_are_reported {os : OS}
    (cs : list DWORD) (s : Process) :
  (∃ evs,
     trace (world (final (service_run cs s))) = trace (world s) ++ evs
     ∧ Forall (λ st, st = SERVICE_RUNNING ∨ st = SERVICE_STOPPED) (reported evs)
     ∧ (SERVICE_START_PENDING ∉ reported evs)
     ∧ (SERVICE_STOP_PENDING ∉ reported evs))
  ∧ (∃ evs,
       trace (world (final (deliver cs s))) = trace (world s) ++ evs
       ∧ Forall (λ st, st = SERVICE_RUNNING ∨ st = SERVICE_STOPPED)
                (reported evs)
       ∧ (SERVICE_START_PENDING ∉ reported evs)
       ∧ (SERVICE_STOP_PENDING ∉ reported evs)).
Proof.
  assert (Hrun : svc_emits running_or_stopped (service_run cs)).
  { unfold service_run. apply svc_emits_bind;
      [apply ServiceEntry_emits|intros _; apply deliver_emits]. }
  split.
  - destruct (Hrun s) as (evs & Htrace & Hall). exists evs.
    apply reported_running_or_stopped in Hall.
    split; [exact Htrace|]. split; [exact Hall|].
    apply pending_not_reported, Hall.
  - destruct (deliver_emits cs s) as (evs & Htrace & Hall). exists evs.
    apply reported_running_or_stopped in Hall.
    split; [exact Htrace|]. split; [exact Hall|].
    apply pending_not_reported, Hall.
Qed.

(** ** The constructor *)

Lemma CIOPipe_ctor_fields {os : OS} kind mode w :
  installs mode = true →
  let (p, w1) := CIOPipe_ctor kind mode w in
  m_dwHandleType p = kind
  ∧ m_hSaved p = get_std kind (std w)
  ∧ std w1 = set_std kind (m_hClose p) (std w).
Proof.
  unfold CIOPipe_ctor, installs. run_calls.
  destruct (Ascii.eqb mode "r"); [|destruct (Ascii.eqb mode "w")];
    [| |discriminate]; intros _; split_oracle; repeat split.
Qed.

Lemma make_pipes_std {os : OS} w :
  let '(oStdIn, oStdOut, oStdErr, w1) := make_pipes w in
  m_dwHandleType oStdIn = STD_INPUT_HANDLE
  ∧ m_dwHandleType oStdOut = STD_OUTPUT_HANDLE
  ∧ m_dwHandleType oStdErr = STD_ERROR_HANDLE
  ∧ set_std STD_INPUT_HANDLE (m_hSaved oStdIn)
      (set_std STD_OUTPUT_HANDLE (m_hSaved oStdOut)
         (set_std STD_ERROR_HANDLE (m_hSaved oStdErr) (std w1))) = std w.
Proof.
  unfold make_pipes, mbind, OSM_bind, mret, OSM_ret.
  pose proof (CIOPipe_ctor_fields STD_INPUT_HANDLE "w" w eq_refl) as H1.
  destruct (CIOPipe_ctor STD_INPUT_HANDLE "w" w) as [i w1].
  pose proof (CIOPipe_ctor_fields STD_OUTPUT_HANDLE "r" w1 eq_refl) as H2.
  destruct (CIOPipe_ctor STD_OUTPUT_HANDLE "r" w1) as [o w2].
  pose proof (CIOPipe_ctor_fields STD_ERROR_HANDLE "r" w2 eq_refl) as H3.
  destruct (CIOPipe_ctor STD_ERROR_HANDLE "r" w2) as [e w3].
  destruct H1 as (T1 & S1 & W1), H2 as (T2 & S2 & W2), H3 as (T3 & S3 & W3).
  repeat split; try assumption.
  rewrite S1, S2, S3, W3, W2, W1. destruct (std w) as [a b c]. reflexivity.
Qed.

(** C7. When the [CreateProcess] call of the constructor fails, the
    constructor still returns an object: its process handle is
    [INVALID_HANDLE_VALUE], its three pipe handles are the parent-side
    ends of the three pipes (the write end of the stdin pipe, the read
    ends of the stdout and stderr pipes), its flag is not set.  After
    the failed call the constructor only destroys the three pipe
    objects: it restores the three standard handles and closes the
    three child-side ends, and no other handle. *)
Theorem constructor_survives_spawn_failure {os : OS}
    (cmd : string) (ms : DWORD) (w : World) :
  let pipes := (make_pipes w).1 in
  let w1 := (make_pipes w).2 in
  let oStdIn := pipes.1.1 in
  let oStdOut := pipes.1.2 in
  let oStdErr := pipes.2 in
  let call := EvCreateProcess cmd true CREATE_NEW_CONSOLE
                (startup_info oStdIn oStdOut oStdErr) in
  os_CreateProcess (trace w1 ++ [call]) = false →
  CSatelliteProcess_ctor cmd ms w =
    ({| m_strCommandLine := cmd;
        m_shpoImpl := {| m_hStdIn := m_hWrite oStdIn;
                         m_hStdOut := m_hRead oStdOut;
                         m_hStdErr := m_hRead oStdErr;
                         m_hProcess := INVALID_HANDLE_VALUE |};
        m_boolCompleted := false;
        m_ulRetCode := os_indeterminate (trace w);
        m_ulDestructorWaitMs := ms |},
     {| std := std w;
        open_handles :=
          handles_del (m_hClose oStdIn)
            (handles_del (m_hClose oStdOut)
               (handles_del (m_hClose oStdErr) (open_handles w1)));
        last_error := last_error w1;
        trace := trace w1 ++
          [call;
           EvSetStdHandle STD_ERROR_HANDLE (m_hSaved oStdErr);
           EvCloseHandle (m_hClose oStdErr);
           EvSetStdHandle STD_OUTPUT_HANDLE (m_hSaved oStdOut);
           EvCloseHandle (m_hClose oStdOut);
           EvSetStdHandle STD_INPUT_HANDLE (m_hSaved oStdIn);
           EvCloseHandle (m_hClose oStdIn)] |}).
Proof.
  intros pipes w1 oStdIn oStdOut oStdErr call Hfail.
  subst pipes w1 oStdIn oStdOut oStdErr call.
  pose proof (make_pipes_std w) as Hstd.
  unfold CSatelliteProcess_ctor.
  unfold mbind at 1 2, OSM_bind, ask.
  destruct (make_pipes w) as [[[i o] e] w1]. simpl in Hfail |- *.
  destruct Hstd as (Ti & To & Te & Hstd).
  unfold CreateProcess, mbind, OSM_bind, log, ask. simpl.
  rewrite Hfail. unfold mret, OSM_ret, CIOPipe_dtor. run_calls.
  rewrite Ti, To, Te, Hstd, <- !app_assoc. reflexivity.
Qed.

Lemma CSatelliteProcess_ctor_fields {os : OS} cmd ms w :
  let (obj, _) := CSatelliteProcess_ctor cmd ms w in
  m_strCommandLine obj = cmd
  ∧ m_boolCompleted obj = false
  ∧ m_ulDestructorWaitMs obj = ms.
Proof.
  unfold CSatelliteProcess_ctor. unfold mbind at 1 2, OSM_bind, ask.
  destruct (make_pipes w) as [[[i o] e] w1].
  unfold mbind at 1, OSM_bind.
  destruct (CreateProcess _ _ _ _ w1) as [[[hp ht]|] w2];
    unfold CIOPipe_dtor; run_calls; repeat split.
Qed.

(** ** The start transition *)

Lemma reported_app t1 t2 : reported (t1 ++ t2) = reported t1 ++ reported t2.
Proof. unfold reported. apply omap_app. Qed.

Lemma reported_not_a_report evs :
  forallb not_a_report evs = true → reported evs = [].
Proof.
  induction evs as [|e evs IH]; [reflexivity|]. simpl.
  intros [He Hevs]%andb_true_iff. unfold reported in *.
  destruct e; simpl; try (apply IH, Hevs). discriminate.
Qed.

#[local] Arguments CSatelliteProcess_ctor : simpl never.

Lemma ServiceStart_run {os : OS} s :
  ServiceStart s =
    let w1 := (Sleep 7000 (world s)).2 in
    if os_new (trace w1) then
      let (obj, w2) := CSatelliteProcess_ctor (strCommandLine s) 0 w1 in
      let a := fresh (dom (heap s)) in
      Done true (with_poApp (Addr a)
                   (with_heap (<[a := obj]> (heap s)) (with_world w2 s)))
    else Thrown (with_world w1 s).
Proof.
  unfold ServiceStart, new_CSatelliteProcess. run_service.
  destruct (os_new _); [|reflexivity]. run_service.
  destruct (CSatelliteProcess_ctor _ _ _) as [obj w2]. reflexivity.
Qed.

#[local] Arguments ServiceStart : simpl never.

(** What [ServiceEntry] reports.  When the registration yields no
    status handle the start transition is not invoked and nothing is
    reported.  Otherwise [ServiceStart] is invoked: when the
    new-expression returns, [poApp] points to a newly constructed
    object with its flag unset and a destructor budget of 0 ms,
    [ServiceStart] returns true and [SERVICE_RUNNING] is reported;
    when the allocation fails, [std::bad_alloc] leaves [ServiceStart]
    and [ServiceEntry] and nothing is reported.  [ServiceStart] never
    returns false, and [ServiceEntry] reports [SERVICE_STOPPED] on no
    path. *)
Lemma ServiceEntry_reports_Running_or_nothing {os : OS} (s : Process) :
  let t1 := trace (world s) ++
            [EvRegisterServiceCtrlHandlerEx
               (SERVICE_SHORT_NAME_PREFIX ++ strCage s)] in
  let h := os_RegisterServiceCtrlHandlerEx t1 in
  let s' := final (ServiceEntry s) in
  let said := reported (since (trace (world s)) (trace (world s'))) in
  hServiceStatus s' = h
  ∧ if h =? 0 then
      ServiceEntry s = Done tt s' ∧ said = []
      ∧ poApp s' = poApp s ∧ heap s' = heap s
    else if os_new (t1 ++ [EvSleep 7000]) then
      ServiceEntry s = Done tt s' ∧ said = [SERVICE_RUNNING]
      ∧ ∃ a obj, poApp s' = Addr a
                 ∧ heap s !! a = None
                 ∧ heap s' !! a = Some obj
                 ∧ m_boolCompleted obj = false
                 ∧ m_ulDestructorWaitMs obj = 0
    else
      ServiceEntry s = Thrown s' ∧ said = []
      ∧ poApp s' = poApp s ∧ heap s' = heap s.
Proof.
  cbv zeta. unfold ServiceEntry. run_service.
  set (t1 := trace (world s) ++ [EvRegisterServiceCtrlHandlerEx _]).
  destruct (os_RegisterServiceCtrlHandlerEx t1 =? 0) eqn:Hreg; simpl.
  - split; [reflexivity|]. subst t1. rewrite since_app. repeat split.
  - rewrite ServiceStart_run. simpl.
    destruct (os_new _).
    + pose proof (CSatelliteProcess_ctor_fields (strCommandLine s) 0
        {| std := std (world s); open_handles := open_handles (world s);
           last_error := last_error (world s);
           trace := t1 ++ [EvSleep 7000] |}) as Hfields.
      pose proof (CSatelliteProcess_ctor_emits (strCommandLine s) 0
        {| std := std (world s); open_handles := open_handles (world s);
           last_error := last_error (world s);
           trace := t1 ++ [EvSleep 7000] |}) as Hemits.
      destruct (CSatelliteProcess_ctor _ _ _) as [obj w2].
      destruct Hfields as (_ & Hflag & Hbudget).
      destruct Hemits as (evs & Htrace & Hevs). simpl in Htrace.
      run_service. split; [reflexivity|]. split; [reflexivity|].
      rewrite Htrace. subst t1. rewrite <- !app_assoc, since_app. simpl.
      rewrite reported_app, (reported_not_a_report _ Hevs).
      split; [reflexivity|].
      exists (fresh (dom (heap s))), obj. rewrite lookup_insert_eq.
      repeat split; try assumption. apply not_elem_of_dom, is_fresh.
    + simpl. split; [reflexivity|]. split; [reflexivity|].
      subst t1. rewrite <- !app_assoc, since_app. repeat split.
Qed.

(** C8, where the code departs from it.  The allocation of the
    new-expression in [ServiceStart] fails: the exception leaves
    [ServiceStart] and [ServiceEntry] after the registration and the
    sleep, [poApp] is still null, and nothing has been reported,
    neither Stopped nor Running. *)
Theorem ServiceEntry_allocation_failure :
  match ServiceEntry (os := Scenario.no_memory) Scenario.launched with
  | Thrown s =>
      hServiceStatus s = 1000
      ∧ poApp s = NULL
      ∧ trace (world s) =
          [EvRegisterServiceCtrlHandlerEx "pmnc3k_cage"; EvSleep 7000]
      ∧ reported (trace (world s)) = []
  | _ => False
  end.
Proof. vm_compute. repeat split. Qed.

(** ** The handle table *)

Lemma fresh_handle_not_elem (X : gset Z) : fresh_handle X ∉ X.
Proof.
  unfold fresh_handle. intros Hin.
  apply (is_fresh (X ∪ {[INVALID_HANDLE_VALUE; 0]})).
  apply elem_of_union. left. exact Hin.
Qed.

Lemma handles_add_same h (X : gset Z) : h ∈ handles_add h X.
Proof. unfold handles_add. apply elem_of_union. left. apply elem_of_singleton. reflexivity. Qed.

Lemma handles_add_other h h' (X : gset Z) : h ∈ X → h ∈ handles_add h' X.
Proof. unfold handles_add. intros Hin. apply elem_of_union. right. exact Hin. Qed.

Lemma handles_del_other h h' (X : gset Z) :
  h ∈ X → h ≠ h' → h ∈ handles_del h' X.
Proof.
  unfold handles_del. intros Hin Hne. apply elem_of_difference.
  split; [exact Hin|]. intros Heq%elem_of_singleton. contradiction.
Qed.

Lemma open_ne_fresh h (X : gset Z) : h ∈ X → h ≠ fresh_handle X.
Proof. intros Hin Heq. subst h. exact (fresh_handle_not_elem X Hin). Qed.

Lemma fresh_ne_open h (X : gset Z) : h ∈ X → fresh_handle X ≠ h.
Proof. intros Hin Heq. subst h. exact (fresh_handle_not_elem X Hin). Qed.

(** Membership in a handle table built from [handles_add] and
    [handles_del], and the inequalities of handles it needs. *)
Ltac handle_open :=
  lazymatch goal with
  | |- ?h ∈ handles_add ?h _ => apply handles_add_same
  | |- _ ∈ handles_add _ _ => apply handles_add_other; handle_open
  | |- _ ∈ handles_del _ _ =>
      apply handles_del_other; [handle_open|handle_distinct]
  end
with handle_distinct :=
  first [apply open_ne_fresh; handle_open|apply fresh_ne_open; handle_open].

(** When [CreatePipe] and [DuplicateHandle] succeed, the three handles
    that the constructor keeps are open after the three pipe objects
    have been destroyed: the destructors close other handles. *)
Lemma parent_ends_stay_open {os : OS} w :
  (∀ t, os_CreatePipe t = true) →
  (∀ t, os_DuplicateHandle t = true) →
  let '(oStdIn, oStdOut, oStdErr, w1) := make_pipes w in
  let remaining :=
    handles_del (m_hClose oStdIn)
      (handles_del (m_hClose oStdOut)
         (handles_del (m_hClose oStdErr) (open_handles w1))) in
  m_hWrite oStdIn ∈ remaining
  ∧ m_hRead oStdOut ∈ remaining
  ∧ m_hRead oStdErr ∈ remaining.
Proof.
  intros Hpipe Hdup. unfold make_pipes, CIOPipe_ctor. run_calls.
  repeat (first [rewrite Hpipe|rewrite Hdup]; simpl).
  repeat split; handle_open.
Qed.

(** ** A second stop after a successful start *)

Lemma ServiceHandlerEx_with_instance {os : OS} c et ed ctx s a obj :
  is_stop_control c = true →
  poApp s = Addr a →
  heap s !! a = Some obj →
  let wait := EvWaitForSingleObject (m_hProcess (m_shpoImpl obj))
                (m_ulDestructorWaitMs obj) in
  let waited := os_WaitForSingleObject (trace (world s) ++ [wait]) in
  ServiceHandlerEx c et ed ctx s =
    if ends_itself obj waited
    then Exited (after_calls
                   [wait; EvTerminateProcess (m_hProcess (m_shpoImpl obj)) 0]
                   s)
    else Done NO_ERROR
           (after_calls [EvSleep 7000;
                         EvSetServiceStatus (hServiceStatus s) stopped_status]
              (with_heap (delete a (heap s))
                 (with_world (CSatelliteProcess_dtor obj (world s)).2 s))).
Proof.
  intros Hc Hp Hobj. cbv zeta. unfold ServiceHandlerEx, is_stop_control in *.
  rewrite Hc. unfold ServiceStop, ServiceSignalStatus, delete_CSatelliteProcess.
  run_service. rewrite Hp. simpl. rewrite Hobj.
  pose proof (lift_dtor obj s) as Hd. cbv zeta in Hd. rewrite Hd. clear Hd.
  destruct (ends_itself obj _); [reflexivity|].
  destruct (CSatelliteProcess_dtor obj (world s)) as [[] w1]. run_service.
  unfold after_calls, with_world, with_heap. simpl.
  rewrite <- app_assoc. reflexivity.
Qed.

Lemma ServiceHandlerEx_dangling {os : OS} c et ed ctx s a :
  is_stop_control c = true →
  poApp s = Addr a →
  heap s !! a = None →
  ServiceHandlerEx c et ed ctx s = Undefined s.
Proof.
  intros Hc Hp Hobj. unfold ServiceHandlerEx, is_stop_control in *.
  rewrite Hc. unfold ServiceStop, ServiceSignalStatus, delete_CSatelliteProcess.
  run_service. rewrite Hp. simpl. rewrite Hobj. reflexivity.
Qed.

Lemma ends_itself_child this waited :
  m_hProcess (m_shpoImpl this) ≠ INVALID_HANDLE_VALUE →
  ends_itself this waited = false.
Proof.
  intros Hh%Z.eqb_neq. unfold ends_itself. rewrite Hh.
  apply andb_false_r.
Qed.

(** [ServiceStop] deletes the object and leaves [poApp] pointing to it:
    a stop control delivered to a service that owns its child returns,
    and a second one deletes the same object again. *)
Lemma second_stop_deletes_twice {os : OS} s a obj :
  poApp s = Addr a →
  heap s !! a = Some obj →
  m_hProcess (m_shpoImpl obj) ≠ INVALID_HANDLE_VALUE →
  ∃ s1,
    ServiceHandlerEx SERVICE_CONTROL_STOP 0 0 0 s = Done NO_ERROR s1
    ∧ poApp s1 = Addr a
    ∧ heap s1 !! a = None
    ∧ ServiceHandlerEx SERVICE_CONTROL_STOP 0 0 0 s1 = Undefined s1.
Proof.
  intros Hp Hobj Hchild.
  pose proof (ServiceHandlerEx_with_instance SERVICE_CONTROL_STOP 0 0 0
                s a obj eq_refl Hp Hobj) as Hrun.
  cbv zeta in Hrun. rewrite (ends_itself_child _ _ Hchild) in Hrun.
  eexists. split; [exact Hrun|]. split; [exact Hp|].
  assert (Hgone : delete a (heap s) !! a = None) by apply lookup_delete_eq.
  split; [exact Hgone|].
  apply (ServiceHandlerEx_dangling _ _ _ _ _ a);
    [reflexivity|exact Hp|exact Hgone].
Qed.

(** The same on a concrete run: the service starts its child, is
    stopped, and is stopped again. *)
Lemma second_stop_after_start_is_undefined :
  match service_run (os := Scenario.cooperative)
          [SERVICE_CONTROL_STOP; SERVICE_CONTROL_STOP]
          Scenario.launched with
  | Undefined s =>
      poApp s = Addr 1 ∧ heap s !! 1%positive = None
      ∧ reported (trace (world s)) = [SERVICE_RUNNING; SERVICE_STOPPED]
  | _ => False
  end.
Proof. vm_compute. repeat split. Qed.

(** ** The scenarios *)

Lemma fresh_child_is_constructed :
  (CSatelliteProcess_ctor (os := Scenario.cooperative)
     "python.exe startup.py cage" 0 Scenario.console).1 = Scenario.fresh_child.
Proof. vm_compute. reflexivity. Qed.

(** On [Scenario.console], with a [CreateProcess] that fails: the object
    holds the sentinel and the three parent-side ends, which are open
    when the constructor returns, and the standard handles are back. *)
Lemma constructor_survives_spawn_failure_on_console :
  let r := CSatelliteProcess_ctor (os := Scenario.no_spawn)
             "python.exe startup.py cage" 0 Scenario.console in
  (∀ t, os_CreateProcess (OS := Scenario.no_spawn) t = false)
  ∧ m_shpoImpl r.1 =
    {| m_hStdIn := 14; m_hStdOut := 17; m_hStdErr := 20;
       m_hProcess := INVALID_HANDLE_VALUE |}
  ∧ m_boolCompleted r.1 = false
  ∧ std r.2 = std Scenario.console
  ∧ elements (open_handles r.2) = [11; 7; 17; 3; 14; 20].
Proof.
  cbv zeta.
  rewrite (@constructor_survives_spawn_failure Scenario.no_spawn
             "python.exe startup.py cage" 0 Scenario.console eq_refl).
  split; [reflexivity|]. vm_compute. repeat split.
Defined.

(** * Further properties of the code *)

(** ** The constructor when the child is created *)

Lemma CIOPipe_ctor_close_end {os : OS} kind mode w :
  let (p, _) := CIOPipe_ctor kind mode w in
  (Ascii.eqb mode "r" = true → m_hClose p = m_hWrite p)
  ∧ (Ascii.eqb mode "r" = false → Ascii.eqb mode "w" = true →
     m_hClose p = m_hRead p).
Proof.
  unfold CIOPipe_ctor. run_calls.
  destruct (Ascii.eqb mode "r"); [|destruct (Ascii.eqb mode "w")];
    split_oracle; split; intros; try discriminate; reflexivity.
Qed.

Lemma make_pipes_installs {os : OS} w :
  let '(oStdIn, oStdOut, oStdErr, w1) := make_pipes w in
  std w1 = {| StandardInput := m_hRead oStdIn;
              StandardOutput := m_hWrite oStdOut;
              StandardError := m_hWrite oStdErr |}.
Proof.
  unfold make_pipes, mbind, OSM_bind, mret, OSM_ret.
  pose proof (CIOPipe_ctor_fields STD_INPUT_HANDLE "w" w eq_refl) as H1.
  pose proof (CIOPipe_ctor_close_end STD_INPUT_HANDLE "w" w) as C1.
  destruct (CIOPipe_ctor STD_INPUT_HANDLE "w" w) as [i w1].
  pose proof (CIOPipe_ctor_fields STD_OUTPUT_HANDLE "r" w1 eq_refl) as H2.
  pose proof (CIOPipe_ctor_close_end STD_OUTPUT_HANDLE "r" w1) as C2.
  destruct (CIOPipe_ctor STD_OUTPUT_HANDLE "r" w1) as [o w2].
  pose proof (CIOPipe_ctor_fields STD_ERROR_HANDLE "r" w2 eq_refl) as H3.
  pose proof (CIOPipe_ctor_close_end STD_ERROR_HANDLE "r" w2) as C3.
  destruct (CIOPipe_ctor STD_ERROR_HANDLE "r" w2) as [e w3].
  destruct H1 as (_ & _ & W1), H2 as (_ & _ & W2), H3 as (_ & _ & W3).
  destruct C1 as [_ C1], C2 as [C2 _], C3 as [C3 _].
  rewrite W3, W2, W1, (C1 eq_refl eq_refl), (C2 eq_refl), (C3 eq_refl).
  destruct (std w) as [a b c]. reflexivity.
Qed.

Lemma CSatelliteProcess_ctor_run {os : OS} cmd ms w :
  let pipes := (make_pipes w).1 in
  let w1 := (make_pipes w).2 in
  let oStdIn := pipes.1.1 in
  let oStdOut := pipes.1.2 in
  let oStdErr := pipes.2 in
  let call := EvCreateProcess cmd true CREATE_NEW_CONSOLE
                (startup_info oStdIn oStdOut oStdErr) in
  let restore :=
    [EvSetStdHandle STD_ERROR_HANDLE (m_hSaved oStdErr);
     EvCloseHandle (m_hClose oStdErr);
     EvSetStdHandle STD_OUTPUT_HANDLE (m_hSaved oStdOut);
     EvCloseHandle (m_hClose oStdOut);
     EvSetStdHandle STD_INPUT_HANDLE (m_hSaved oStdIn);
     EvCloseHandle (m_hClose oStdIn)] in
  let hProcess := fresh_handle (open_handles w1) in
  let hThread := fresh_handle (handles_add hProcess (open_handles w1)) in
  let spawned := os_CreateProcess (trace w1 ++ [call]) in
  CSatelliteProcess_ctor cmd ms w =
    ({| m_strCommandLine := cmd;
        m_shpoImpl :=
          {| m_hStdIn := m_hWrite oStdIn;
             m_hStdOut := m_hRead oStdOut;
             m_hStdErr := m_hRead oStdErr;
             m_hProcess := if spawned then hProcess
                           else INVALID_HANDLE_VALUE |};
        m_boolCompleted := false;
        m_ulRetCode := os_indeterminate (trace w);
        m_ulDestructorWaitMs := ms |},
     {| std := std w;
        open_handles :=
          handles_del (m_hClose oStdIn)
            (handles_del (m_hClose oStdOut)
               (handles_del (m_hClose oStdErr)
                  (if spawned
                   then handles_del hThread
                          (handles_add hThread
                             (handles_add hProcess (open_handles w1)))
                   else open_handles w1)));
        last_error := last_error w1;
        trace := trace w1 ++ [call]
                 ++ (if spawned then [EvCloseHandle hThread] else [])
                 ++ restore |}).
Proof.
  intros pipes w1 oStdIn oStdOut oStdErr call restore hProcess hThread spawned.
  subst pipes w1 oStdIn oStdOut oStdErr call restore hProcess hThread spawned.
  pose proof (make_pipes_std w) as Hstd.
  unfold CSatelliteProcess_ctor.
  unfold mbind at 1 2, OSM_bind, ask.
  destruct (make_pipes w) as [[[i o] e] w1]. simpl.
  destruct Hstd as (Ti & To & Te & Hstd).
  unfold CreateProcess, mbind, OSM_bind, log, ask. simpl.
  destruct (os_CreateProcess _);
    unfold mret, OSM_ret, CIOPipe_dtor; run_calls;
    rewrite Ti, To, Te, Hstd, <- !app_assoc; reflexivity.
Qed.

Lemma CSatelliteProcess_ctor_std {os : OS} cmd ms w :
  std (CSatelliteProcess_ctor cmd ms w).2 = std w.
Proof.
  pose proof (CSatelliteProcess_ctor_run cmd ms w) as Hrun.
  cbv zeta in Hrun. rewrite Hrun. reflexivity.
Qed.

Lemma spawns_app t1 t2 : spawns (t1 ++ t2) = spawns t1 ++ spawns t2.
Proof. unfold spawns. apply omap_app. Qed.

Lemma spawns_not_a_spawn evs :
  forallb not_a_spawn evs = true → spawns evs = [].
Proof.
  induction evs as [|e evs IH]; [reflexivity|]. simpl.
  intros [He Hevs]%andb_true_iff. unfold spawns in *.
  destruct e; simpl; try (apply IH, Hevs). discriminate.
Qed.

Lemma make_pipes_emits_no_spawn {os : OS} : emits not_a_spawn make_pipes.
Proof.
  unfold make_pipes, CIOPipe_ctor, InitializeSecurityDescriptor,
    SetSecurityDescriptorDacl, CreatePipe, GetStdHandle, DuplicateHandle,
    CloseHandle, SetStdHandle.
  repeat emits_step.
Qed.

(** X1. Whatever fails, the constructor calls [CreateProcess] exactly
    once, with the command line it was given, handle inheritance on and
    [CREATE_NEW_CONSOLE]; at that call the three standard-handle slots
    of the parent hold exactly the three handles passed in
    [STARTUPINFO], the child-side ends of the three pipes; and when the
    constructor returns the three slots are what they were before it
    started. *)
Theorem constructor_spawns_once_on_pipe_ends {os : OS}
    (cmd : string) (ms : DWORD) (w : World) :
  let pipes := (make_pipes w).1 in
  let w1 := (make_pipes w).2 in
  let si := startup_info pipes.1.1 pipes.1.2 pipes.2 in
  let w' := (CSatelliteProcess_ctor cmd ms w).2 in
  spawns (since (trace w) (trace w')) = [(cmd, true, CREATE_NEW_CONSOLE, si)]
  ∧ (∃ rest,
       trace w' = trace w1 ++ EvCreateProcess cmd true CREATE_NEW_CONSOLE si
                              :: rest)
  ∧ std w1 = {| StandardInput := hStdInput si;
                StandardOutput := hStdOutput si;
                StandardError := hStdError si |}
  ∧ std w' = std w.
Proof.
  intros pipes w1 si w'. subst pipes w1 si w'.
  rewrite CSatelliteProcess_ctor_run.
  pose proof (make_pipes_installs w) as Hinst.
  destruct (make_pipes_emits_no_spawn w) as (evs & Htrace & Hevs).
  destruct (make_pipes w) as [[[i o] e] w1]. simpl in *.
  rewrite Htrace, <- !app_assoc, since_app, spawns_app.
  rewrite (spawns_not_a_spawn _ Hevs). repeat split.
  - destruct (os_CreateProcess _); reflexivity.
  - eexists. rewrite <- !app_assoc. reflexivity.
  - exact Hinst.
Qed.

(** ** The handle table over the life of the object *)

Lemma handles_del_add_same h (X : gset Z) :
  h ∉ X → handles_del h (handles_add h X) = X.
Proof.
  unfold handles_del, handles_add. intros Hh. apply set_eq. intros x.
  rewrite elem_of_difference, elem_of_union, elem_of_singleton.
  split; [intros [[->|Hx] Hne]|intros Hx]; try done.
  split; [right; exact Hx|]. intros ->. contradiction.
Qed.

Lemma handles_del_add_other h h' (X : gset Z) :
  h ≠ h' →
  handles_del h (handles_add h' X) = handles_add h' (handles_del h X).
Proof.
  unfold handles_del, handles_add. intros Hne. apply set_eq. intros x.
  rewrite !elem_of_difference, !elem_of_union, elem_of_difference,
    !elem_of_singleton.
  split.
  - intros [[->|Hx] Hxh]; [left; reflexivity|right; split; assumption].
  - intros [->|[Hx Hxh]]; [split; [left; reflexivity|congruence]|].
    split; [right; exact Hx|exact Hxh].
Qed.

Lemma fresh_handle_not_in_subset (X Y : gset Z) :
  Y ⊆ X → fresh_handle X ∉ Y.
Proof. intros Hsub Hin. apply (fresh_handle_not_elem X), Hsub, Hin. Qed.

Lemma subseteq_handles_add h (X Y : gset Z) : Y ⊆ X → Y ⊆ handles_add h X.
Proof.
  unfold handles_add. intros Hsub x Hx. apply elem_of_union. right.
  apply Hsub, Hx.
Qed.

(** A handle allocated on a table that contains [Y] is not in [Y]. *)
Ltac handle_closed :=
  apply fresh_handle_not_in_subset;
  repeat first [reflexivity|apply subseteq_handles_add].

(** Moves every [handles_del] of a table down to the [handles_add] of
    the same handle, where the two cancel. *)
Ltac cancel_handles :=
  repeat match goal with
  | |- context [handles_del ?h (handles_add ?h ?Y)] =>
      rewrite (handles_del_add_same h Y) by handle_closed
  | |- context [handles_del ?h (handles_add ?h' ?Y)] =>
      rewrite (handles_del_add_other h h' Y) by handle_distinct
  end.

Lemma not_elem_subset h (X Y : gset Z) : h ∉ X → Y ⊆ X → h ∉ Y.
Proof. intros Hh Hsub Hin. apply Hh, Hsub, Hin. Qed.

Lemma not_elem_ne h h' (X : gset Z) : h ∉ X → h' ∈ X → h ≠ h'.
Proof. intros Hh Hin ->. contradiction. Qed.

Lemma not_elem_ne_sym h h' (X : gset Z) : h' ∉ X → h ∈ X → h ≠ h'.
Proof. intros Hh Hin <-. contradiction. Qed.

Lemma handles_add_subseteq a (X Y : gset Z) :
  a ∈ X → Y ⊆ X → handles_add a Y ⊆ X.
Proof.
  unfold handles_add. intros Ha Hsub x [->%elem_of_singleton|Hx]%elem_of_union;
    [exact Ha|apply Hsub, Hx].
Qed.

Ltac handle_subset :=
  lazymatch goal with
  | |- handles_add _ _ ⊆ _ =>
      apply handles_add_subseteq; [handle_open|handle_subset]
  | |- _ => repeat first [reflexivity|apply subseteq_handles_add]
  end.

(** The same bookkeeping from hypotheses [h ∉ X] about handles that
    were allocated on the table [X]. *)
Ltac table_ne :=
  match goal with
  | H : ?h ∉ ?X |- ?h ≠ ?h' => apply (not_elem_ne h h' X H); handle_open
  | H : ?h' ∉ ?X |- ?h ≠ ?h' => apply (not_elem_ne_sym h h' X H); handle_open
  end.

Ltac table_not_elem :=
  match goal with
  | H : ?h ∉ ?X |- ?h ∉ ?Y => apply (not_elem_subset h X Y H); handle_subset
  end.

Ltac cancel_table :=
  repeat match goal with
  | |- context [handles_del ?h (handles_add ?h ?Y)] =>
      rewrite (handles_del_add_same h Y) by table_not_elem
  | |- context [handles_del ?h (handles_add ?h' ?Y)] =>
      rewrite (handles_del_add_other h h' Y) by table_ne
  end.

Lemma fresh_handle_valid (X : gset Z) : fresh_handle X ≠ INVALID_HANDLE_VALUE.
Proof.
  unfold fresh_handle. intros Heq.
  apply (is_fresh (X ∪ {[INVALID_HANDLE_VALUE; 0]})). rewrite Heq.
  apply elem_of_union. right. apply elem_of_union. left.
  apply elem_of_singleton. reflexivity.
Qed.

(** One pipe, when [CreatePipe] and [DuplicateHandle] succeed: the
    table gains the child-side end and the parent-side duplicate, both
    new; the end that was duplicated is closed again. *)
Lemma CIOPipe_ctor_handle_table {os : OS} kind mode w :
  (∀ t, os_CreatePipe t = true) →
  (∀ t, os_DuplicateHandle t = true) →
  installs mode = true →
  let (p, w1) := CIOPipe_ctor kind mode w in
  let parent := if Ascii.eqb mode "r" then m_hRead p else m_hWrite p in
  open_handles w1 =
    handles_add parent (handles_add (m_hClose p) (open_handles w))
  ∧ (m_hClose p ∉ open_handles w)
  ∧ (parent ∉ handles_add (m_hClose p) (open_handles w))
  ∧ parent ≠ INVALID_HANDLE_VALUE.
Proof.
  intros Hpipe Hdup. unfold CIOPipe_ctor, installs. run_calls.
  destruct (Ascii.eqb mode "r"); [|destruct (Ascii.eqb mode "w")];
    [| |discriminate]; intros _;
    rewrite Hpipe; simpl; rewrite Hdup; simpl; cancel_handles;
    (split; [reflexivity|split; [|split]]);
    try apply fresh_handle_valid;
    apply fresh_handle_not_in_subset; handle_subset.
Qed.

Lemma make_pipes_handle_table {os : OS} w :
  (∀ t, os_CreatePipe t = true) →
  (∀ t, os_DuplicateHandle t = true) →
  let '(i, o, e, w1) := make_pipes w in
  let t1 := handles_add (m_hWrite i) (handles_add (m_hClose i) (open_handles w)) in
  let t2 := handles_add (m_hRead o) (handles_add (m_hClose o) t1) in
  open_handles w1 = handles_add (m_hRead e) (handles_add (m_hClose e) t2)
  ∧ (m_hClose i ∉ open_handles w)
  ∧ (m_hWrite i ∉ handles_add (m_hClose i) (open_handles w))
  ∧ (m_hClose o ∉ t1)
  ∧ (m_hRead o ∉ handles_add (m_hClose o) t1)
  ∧ (m_hClose e ∉ t2)
  ∧ (m_hRead e ∉ handles_add (m_hClose e) t2)
  ∧ m_hWrite i ≠ INVALID_HANDLE_VALUE
  ∧ m_hRead o ≠ INVALID_HANDLE_VALUE
  ∧ m_hRead e ≠ INVALID_HANDLE_VALUE.
Proof.
  intros Hpipe Hdup. unfold make_pipes, mbind, OSM_bind, mret, OSM_ret.
  pose proof (CIOPipe_ctor_handle_table STD_INPUT_HANDLE "w" w Hpipe Hdup
                eq_refl) as H1.
  destruct (CIOPipe_ctor STD_INPUT_HANDLE "w" w) as [i w1].
  pose proof (CIOPipe_ctor_handle_table STD_OUTPUT_HANDLE "r" w1 Hpipe Hdup
                eq_refl) as H2.
  destruct (CIOPipe_ctor STD_OUTPUT_HANDLE "r" w1) as [o w2].
  pose proof (CIOPipe_ctor_handle_table STD_ERROR_HANDLE "r" w2 Hpipe Hdup
                eq_refl) as H3.
  destruct (CIOPipe_ctor STD_ERROR_HANDLE "r" w2) as [e w3].
  simpl in H1, H2, H3.
  destruct H1 as (T1 & C1 & P1 & V1), H2 as (T2 & C2 & P2 & V2),
    H3 as (T3 & C3 & P3 & V3).
  rewrite T3, T2, T1. rewrite T1 in C2, P2. rewrite T2, T1 in C3, P3.
  repeat split; assumption.
Qed.

Lemma constructor_handle_table {os : OS} cmd ms w :
  (∀ t, os_CreatePipe t = true) →
  (∀ t, os_DuplicateHandle t = true) →
  (∀ t, os_CreateProcess t = true) →
  let (obj, w') := CSatelliteProcess_ctor cmd ms w in
  let impl := m_shpoImpl obj in
  open_handles w' =
    handles_add (m_hProcess impl)
      (handles_add (m_hStdErr impl)
         (handles_add (m_hStdOut impl)
            (handles_add (m_hStdIn impl) (open_handles w))))
  ∧ (m_hStdIn impl ∉ open_handles w)
  ∧ (m_hStdOut impl ∉ handles_add (m_hStdIn impl) (open_handles w))
  ∧ (m_hStdErr impl ∉
       handles_add (m_hStdOut impl)
         (handles_add (m_hStdIn impl) (open_handles w)))
  ∧ (m_hProcess impl ∉
       handles_add (m_hStdErr impl)
         (handles_add (m_hStdOut impl)
            (handles_add (m_hStdIn impl) (open_handles w))))
  ∧ Forall (λ h, h ≠ INVALID_HANDLE_VALUE)
      [m_hStdIn impl; m_hStdOut impl; m_hStdErr impl; m_hProcess impl].
Proof.
  intros Hpipe Hdup Hspawn. rewrite CSatelliteProcess_ctor_run.
  rewrite Hspawn. pose proof (make_pipes_handle_table w Hpipe Hdup) as Ht.
  destruct (make_pipes w) as [[[i o] e] w1]. simpl in *.
  destruct Ht as (T & C1 & P1 & C2 & P2 & C3 & P3 & V1 & V2 & V3).
  rewrite T.
  set (t3 := handles_add (m_hRead e) _).
  pose proof (fresh_handle_not_elem t3) as HP.
  pose proof (fresh_handle_valid t3) as HV.
  set (hP := fresh_handle t3) in *.
  pose proof (fresh_handle_not_elem (handles_add hP t3)) as HT.
  set (hT := fresh_handle (handles_add hP t3)) in *.
  clearbody hP hT. subst t3.
  cancel_table.
  repeat split; try reflexivity; try assumption; try table_not_elem.
  repeat (apply Forall_cons; split; [assumption|]). apply Forall_nil. exact I.
Qed.

Lemma ctor_then_dtor_restores {os : OS} cmd ms w :
  (∀ t, os_CreatePipe t = true) →
  (∀ t, os_DuplicateHandle t = true) →
  (∀ t, os_CreateProcess t = true) →
  let (obj, w1) := CSatelliteProcess_ctor cmd ms w in
  let (_, w2) := CSatelliteProcess_dtor obj w1 in
  open_handles w2 = open_handles w ∧ std w2 = std w
  ∧ m_hProcess (m_shpoImpl obj) ≠ INVALID_HANDLE_VALUE.
Proof.
  intros Hpipe Hdup Hspawn.
  pose proof (constructor_handle_table cmd ms w Hpipe Hdup Hspawn) as Ht.
  pose proof (CSatelliteProcess_ctor_std cmd ms w) as Hstd.
  destruct (CSatelliteProcess_ctor cmd ms w) as [obj w1]. simpl in Ht, Hstd.
  rewrite CSatelliteProcess_dtor_run. simpl.
  destruct Ht as (T & Hin & Hout & Herr & Hproc & Hvalid).
  set (hIn := m_hStdIn (m_shpoImpl obj)) in *.
  set (hOut := m_hStdOut (m_shpoImpl obj)) in *.
  set (hErr := m_hStdErr (m_shpoImpl obj)) in *.
  set (hP := m_hProcess (m_shpoImpl obj)) in *.
  assert (Hio : hIn ≠ hOut) by (symmetry; table_ne).
  assert (Hie : hIn ≠ hErr) by (symmetry; table_ne).
  assert (Hip : hIn ≠ hP) by (symmetry; table_ne).
  assert (Hoe : hOut ≠ hErr) by (symmetry; table_ne).
  assert (Hop : hOut ≠ hP) by (symmetry; table_ne).
  assert (Hep : hErr ≠ hP) by (symmetry; table_ne).
  split; [|split; [exact Hstd|]].
  - rewrite T. cancel_table. reflexivity.
  - rewrite Forall_forall in Hvalid. apply Hvalid.
    rewrite !elem_of_cons. auto.
Qed.

(** X2. When [CreatePipe], [DuplicateHandle] and [CreateProcess]
    succeed, the constructor leaves exactly four more handles open than
    there were: the three parent-side pipe ends and the process handle,
    all new, distinct and valid (the child-side ends, the duplicated
    originals and the thread handle are closed again); the destructor
    closes exactly these four, so that after construction and
    destruction the handle table and the standard handles are what
    they were before. *)
Theorem construction_and_destruction_balance_handles {os : OS}
    (cmd : string) (ms : DWORD) (w : World) :
  (∀ t, os_CreatePipe t = true) →
  (∀ t, os_DuplicateHandle t = true) →
  (∀ t, os_CreateProcess t = true) →
  let (obj, w1) := CSatelliteProcess_ctor cmd ms w in
  let (_, w2) := CSatelliteProcess_dtor obj w1 in
  let impl := m_shpoImpl obj in
  let kept := [m_hStdIn impl; m_hStdOut impl; m_hStdErr impl;
               m_hProcess impl] in
  open_handles w1 = (list_to_set kept ∪ open_handles w)
  ∧ NoDup kept
  ∧ Forall (λ h, (h ∉ open_handles w) ∧ h ≠ INVALID_HANDLE_VALUE) kept
  ∧ closes (since (trace w1) (trace w2)) = kept
  ∧ open_handles w2 = open_handles w
  ∧ std w1 = std w
  ∧ std w2 = std w.
Proof.
  intros Hpipe Hdup Hspawn.
  pose proof (constructor_handle_table cmd ms w Hpipe Hdup Hspawn) as Ht.
  pose proof (CSatelliteProcess_ctor_std cmd ms w) as Hstd.
  destruct (CSatelliteProcess_ctor cmd ms w) as [obj w1]. simpl in Ht, Hstd.
  rewrite CSatelliteProcess_dtor_run. simpl.
  destruct Ht as (T & Hin & Hout & Herr & Hproc & Hvalid).
  assert (Hcloses :
    closes (since (trace w1)
              (trace w1 ++ dtor_events obj
                 (os_WaitForSingleObject
                    (trace w1 ++
                     [EvWaitForSingleObject (m_hProcess (m_shpoImpl obj))
                        (m_ulDestructorWaitMs obj)])))) =
      [m_hStdIn (m_shpoImpl obj); m_hStdOut (m_shpoImpl obj);
       m_hStdErr (m_shpoImpl obj); m_hProcess (m_shpoImpl obj)]).
  { unfold dtor_events, wait_events, impl_close_events, closes.
    rewrite since_app, omap_app.
    destruct (m_boolCompleted obj); [reflexivity|].
    destruct (_ =? WAIT_OBJECT_0); reflexivity. }
  set (hIn := m_hStdIn (m_shpoImpl obj)) in *.
  set (hOut := m_hStdOut (m_shpoImpl obj)) in *.
  set (hErr := m_hStdErr (m_shpoImpl obj)) in *.
  set (hP := m_hProcess (m_shpoImpl obj)) in *.
  assert (Hio : hIn ≠ hOut) by (symmetry; table_ne).
  assert (Hie : hIn ≠ hErr) by (symmetry; table_ne).
  assert (Hip : hIn ≠ hP) by (symmetry; table_ne).
  assert (Hoe : hOut ≠ hErr) by (symmetry; table_ne).
  assert (Hop : hOut ≠ hP) by (symmetry; table_ne).
  assert (Hep : hErr ≠ hP) by (symmetry; table_ne).
  split; [|split; [|split; [|split; [|split; [|split]]]]].
  - rewrite T. unfold handles_add. apply set_eq. intros x. simpl.
    rewrite !elem_of_union, !elem_of_singleton, elem_of_empty. tauto.
  - repeat (apply NoDup_cons; split); try apply NoDup_nil; try exact I;
      rewrite ?elem_of_cons, elem_of_nil; intuition congruence.
  - rewrite Forall_forall in Hvalid |- *. intros h Hh.
    split; [|apply Hvalid, Hh].
    rewrite !elem_of_cons, elem_of_nil in Hh.
    destruct Hh as [->|[->|[->|[->|[]]]]]; try assumption; table_not_elem.
  - exact Hcloses.
  - rewrite T. cancel_table. reflexivity.
  - exact Hstd.
  - exact Hstd.
Qed.

(** On [Scenario.console] with every call succeeding: four handles
    more after the construction, the three console handles after the
    destruction. *)
Lemma construction_and_destruction_on_console :
  let r := CSatelliteProcess_ctor (os := Scenario.cooperative)
             "python.exe startup.py cage" 0 Scenario.console in
  let r' := CSatelliteProcess_dtor (os := Scenario.cooperative) r.1 r.2 in
  (∀ t, os_CreatePipe (OS := Scenario.cooperative) t = true)
  ∧ elements (open_handles r.2) = [11; 7; 21; 17; 3; 14; 20]
  ∧ open_handles r'.2 = open_handles Scenario.console
  ∧ std r'.2 = std Scenario.console.
Proof.
  cbv zeta. split; [reflexivity|]. split; [vm_compute; reflexivity|].
  pose proof (@construction_and_destruction_balance_handles
                Scenario.cooperative "python.exe startup.py cage" 0
                Scenario.console (λ _, eq_refl) (λ _, eq_refl)
                (λ _, eq_refl)) as Hb.
  destruct (CSatelliteProcess_ctor _ _ _) as [obj w1]. cbn [fst snd].
  destruct (CSatelliteProcess_dtor obj w1) as [[] w2].
  destruct Hb as (_ & _ & _ & _ & Hopen & _ & Hstd).
  split; [exact Hopen|exact Hstd].
Defined.

(** ** Stopping a service that owns its child *)

Lemma handles_del_not_elem_other h h' (X : gset Z) :
  h ∉ X → h ∉ handles_del h' X.
Proof.
  unfold handles_del. intros Hh [Hin _]%elem_of_difference. contradiction.
Qed.

Ltac handle_gone :=
  repeat first [apply handles_del_not_elem
               |apply handles_del_not_elem_other].

(** X3. A stop or shutdown control delivered while [poApp] points to a
    live object never reaches undefined behaviour.  Unless the
    destructor ends the service, the handler first destroys the object
    (the wait with the object's budget and the termination only when
    its flag is not set; then the four [CloseHandle] calls), then
    sleeps 7000 ms, and only then reports Stopped, which is its last
    call; afterwards none of the object's four handles is open, the
    object is gone from the heap, the standard handles are untouched,
    and [poApp] still holds the address of the deleted object.  The
    destructor ends the service when the flag is not set, the wait
    does not return [WAIT_OBJECT_0] and the process handle is
    [INVALID_HANDLE_VALUE], which denotes the service itself: the
    handler then does not return, its calls are the wait and
    [TerminateProcess] on that value, nothing is closed and Stopped is
    not reported. *)
Theorem stop_destroys_then_reports {os : OS}
    (c : DWORD) (s : Process) (a : positive) (obj : CSatelliteProcess) :
  is_stop_control c = true →
  poApp s = Addr a →
  heap s !! a = Some obj →
  let impl := m_shpoImpl obj in
  let wait := EvWaitForSingleObject (m_hProcess impl)
                (m_ulDestructorWaitMs obj) in
  let waited := os_WaitForSingleObject (trace (world s) ++ [wait]) in
  if ends_itself obj waited then
    m_hProcess impl = INVALID_HANDLE_VALUE
    ∧ ServiceHandlerEx c 0 0 0 s =
        Exited (after_calls [wait; EvTerminateProcess INVALID_HANDLE_VALUE 0]
                  s)
  else
    ∃ s1,
      ServiceHandlerEx c 0 0 0 s = Done NO_ERROR s1
      ∧ trace (world s1) =
          trace (world s) ++ dtor_events obj waited
          ++ [EvSleep 7000;
              EvSetServiceStatus (hServiceStatus s) stopped_status]
      ∧ Forall (λ h, h ∉ open_handles (world s1))
          [m_hStdIn impl; m_hStdOut impl; m_hStdErr impl; m_hProcess impl]
      ∧ heap s1 = delete a (heap s)
      ∧ std (world s1) = std (world s)
      ∧ poApp s1 = Addr a.
Proof.
  intros Hc Hp Hobj impl wait waited. subst impl wait waited.
  pose proof (ServiceHandlerEx_with_instance c 0 0 0 s a obj Hc Hp Hobj)
    as Hrun.
  cbv zeta in Hrun. rewrite Hrun. clear Hrun.
  destruct (ends_itself obj _) eqn:Hends.
  - unfold ends_itself in Hends.
    apply andb_true_iff in Hends as [_ Hh%Z.eqb_eq].
    rewrite Hh. split; reflexivity.
  - eexists. split; [reflexivity|].
    rewrite CSatelliteProcess_dtor_run. simpl.
    split; [rewrite <- app_assoc; reflexivity|].
    split; [|repeat split; exact Hp].
    repeat (apply Forall_cons; split); try apply Forall_nil; try exact I;
      handle_gone.
Qed.

(** The running service of [Scenario2.running] owns the object of
    [Scenario.fresh_child] at address 1; a stop control destroys it and
    then reports. *)
Lemma stop_destroys_then_reports_running :
  poApp Scenario2.running = Addr 1
  ∧ heap Scenario2.running !! 1%positive = Some Scenario.fresh_child
  ∧ since (trace (world Scenario2.running))
      (trace (world (final (ServiceHandlerEx (os := Scenario.cooperative)
                              SERVICE_CONTROL_STOP 0 0 0 Scenario2.running))))
    = [EvWaitForSingleObject 21 0; EvGetExitCodeProcess 21;
       EvCloseHandle 14; EvCloseHandle 17; EvCloseHandle 20; EvCloseHandle 21;
       EvSleep 7000; EvSetServiceStatus 1000 stopped_status].
Proof.
  assert (Hp : poApp Scenario2.running = Addr 1)
    by (vm_compute; reflexivity).
  assert (Hobj : heap Scenario2.running !! 1%positive
                 = Some Scenario.fresh_child) by (vm_compute; reflexivity).
  split; [exact Hp|]. split; [exact Hobj|].
  pose proof (@stop_destroys_then_reports Scenario.cooperative
                SERVICE_CONTROL_STOP Scenario2.running 1
                Scenario.fresh_child eq_refl Hp Hobj) as Hstop.
  cbv zeta in Hstop.
  destruct (ends_itself Scenario.fresh_child _) eqn:Hends;
    [vm_compute in Hends; discriminate|].
  destruct Hstop as (s1 & Hrun & Htrace & _).
  rewrite Hrun. cbn [final]. rewrite Htrace, since_app.
  vm_compute. reflexivity.
Defined.

(** ** A whole start and stop *)

Lemma ServiceEntry_started {os : OS} s :
  let name := (SERVICE_SHORT_NAME_PREFIX ++ strCage s)%string in
  let t1 := trace (world s) ++ [EvRegisterServiceCtrlHandlerEx name] in
  let h := os_RegisterServiceCtrlHandlerEx t1 in
  let w1 := {| std := std (world s); open_handles := open_handles (world s);
               last_error := last_error (world s);
               trace := t1 ++ [EvSleep 7000] |} in
  let a := fresh (dom (heap s)) in
  h ≠ 0 →
  os_new (t1 ++ [EvSleep 7000]) = true →
  ServiceEntry s =
    Done tt
      (after_calls [EvSetServiceStatus h running_status]
         (with_poApp (Addr a)
            (with_heap
               (<[a := (CSatelliteProcess_ctor (strCommandLine s) 0 w1).1]>
                  (heap s))
               (with_world (CSatelliteProcess_ctor (strCommandLine s) 0 w1).2
                  (with_hServiceStatus h s))))).
Proof.
  intros name t1 h w1 a Hreg Hnew. subst name t1 h w1 a.
  unfold ServiceEntry. run_service.
  apply Z.eqb_neq in Hreg. rewrite Hreg. simpl.
  rewrite ServiceStart_run. simpl. rewrite Hnew.
  destruct (CSatelliteProcess_ctor _ _ _) as [obj w2]. run_service.
  unfold after_calls, with_world, with_heap, with_poApp. simpl. reflexivity.
Qed.

Lemma reported_dtor_events this waited :
  reported (dtor_events this waited) = [].
Proof.
  unfold dtor_events, wait_events, impl_close_events.
  destruct (m_boolCompleted this); [reflexivity|].
  destruct (waited =? WAIT_OBJECT_0); reflexivity.
Qed.

(** X4. When the registration, the allocation, [CreatePipe],
    [DuplicateHandle] and [CreateProcess] all succeed, the service entry
    followed by one stop or shutdown control returns normally, reports
    Running and then Stopped and nothing else, and leaves the handle
    table, the standard handles and the heap exactly as they were when
    the entry was called: no handle of the child outlives the stop.
    [poApp] is left pointing at the deleted object. *)
Theorem start_then_stop_leaves_no_handle {os : OS} (c : DWORD) (s : Process) :
  (∀ t, os_RegisterServiceCtrlHandlerEx t ≠ 0) →
  (∀ t, os_new t = true) →
  (∀ t, os_CreatePipe t = true) →
  (∀ t, os_DuplicateHandle t = true) →
  (∀ t, os_CreateProcess t = true) →
  is_stop_control c = true →
  ∃ s',
    service_run [c] s = Done tt s'
    ∧ reported (since (trace (world s)) (trace (world s'))) =
        [SERVICE_RUNNING; SERVICE_STOPPED]
    ∧ open_handles (world s') = open_handles (world s)
    ∧ std (world s') = std (world s)
    ∧ heap s' = heap s
    ∧ poApp s' = Addr (fresh (dom (heap s)))
    ∧ heap s' !! fresh (dom (heap s)) = None.
Proof.
  intros Hreg Hnew Hpipe Hdup Hspawn Hc.
  unfold service_run. unfold mbind at 1, SvcM_bind.
  rewrite ServiceEntry_started by auto.
  set (w1 := {| std := std (world s); trace := _ |}).
  pose proof (ctor_then_dtor_restores
                (strCommandLine s) 0 w1 Hpipe Hdup Hspawn) as Hb.
  pose proof (CSatelliteProcess_ctor_emits (strCommandLine s) 0 w1)
    as (evs & Htrace & Hevs).
  destruct (CSatelliteProcess_ctor (strCommandLine s) 0 w1) as [obj w2].
  cbn [fst snd deliver] in *. unfold mbind, SvcM_bind.
  assert (Hchild : m_hProcess (m_shpoImpl obj) ≠ INVALID_HANDLE_VALUE)
    by (destruct (CSatelliteProcess_dtor obj w2); apply Hb).
  match goal with
  | |- context [ServiceHandlerEx c 0 0 0 ?s1] =>
      pose proof (ServiceHandlerEx_with_instance c 0 0 0 s1
                    (fresh (dom (heap s))) obj Hc eq_refl
                    (lookup_insert_eq _ _ _)) as Hstop
  end.
  cbv zeta in Hstop. rewrite (ends_itself_child _ _ Hchild) in Hstop.
  rewrite Hstop. clear Hstop.
  unfold mret, SvcM_ret. eexists. split; [reflexivity|].
  rewrite !CSatelliteProcess_dtor_run in *. simpl in *.
  destruct Hb as (Hopen & Hstd & _).
  assert (Hfresh : heap s !! fresh (dom (heap s)) = None)
    by apply not_elem_of_dom, is_fresh.
  rewrite delete_insert_id by exact Hfresh.
  repeat split; try assumption.
  rewrite Htrace. subst w1. simpl.
  rewrite <- !app_assoc, since_app.
  rewrite !reported_app, (reported_not_a_report _ Hevs),
    reported_dtor_events. reflexivity.
Qed.

(** The whole cycle on [Scenario.launched]. *)
Lemma start_then_stop_on_console :
  (∀ t, os_CreateProcess (OS := Scenario.cooperative) t = true)
  ∧ reported (trace (world (final
      (service_run (os := Scenario.cooperative) [SERVICE_CONTROL_STOP]
         Scenario.launched))))
    = [SERVICE_RUNNING; SERVICE_STOPPED]
  ∧ open_handles (world (final
      (service_run (os := Scenario.cooperative) [SERVICE_CONTROL_STOP]
         Scenario.launched)))
    = open_handles Scenario.console.
Proof.
  split; [intros t; reflexivity|].
  destruct (@start_then_stop_leaves_no_handle Scenario.cooperative
              SERVICE_CONTROL_STOP Scenario.launched)
    as (s' & Hrun & Hrep & Hopen & _).
  1-5: intros t; vm_compute; congruence.
  1: reflexivity.
  rewrite Hrun. cbn [final]. split; [|exact Hopen].
  rewrite <- Hrep. reflexivity.
Defined.

(** X5. A [CreateProcess] that fails is not noticed by the service:
    when the registration and the allocation succeed, [ServiceEntry]
    still reports Running (and nothing else), owning an object whose
    process handle is [INVALID_HANDLE_VALUE], the value that denotes
    the service itself.  A stop or shutdown control then waits on that
    value with a budget of 0 ms.  Unless that wait returns
    [WAIT_OBJECT_0], the handler calls [TerminateProcess] on the value
    and thereby ends the service: it does not return, nothing is
    closed and Stopped is not reported.  When the wait returns
    [WAIT_OBJECT_0], the handler queries the exit code of that value,
    passes it to [CloseHandle] after the three pipe ends, sleeps and
    reports Stopped. *)
Theorem failed_spawn_is_reported_Running {os : OS} (c : DWORD) (s : Process) :
  (∀ t, os_RegisterServiceCtrlHandlerEx t ≠ 0) →
  (∀ t, os_new t = true) →
  (∀ t, os_CreateProcess t = false) →
  is_stop_control c = true →
  ∃ s1 obj,
    ServiceEntry s = Done tt s1
    ∧ reported (since (trace (world s)) (trace (world s1))) = [SERVICE_RUNNING]
    ∧ poApp s1 = Addr (fresh (dom (heap s)))
    ∧ heap s1 !! fresh (dom (heap s)) = Some obj
    ∧ m_hProcess (m_shpoImpl obj) = INVALID_HANDLE_VALUE
    ∧ let wait := EvWaitForSingleObject INVALID_HANDLE_VALUE 0 in
      let waited := os_WaitForSingleObject (trace (world s1) ++ [wait]) in
      if waited =? WAIT_OBJECT_0 then
        ∃ s2,
          ServiceHandlerEx c 0 0 0 s1 = Done NO_ERROR s2
          ∧ since (trace (world s1)) (trace (world s2)) =
              [wait; EvGetExitCodeProcess INVALID_HANDLE_VALUE;
               EvCloseHandle (m_hStdIn (m_shpoImpl obj));
               EvCloseHandle (m_hStdOut (m_shpoImpl obj));
               EvCloseHandle (m_hStdErr (m_shpoImpl obj));
               EvCloseHandle INVALID_HANDLE_VALUE;
               EvSleep 7000;
               EvSetServiceStatus (hServiceStatus s1) stopped_status]
      else
        ServiceHandlerEx c 0 0 0 s1 =
          Exited (after_calls
                    [wait; EvTerminateProcess INVALID_HANDLE_VALUE 0] s1).
Proof.
  intros Hreg Hnew Hspawn Hc.
  rewrite ServiceEntry_started by auto.
  set (w1 := {| std := std (world s); trace := _ |}).
  pose proof (CSatelliteProcess_ctor_run (strCommandLine s) 0 w1) as Hrun.
  cbv zeta in Hrun. rewrite Hspawn in Hrun.
  pose proof (CSatelliteProcess_ctor_emits (strCommandLine s) 0 w1)
    as (evs & Htrace & Hevs).
  destruct (CSatelliteProcess_ctor (strCommandLine s) 0 w1) as [obj w2].
  cbn [fst snd] in *.
  assert (Hobj : m_hProcess (m_shpoImpl obj) = INVALID_HANDLE_VALUE
                 ∧ m_boolCompleted obj = false
                 ∧ m_ulDestructorWaitMs obj = 0).
  { injection Hrun as -> _. repeat split. }
  destruct Hobj as (Hproc & Hflag & Hbudget).
  eexists. exists obj. split; [reflexivity|].
  split.
  { simpl. rewrite Htrace. subst w1. simpl.
    rewrite <- !app_assoc, since_app.
    rewrite !reported_app, (reported_not_a_report _ Hevs). reflexivity. }
  split; [reflexivity|]. split; [apply lookup_insert_eq|].
  split; [exact Hproc|].
  cbv zeta.
  match goal with
  | |- context [ServiceHandlerEx c 0 0 0 ?s1] =>
      pose proof (ServiceHandlerEx_with_instance c 0 0 0 s1
                    (fresh (dom (heap s))) obj Hc eq_refl
                    (lookup_insert_eq _ _ _)) as Hstop
  end.
  cbv zeta in Hstop. rewrite Hstop. clear Hstop.
  unfold ends_itself. rewrite Hflag, Hproc, Hbudget.
  cbn [negb andb]. rewrite andb_true_r.
  destruct (_ =? WAIT_OBJECT_0) eqn:Hwait; cbn [negb].
  - eexists. split; [reflexivity|].
    simpl. rewrite CSatelliteProcess_dtor_run. simpl.
    rewrite <- app_assoc, since_app.
    unfold dtor_events, impl_close_events, wait_events.
    rewrite Hflag, Hproc, Hbudget. simpl in Hwait |- *.
    rewrite Hwait. reflexivity.
  - reflexivity.
Qed.

(** The same start with a [CreateProcess] that fails, and one stop
    control after it: the wait does not return [WAIT_OBJECT_0], the
    service ends itself, and Running is all that it has reported. *)
Lemma failed_spawn_on_console :
  (∀ t, os_CreateProcess (OS := Scenario.no_spawn) t = false)
  ∧ reported (trace (world (final
      (ServiceEntry (os := Scenario.no_spawn) Scenario.launched))))
    = [SERVICE_RUNNING]
  ∧ match service_run (os := Scenario.no_spawn) [SERVICE_CONTROL_STOP]
            Scenario.launched with
    | Exited s =>
        reported (trace (world s)) = [SERVICE_RUNNING]
        ∧ last (trace (world s)) =
            Some (EvTerminateProcess INVALID_HANDLE_VALUE 0)
    | _ => False
    end.
Proof.
  split; [intros t; reflexivity|].
  destruct (@failed_spawn_is_reported_Running Scenario.no_spawn
              SERVICE_CONTROL_STOP Scenario.launched)
    as (s1 & obj & Hrun & Hrep & _ & _ & _ & Hstop).
  1-3: intros t; vm_compute; congruence.
  1: reflexivity.
  cbv zeta in Hstop.
  change (os_WaitForSingleObject (OS := Scenario.no_spawn) _ =? WAIT_OBJECT_0)
    with false in Hstop.
  unfold service_run. unfold mbind at 1, SvcM_bind.
  rewrite Hrun. cbn [final deliver]. unfold mbind at 1, SvcM_bind.
  rewrite Hstop. split; [rewrite <- Hrep; reflexivity|].
  unfold after_calls, with_world. cbn [world trace].
  split.
  - rewrite reported_app.
    change (reported (since (trace (world Scenario.launched))
                        (trace (world s1))))
      with (reported (trace (world s1))) in Hrep.
    rewrite Hrep. reflexivity.
  - change [EvWaitForSingleObject INVALID_HANDLE_VALUE 0;
             EvTerminateProcess INVALID_HANDLE_VALUE 0]
      with ([EvWaitForSingleObject INVALID_HANDLE_VALUE 0]
            ++ [EvTerminateProcess INVALID_HANDLE_VALUE 0]).
    rewrite app_assoc. apply last_snoc.
Defined.

(** ** Controls that are not stop controls *)

Lemma ServiceHandlerEx_other_control {os : OS} c et ed ctx s :
  is_stop_control c = false →
  ServiceHandlerEx c et ed ctx s = Done ERROR_CALL_NOT_IMPLEMENTED s.
Proof.
  intros Hc. unfold ServiceHandlerEx, is_stop_control in *. rewrite Hc.
  reflexivity.
Qed.

(** X6. Controls other than stop and shutdown are ignored wherever
    they occur: delivering a sequence of controls, from any state and
    also when the run ends in undefined behaviour, is the same as
    delivering only its stop and shutdown controls. *)
Theorem deliver_ignores_other_controls {os : OS}
    (cs : list DWORD) (s : Process) :
  deliver cs s = deliver (filter (λ c, is_stop_control c = true) cs) s.
Proof.
  revert s. induction cs as [|c cs IH]; intros s; [reflexivity|].
  rewrite filter_cons. destruct (is_stop_control c) eqn:Hc.
  - rewrite decide_True by reflexivity. cbn [deliver].
    unfold mbind, SvcM_bind.
    destruct (ServiceHandlerEx c 0 0 0 s); [apply IH|reflexivity..].
  - rewrite decide_False by discriminate. cbn [deliver].
    unfold mbind, SvcM_bind.
    rewrite ServiceHandlerEx_other_control by exact Hc. apply IH.
Qed.

(** ** What the handler reports *)

Lemma ServiceHandlerEx_stop_reports {os : OS} c s :
  is_stop_control c = true →
  ∃ evs,
    trace (world (final (ServiceHandlerEx c 0 0 0 s))) = trace (world s) ++ evs
    ∧ match ServiceHandlerEx c 0 0 0 s with
      | Done _ _ => reported evs = [SERVICE_STOPPED]
      | _ => reported evs = []
      end.
Proof.
  intros Hc. destruct (poApp s) as [|a] eqn:Hp.
  - rewrite (ServiceHandlerEx_no_instance c s Hp). unfold stop_events.
    rewrite Hc. eexists. split; reflexivity.
  - destruct (heap s !! a) as [obj|] eqn:Hobj.
    + pose proof (ServiceHandlerEx_with_instance c 0 0 0 s a obj Hc Hp Hobj)
        as Hrun.
      cbv zeta in Hrun. rewrite Hrun. clear Hrun.
      destruct (ends_itself obj _).
      * cbn [final]. unfold after_calls, with_world. cbn [world trace].
        eexists. split; reflexivity.
      * cbn [final]. unfold after_calls, with_heap, with_world.
        cbn [world trace].
        rewrite CSatelliteProcess_dtor_run. cbn [snd trace].
        rewrite <- app_assoc. eexists. split; [reflexivity|].
        rewrite reported_app, reported_dtor_events. reflexivity.
    + rewrite (ServiceHandlerEx_dangling c 0 0 0 s a Hc Hp Hobj).
      exists []. rewrite app_nil_r. split; reflexivity.
Qed.

Lemma deliver_trace {os : OS} cs s :
  ∃ evs k,
    trace (world (final (deliver cs s))) = trace (world s) ++ evs
    ∧ reported evs = replicate k SERVICE_STOPPED
    ∧ match deliver cs s with
      | Done _ _ => k = length (filter (λ c, is_stop_control c = true) cs)
      | _ => (k < length (filter (λ c, is_stop_control c = true) cs))%nat
      end.
Proof.
  revert s. induction cs as [|c cs IH]; intros s.
  - exists [], 0%nat. rewrite app_nil_r. repeat split.
  - rewrite filter_cons. destruct (is_stop_control c) eqn:Hc.
    + rewrite decide_True by reflexivity. cbn [deliver length].
      unfold mbind, SvcM_bind.
      destruct (ServiceHandlerEx_stop_reports c s Hc) as (evs & Ht & Hr).
      destruct (ServiceHandlerEx c 0 0 0 s) as [r s1|s1|s1|s1];
        cbn [final] in Ht.
      * destruct (IH s1) as (evs' & k & Ht' & Hr' & Hk).
        exists (evs ++ evs'), (S k). rewrite Ht', Ht, <- app_assoc.
        split; [reflexivity|]. rewrite reported_app, Hr, Hr'.
        split; [reflexivity|]. destruct (deliver cs s1); lia.
      * exists evs, 0%nat. cbn [final]. repeat split; [exact Ht|exact Hr|lia].
      * exists evs, 0%nat. cbn [final]. repeat split; [exact Ht|exact Hr|lia].
      * exists evs, 0%nat. cbn [final]. repeat split; [exact Ht|exact Hr|lia].
    + rewrite decide_False by discriminate. cbn [deliver].
      unfold mbind, SvcM_bind.
      rewrite ServiceHandlerEx_other_control by exact Hc. apply IH.
Qed.

(** X7. In answer to controls the service reports nothing but Stopped,
    and never Running: once for each stop or shutdown control among
    the controls delivered when the run ends normally, and fewer times
    when it ends otherwise, in undefined behaviour (a second delete of
    the object) or with the service ended by its own
    [TerminateProcess] (the object of a failed [CreateProcess]). *)
Theorem controls_are_answered_with_Stopped_only {os : OS}
    (cs : list DWORD) (s : Process) :
  let stops := length (filter (λ c, is_stop_control c = true) cs) in
  ∃ k,
    reported (since (trace (world s)) (trace (world (final (deliver cs s)))))
      = replicate k SERVICE_STOPPED
    ∧ match deliver cs s with
      | Done _ _ => k = stops
      | _ => (k < stops)%nat
      end.
Proof.
  cbv zeta. destruct (deliver_trace cs s) as (evs & k & Ht & Hr & Hk).
  exists k. rewrite Ht, since_app. split; [exact Hr|exact Hk].
Qed.

(** ** The child that the service launches *)

Lemma ServiceEntry_not_started {os : OS} s :
  let name := (SERVICE_SHORT_NAME_PREFIX ++ strCage s)%string in
  let t1 := trace (world s) ++ [EvRegisterServiceCtrlHandlerEx name] in
  let h := os_RegisterServiceCtrlHandlerEx t1 in
  h = 0 ∨ os_new (t1 ++ [EvSleep 7000]) = false →
  ServiceEntry s =
    if h =? 0
    then Done tt (with_hServiceStatus h
                    (after_calls [EvRegisterServiceCtrlHandlerEx name] s))
    else Thrown (with_hServiceStatus h
                   (after_calls [EvRegisterServiceCtrlHandlerEx name;
                                 EvSleep 7000] s)).
Proof.
  intros name t1 h Hno. subst name t1 h.
  unfold ServiceEntry. run_service.
  destruct (os_RegisterServiceCtrlHandlerEx _ =? 0) eqn:Hreg; simpl.
  - reflexivity.
  - destruct Hno as [H0|Hnew]; [apply Z.eqb_neq in Hreg; contradiction|].
    rewrite ServiceStart_run. simpl. rewrite Hnew.
    unfold after_calls, with_world, with_hServiceStatus. simpl.
    rewrite <- !app_assoc. reflexivity.
Qed.

(** ** Strings: [find] and [substr] *)

Local Open Scope string_scope.

Lemma substring_0_0 s : substring 0 0 s = "".
Proof. destruct s; reflexivity. Qed.

Lemma substring_all s : substring 0 (String.length s) s = s.
Proof. induction s as [|c s IH]; simpl; [reflexivity|]. rewrite IH. reflexivity. Qed.

Lemma substring_app_skip a s k m :
  substring (String.length a + k) m (a ++ s) = substring k m s.
Proof. induction a as [|c a IH]; simpl; [reflexivity|apply IH]. Qed.

Lemma substring_app_prefix a b :
  substring 0 (String.length a) (a ++ b) = a.
Proof.
  induction a as [|c a IH]; simpl; [apply substring_0_0|].
  rewrite IH. reflexivity.
Qed.

Lemma string_length_app a b :
  String.length (a ++ b) = (String.length a + String.length b)%nat.
Proof. induction a as [|c a IH]; simpl; [reflexivity|]. rewrite IH. reflexivity. Qed.

Lemma substring_split s n :
  s = substring 0 n s ++ substring n (String.length s - n) s.
Proof.
  revert n. induction s as [|c s IH]; intros [|n]; simpl; try reflexivity.
  - rewrite substring_all. reflexivity.
  - rewrite (IH n) at 1. reflexivity.
Qed.

Lemma prefix_app (sep s : string) :
  String.prefix sep s = true →
  s = sep ++ substring (String.length sep) (String.length s - String.length sep) s.
Proof.
  intros Hp%String.prefix_correct.
  rewrite <- Hp at 1. apply substring_split.
Qed.

Lemma index_cons sep c s :
  String.index 0 sep (String c s) =
    if String.prefix sep (String c s) then Some 0%nat
    else match String.index 0 sep s with
         | Some n => Some (S n)
         | None => None
         end.
Proof. reflexivity. Qed.

Lemma find_Some s sep i :
  Strings.find s sep = Some i →
  s = substring 0 i s ++ sep
      ++ substring (i + String.length sep)
           (String.length s - i - String.length sep) s
  ∧ String.length (substring 0 i s) = i
  ∧ (i + String.length sep ≤ String.length s)%nat.
Proof.
  unfold Strings.find. revert i.
  induction s as [|c s IH]; intros i.
  - simpl. destruct sep; [|discriminate]. intros [= <-].
    repeat split; simpl; lia.
  - rewrite index_cons.
    destruct (String.prefix sep (String c s)) eqn:Hp.
    + intros [= <-]. pose proof (prefix_app _ _ Hp) as Happ.
      rewrite Nat.sub_0_r, substring_0_0.
      split; [exact Happ|]. split; [reflexivity|].
      rewrite Happ at 1. rewrite string_length_app. lia.
    + destruct (String.index 0 sep s) as [j|] eqn:Hj; [|discriminate].
      intros [= <-]. destruct (IH j eq_refl) as (Hs & Hlen & Hle).
      cbn [substring String.length Nat.add Nat.sub]. rewrite Hlen.
      split; [|split; [reflexivity|lia]].
      rewrite Hs at 1. reflexivity.
Qed.

Lemma occurrence_at l sep r :
  substring (String.length l) (String.length sep) (l ++ sep ++ r) = sep.
Proof.
  rewrite <- (Nat.add_0_r (String.length l)), substring_app_skip.
  apply substring_app_prefix.
Qed.

Lemma find_first s sep i :
  Strings.find s sep = Some i →
  ∀ l r, s = l ++ sep ++ r → (i ≤ String.length l)%nat.
Proof.
  unfold Strings.find. intros Hi l r ->.
  destruct (Nat.le_gt_cases i (String.length l)) as [Hle|Hlt]; [exact Hle|].
  exfalso.
  apply (String.index_correct2 _ _ _ _ Hi (String.length l));
    [lia|exact Hlt|apply occurrence_at].
Qed.

Lemma find_empty_separator s : Strings.find s "" = Some 0%nat.
Proof.
  unfold Strings.find. destruct s as [|c s]; [reflexivity|].
  rewrite index_cons.
  assert (Hp : String.prefix "" (String c s) = true)
    by (apply String.prefix_correct; reflexivity).
  rewrite Hp. reflexivity.
Qed.

Lemma find_None s sep :
  Strings.find s sep = None →
  sep ≠ "" ∧ ∀ l r, s ≠ l ++ sep ++ r.
Proof.
  intros Hn. assert (Hsep : sep ≠ "").
  { intros ->. rewrite find_empty_separator in Hn. discriminate. }
  split; [exact Hsep|]. intros l r ->.
  apply (String.index_correct3 _ (String.length l) _ _ Hn Hsep);
    [lia|apply occurrence_at].
Qed.

Lemma empty_spec s : Strings.empty s = true ↔ s = "".
Proof. destruct s; simpl; split; intros; congruence. Qed.

Section SplitReferences.
Context {V : Type} `{EqDecision V}.

Lemma assign_same (v : V) x st : Strings.assign v x st v = x.
Proof. unfold Strings.assign. rewrite decide_True by reflexivity. reflexivity. Qed.

Lemma assign_other (u v : V) x st : u ≠ v → Strings.assign v x st u = st u.
Proof. intros Hne. unfold Strings.assign. rewrite decide_False by exact Hne. reflexivity. Qed.

(** X8. [split] with two distinct result variables, either of which
    may also be the source or the separator: no other variable
    changes.  When it returns true the source is the left result, the
    separator and the right result joined, and no occurrence of the
    separator starts further left.  When it returns false the left
    result is the whole source and the right result is empty, and
    either the source is empty (whatever the separator, the empty one
    included) or the separator is not empty and occurs nowhere in the
    source. *)
Theorem split_specification (src sep : Strings.Arg (V := V)) (L R : V) st :
  L ≠ R →
  let s := Strings.value src st in
  let p := Strings.value sep st in
  let '(found, st') := Strings.split src sep L R st in
  (∀ v, v ≠ L → v ≠ R → st' v = st v)
  ∧ (if found
     then s = st' L ++ p ++ st' R
          ∧ (∀ l r, s = l ++ p ++ r →
             (String.length (st' L) ≤ String.length l)%nat)
     else st' L = s ∧ st' R = ""
          ∧ (s = "" ∨ (p ≠ "" ∧ ∀ l r, s ≠ l ++ p ++ r))).
Proof.
  intros Hne s p. subst s p. unfold Strings.split.
  destruct (Strings.empty (Strings.value src st)) eqn:He.
  - apply empty_spec in He. split.
    + intros v HL HR. rewrite !assign_other by assumption. reflexivity.
    + rewrite assign_other, !assign_same by exact Hne.
      rewrite He. repeat split. left. reflexivity.
  - destruct (Strings.find _ _) as [i|] eqn:Hf.
    + split.
      * intros v HL HR. rewrite !assign_other by assumption. reflexivity.
      * rewrite assign_other, !assign_same by exact Hne.
        destruct (find_Some _ _ _ Hf) as (Hs & Hlen & _).
        split; [exact Hs|]. intros l r Hlr. unfold Strings.substr.
        rewrite Hlen. exact (find_first _ _ _ Hf l r Hlr).
    + split.
      * intros v HL HR. rewrite !assign_other by assumption. reflexivity.
      * rewrite assign_other, !assign_same by exact Hne.
        repeat split. right. apply find_None, Hf.
Qed.

End SplitReferences.

Lemma append_cons c a b : String c a ++ b = String c (a ++ b).
Proof. reflexivity. Qed.

Lemma substring_cons_0 c s n :
  substring 0 (S n) (String c s) = String c (substring 0 n s).
Proof. reflexivity. Qed.

Lemma substring_cons_S c s m n :
  substring (S m) n (String c s) = substring m n s.
Proof. reflexivity. Qed.

Lemma substring_app_l a b m n :
  (m + n ≤ String.length a)%nat → substring m n (a ++ b) = substring m n a.
Proof.
  revert m n. induction a as [|c a IH]; intros m n Hle; simpl in Hle.
  - assert (m = 0%nat) by lia. assert (n = 0%nat) by lia. subst.
    rewrite !substring_0_0. reflexivity.
  - rewrite append_cons. destruct m as [|m]; [destruct n as [|n]|].
    + rewrite !substring_0_0. reflexivity.
    + rewrite !substring_cons_0, (IH 0%nat n) by lia. reflexivity.
    + rewrite !substring_cons_S. apply IH. lia.
Qed.

Lemma find_joined c l r :
  String.index 0 (String c "") l = None →
  Strings.find (l ++ String c r) (String c "") = Some (String.length l).
Proof.
  intros Hl. pose proof (occurrence_at l (String c "") r) as Hocc.
  change (String c "" ++ r) with (String c r) in Hocc.
  destruct (Strings.find (l ++ String c r) (String c "")) as [i|] eqn:Hf.
  - f_equal.
    assert (Hle : (i ≤ String.length l)%nat)
      by exact (find_first _ _ _ Hf l r eq_refl).
    destruct (Nat.eq_dec i (String.length l)) as [Heq|Hneq]; [exact Heq|].
    exfalso. unfold Strings.find in Hf.
    pose proof (String.index_correct1 _ _ _ _ Hf) as Hat.
    rewrite substring_app_l in Hat by (simpl; lia).
    refine (String.index_correct3 0 i _ _ Hl _ _ Hat); [discriminate|lia].
  - exfalso. destruct (find_None _ _ Hf) as [_ Hno].
    apply (Hno l r). reflexivity.
Qed.

(** In place, as [WinMain] calls it: the source is also the right
    result. *)
Lemma split_specification_in_place :
  let st := Strings.assign Admin.var_strCommandLine "install cage cmd"
              (λ _, "") in
  Admin.var_strCommand ≠ Admin.var_strCommandLine
  ∧ let '(found, st') :=
      Strings.split (Strings.ByRef Admin.var_strCommandLine)
        (Strings.Temporary " ") Admin.var_strCommand
        Admin.var_strCommandLine st in
    (∀ v, v ≠ Admin.var_strCommand → v ≠ Admin.var_strCommandLine →
          st' v = st v)
    ∧ (if found
       then "install cage cmd"
              = st' Admin.var_strCommand ++ " "
                ++ st' Admin.var_strCommandLine
            ∧ (∀ l r, "install cage cmd" = l ++ " " ++ r →
               (String.length (st' Admin.var_strCommand)
                ≤ String.length l)%nat)
       else st' Admin.var_strCommand = "install cage cmd"
            ∧ st' Admin.var_strCommandLine = ""
            ∧ ("install cage cmd" = ""
               ∨ (" " ≠ "" ∧ ∀ l r, "install cage cmd" ≠ l ++ " " ++ r))).
Proof.
  cbv zeta. split; [discriminate|].
  exact (split_specification (Strings.ByRef Admin.var_strCommandLine)
           (Strings.Temporary " ") Admin.var_strCommand
           Admin.var_strCommandLine
           (Strings.assign Admin.var_strCommandLine "install cage cmd"
              (λ _, ""))
           ltac:(discriminate)).
Defined.

Section SplitAtCharacter.
Context {V : Type} `{EqDecision V}.

Lemma split_at_separator (src : Strings.Arg (V := V)) (L R : V) st c l r :
  Strings.value src st = l ++ String c r →
  String.index 0 (String c "") l = None →
  Strings.split src (Strings.Temporary (String c "")) L R st =
    (true, Strings.assign R r (Strings.assign L l st)).
Proof.
  intros Hs Hl. unfold Strings.split. rewrite Hs.
  assert (He : Strings.empty (l ++ String c r) = false) by (destruct l; reflexivity).
  rewrite He. cbn [Strings.value]. rewrite find_joined by exact Hl.
  unfold Strings.substr. rewrite substring_app_prefix.
  rewrite string_length_app. cbn [String.length].
  rewrite substring_app_skip. cbn [substring].
  replace (String.length l + S (String.length r) - String.length l - 1)%nat
    with (String.length r) by lia.
  destruct (String.length r) eqn:Hr0.
  - destruct r; [reflexivity|discriminate].
  - rewrite <- Hr0, substring_all. reflexivity.
Qed.

Lemma split_no_separator (src : Strings.Arg (V := V)) (L R : V) st c :
  String.index 0 (String c "") (Strings.value src st) = None →
  Strings.split src (Strings.Temporary (String c "")) L R st =
    (false, Strings.assign R "" (Strings.assign L (Strings.value src st) st)).
Proof.
  intros Hs. unfold Strings.split.
  destruct (Strings.empty _) eqn:He.
  - apply empty_spec in He. rewrite He. reflexivity.
  - cbn [Strings.value]. unfold Strings.find. rewrite Hs. reflexivity.
Qed.

End SplitAtCharacter.

(** X9. Joining two strings with a one-character separator and
    splitting the result at that separator gives the two strings back,
    provided the separator does not occur in the left one; the right
    one may contain it, and either may be empty. *)
Theorem split_values_of_joined (c : ascii) (l r : string) :
  String.index 0 (String c "") l = None →
  Strings.split_values (l ++ String c r) (String c "") = (true, l, r).
Proof.
  intros Hl. unfold Strings.split_values.
  rewrite (split_at_separator (V := bool) (Strings.Temporary (l ++ String c r))
             false true (λ _, "") c l r eq_refl Hl).
  reflexivity.
Qed.

Lemma split_values_of_joined_words :
  String.index 0 " " "install" = None
  ∧ Strings.split_values "install cage python.exe startup.py" " "
    = (true, "install", "cage python.exe startup.py").
Proof.
  split; [reflexivity|].
  exact (split_values_of_joined " " "install" "cage python.exe startup.py"
           eq_refl).
Defined.

(** ** Installing, removing and launching the service *)

Local Close Scope string_scope.

Import Admin.

Ltac run_admin :=
  unfold Admin.OpenSCManager, Admin.OpenService, Admin.CreateService,
    Admin.ChangeServiceConfig2, Admin.ControlService, Admin.DeleteService,
    Admin.CloseServiceHandle, Admin.StartServiceCtrlDispatcher, Admin.MSG,
    Admin.call, Admin.answer, Admin.var, Admin.set_var,
    mbind, mret, Admin.MainM_bind, Admin.MainM_ret;
  cbn [Admin.vars Admin.calls Admin.strModuleFileName].

Lemma made_app m m' new : calls m' = calls m ++ new → made m m' = new.
Proof. intros Hc. unfold made. rewrite Hc. apply drop_app_length. Qed.

Lemma made_after m v f new :
  made m {| vars := v; strModuleFileName := f; calls := calls m ++ new |} = new.
Proof. apply made_app. reflexivity. Qed.

Lemma module_filename_run {scm : SCM} h m :
  module_filename h m =
    if h =? 0 then (strModuleFileName m, m)
    else
      let t := calls m ++ [EvGetModuleFileName h MAX_PATH] in
      (scm_GetModuleFileName t,
       {| vars := vars m; strModuleFileName := scm_GetModuleFileName t;
          calls := t |}).
Proof.
  unfold module_filename. destruct (h =? 0); [destruct m|]; reflexivity.
Qed.

Lemma EntryInstallService_run {scm : SCM} m :
  let cage := vars m var_strCage in
  let name := (SERVICE_SHORT_NAME_PREFIX ++ cage)%string in
  let full := (SERVICE_FULL_NAME_PREFIX ++ cage)%string in
  let description := (SERVICE_DESCRIPTION_PREFIX ++ cage)%string in
  let path := (((quote ++ strModuleFileName m) ++ (quote ++ " run "))
               ++ vars m var_strCommandLine)%string in
  let open := EvOpenSCManager SC_MANAGER_ALL_ACCESS in
  let hM := scm_OpenSCManager (calls m ++ [open]) in
  let query := EvOpenService hM name SERVICE_QUERY_STATUS in
  let hS := scm_OpenService ((calls m ++ [open]) ++ [query]) in
  let create := EvCreateService hM name full SERVICE_ALL_ACCESS
                  SERVICE_WIN32_OWN_PROCESS SERVICE_AUTO_START
                  SERVICE_ERROR_IGNORE path in
  let hC := scm_CreateService (((calls m ++ [open]) ++ [query]) ++ [create]) in
  let said := EvMessageBox (full ++ " has been installed   ")%string
                "pmnc3ksvc.exe" MB_OK in
  let after new := {| vars := vars m; strModuleFileName := strModuleFileName m;
                      calls := calls m ++ new |} in
  EntryInstallService m =
    if hM =? 0 then (1, after [open])
    else if hS =? 0 then
      if hC =? 0 then
        (1, after [open; query; create; EvCloseServiceHandle hM])
      else
        (0, after [open; query; create;
                   EvChangeServiceConfig2 hC SERVICE_CONFIG_DESCRIPTION
                     description;
                   EvCloseServiceHandle hC; EvCloseServiceHandle hM; said])
    else
      (0, after [open; query; EvCloseServiceHandle hS;
                 EvCloseServiceHandle hM; said]).
Proof.
  cbv zeta. unfold EntryInstallService. run_admin.
  destruct (scm_OpenSCManager _ =? 0) eqn:HM; [reflexivity|].
  rewrite module_filename_run; cbn [Z.eqb vars calls strModuleFileName].
  destruct (scm_OpenService _ =? 0) eqn:HS.
  - destruct (scm_CreateService _ =? 0) eqn:HC;
      cbn [vars calls strModuleFileName]; rewrite <- ?app_assoc; reflexivity.
  - cbn [vars calls strModuleFileName]. rewrite <- ?app_assoc. reflexivity.
Qed.

Lemma EntryRemoveService_run {scm : SCM} m :
  let cage := vars m var_strCage in
  let name := (SERVICE_SHORT_NAME_PREFIX ++ cage)%string in
  let full := (SERVICE_FULL_NAME_PREFIX ++ cage)%string in
  let open := EvOpenSCManager SC_MANAGER_ALL_ACCESS in
  let hM := scm_OpenSCManager (calls m ++ [open]) in
  let query := EvOpenService hM name (Z.lor DELETE SERVICE_STOP) in
  let hS := scm_OpenService ((calls m ++ [open]) ++ [query]) in
  let said := EvMessageBox
                (("Service " ++ full) ++ " has been successfully removed   ")%string
                "pmnc3ksvc.exe" MB_OK in
  let after new := {| vars := vars m; strModuleFileName := strModuleFileName m;
                      calls := calls m ++ new |} in
  EntryRemoveService m =
    if hM =? 0 then (1, after [open])
    else if hS =? 0 then
      (0, after [open; query; EvCloseServiceHandle hM; said])
    else
      (0, after [open; query; EvControlService hS SERVICE_CONTROL_STOP;
                 EvDeleteService hS; EvCloseServiceHandle hS;
                 EvCloseServiceHandle hM; said]).
Proof.
  cbv zeta. unfold EntryRemoveService. run_admin.
  destruct (scm_OpenSCManager _ =? 0) eqn:HM; [reflexivity|].
  destruct (scm_OpenService _ =? 0) eqn:HS;
    cbn [negb vars calls strModuleFileName]; rewrite <- ?app_assoc; reflexivity.
Qed.

Lemma EntryLaunchService_run {scm : SCM} m :
  let name := (SERVICE_SHORT_NAME_PREFIX ++ vars m var_strCage)%string in
  let t := calls m ++ [EvStartServiceCtrlDispatcher name] in
  EntryLaunchService m =
    (if scm_StartServiceCtrlDispatcher t then 0 else 1,
     {| vars := vars m; strModuleFileName := strModuleFileName m;
        calls := t |}).
Proof.
  cbv zeta. unfold EntryLaunchService. run_admin.
  destruct (scm_StartServiceCtrlDispatcher _); reflexivity.
Qed.

Ltac run_entry Hrun :=
  cbv zeta in Hrun; rewrite Hrun; clear Hrun;
  repeat match goal with
         | |- context [if ?h =? 0 then _ else _] =>
             let E := fresh "E" in destruct (h =? 0) eqn:E
         end;
  cbv zeta; rewrite made_after;
  cbn [vars calls obtained closed messages omap filter changes_services
       list_omap list_filter app];
  repeat match goal with
         | H : (_ =? 0) = _ |- _ => rewrite H
         end.

(** X10. [EntryInstallService] closes every handle it obtained, once,
    the last obtained first, on each of its paths, and leaves the
    variables alone.  It returns 0 and tells the user that the service
    has been installed exactly when it obtained a service handle, be it
    from [OpenService] or from [CreateService]; otherwise it returns 1
    and shows nothing. *)
Theorem install_closes_what_it_opened {scm : SCM} m :
  let '(r, m') := EntryInstallService m in
  let new := made m m' in
  let got := obtained (calls m) new in
  calls m' = calls m ++ new
  ∧ vars m' = vars m
  ∧ closed new = reverse got
  ∧ (if (length got =? 2)%nat
     then r = 0
          ∧ messages new =
              [((SERVICE_FULL_NAME_PREFIX ++ vars m var_strCage)
                ++ " has been installed   ")%string]
     else r = 1 ∧ messages new = [] ∧ (length got ≤ 1)%nat).
Proof.
  pose proof (EntryInstallService_run m) as Hrun. run_entry Hrun.
  all: cbn [Z.eqb app length Nat.eqb]; repeat split; lia.
Qed.

(** X11. [EntryRemoveService] closes every handle it obtained, once, the
    last obtained first, and leaves the variables alone.  Once the
    service control manager has opened it returns 0 and tells the user
    that the service has been successfully removed, also when the
    service could not be opened and nothing was stopped or deleted;
    when the service opens it is sent the stop control and then
    deleted.  When the manager does not open it returns 1 and shows
    nothing. *)
Theorem remove_reports_success_once_the_manager_opens {scm : SCM} m :
  let '(r, m') := EntryRemoveService m in
  let new := made m m' in
  let removed :=
    [(("Service " ++ (SERVICE_FULL_NAME_PREFIX ++ vars m var_strCage))
      ++ " has been successfully removed   ")%string] in
  calls m' = calls m ++ new
  ∧ vars m' = vars m
  ∧ closed new = reverse (obtained (calls m) new)
  ∧ match obtained (calls m) new with
    | [] => r = 1 ∧ messages new = [] ∧ filter changes_services new = []
    | [hM] =>
        r = 0 ∧ messages new = removed ∧ filter changes_services new = []
    | [hM; hS] =>
        r = 0 ∧ messages new = removed
        ∧ filter changes_services new =
            [EvControlService hS SERVICE_CONTROL_STOP; EvDeleteService hS]
    | _ => False
    end.
Proof.
  pose proof (EntryRemoveService_run m) as Hrun. run_entry Hrun.
  all: cbn [Z.eqb app length Nat.eqb]; repeat split.
Qed.

(** X12. When the service exists already, [EntryInstallService] leaves
    it as it is, whatever command line it was given: it creates and
    configures nothing, and yet returns 0 and tells the user that the
    service has been installed. *)
Theorem install_leaves_an_existing_service {scm : SCM} m :
  (∀ t, scm_OpenSCManager t ≠ 0) →
  (∀ t, scm_OpenService t ≠ 0) →
  let '(r, m') := EntryInstallService m in
  r = 0
  ∧ filter changes_services (made m m') = []
  ∧ messages (made m m') =
      [((SERVICE_FULL_NAME_PREFIX ++ vars m var_strCage)
        ++ " has been installed   ")%string].
Proof.
  intros HM HS.
  pose proof (EntryInstallService_run m) as Hrun. run_entry Hrun.
  all: try (apply Z.eqb_eq in E; apply HM in E; destruct E).
  all: try (apply Z.eqb_eq in E0; apply HS in E0; destruct E0).
  repeat split.
Qed.

(** ** The command line *)

Lemma split_word (src : Strings.Arg) (L R : Var) m c l r :
  Strings.value src (vars m) = (l ++ String c r)%string →
  String.index 0 (String c "") l = None →
  split src (Strings.Temporary (String c "")) L R m =
    (true, {| vars := Strings.assign R r (Strings.assign L l (vars m));
              strModuleFileName := strModuleFileName m;
              calls := calls m |}).
Proof.
  intros Hs Hl. unfold split.
  rewrite (split_at_separator src L R (vars m) c l r Hs Hl). reflexivity.
Qed.

Lemma split_whole (src : Strings.Arg) (L R : Var) m c :
  String.index 0 (String c "") (Strings.value src (vars m)) = None →
  split src (Strings.Temporary (String c "")) L R m =
    (false, {| vars := Strings.assign R ""
                         (Strings.assign L (Strings.value src (vars m))
                            (vars m));
               strModuleFileName := strModuleFileName m;
               calls := calls m |}).
Proof.
  intros Hs. unfold split.
  rewrite (split_no_separator src L R (vars m) c Hs). reflexivity.
Qed.

Lemma WinMain_parsed {scm : SCM} h line cmd rest m :
  line = (cmd ++ String " " rest)%string ∨ (line = cmd ∧ rest = "") →
  String.index 0 " " cmd = None →
  WinMain h line m =
    let m1 := (module_filename h m).2 in
    let m2 :=
      {| vars :=
           Strings.assign var_strCommandLine rest
             (Strings.assign var_strCommand cmd
                (Strings.assign var_strCommandLine line
                   (Strings.assign var_strCommand "" (vars m1))));
         strModuleFileName := strModuleFileName m1;
         calls := calls m1 |} in
    if String.eqb cmd "install" then
      (split (Strings.ByRef var_strCommandLine) (Strings.Temporary " ")
         var_strCage var_strCommandLine;;
       EntryInstallService) m2
    else if String.eqb cmd "remove" then
      (split (Strings.ByRef var_strCommandLine) (Strings.Temporary " ")
         var_strCage var_strCommandLine;;
       EntryRemoveService) m2
    else if String.eqb cmd "run" then EntryLaunchService m2
    else (MSG usage;; mret 1) m2.
Proof.
  intros Hline Hcmd. unfold WinMain.
  unfold mbind at 1, MainM_bind at 1.
  destruct (module_filename h m) as [f m1]. cbn [snd].
  unfold mbind at 1 2, MainM_bind at 1 2, set_var at 1 2.
  cbn [vars calls strModuleFileName].
  unfold mbind at 1, MainM_bind at 1.
  destruct Hline as [->|[-> ->]].
  - rewrite (split_word _ _ _ _ " "%char cmd rest) by
      first [exact Hcmd | cbn [Strings.value vars]; apply assign_same].
    unfold mbind at 1, MainM_bind at 1, var at 1.
    cbn [vars calls strModuleFileName].
    rewrite assign_other, assign_same by discriminate.
    destruct (String.eqb cmd "install"), (String.eqb cmd "remove"),
      (String.eqb cmd "run"); reflexivity.
  - rewrite (split_whole _ _ _ _ " "%char) by
      (cbn [Strings.value vars]; rewrite assign_same; exact Hcmd).
    unfold mbind at 1, MainM_bind at 1, var at 1.
    cbn [vars calls strModuleFileName Strings.value].
    rewrite assign_other, !assign_same by discriminate.
    destruct (String.eqb cmd "install"), (String.eqb cmd "remove"),
      (String.eqb cmd "run"); reflexivity.
Qed.

(** On a machine that has the service, from the state in which the
    program starts. *)
Lemma install_on_installed_machine :
  (∀ t, Admin.scm_OpenService (SCM := Scenario2.installed) t ≠ 0)
  ∧ let '(r, m') :=
      Admin.EntryInstallService (scm := Scenario2.installed) Admin.at_start in
    r = 0
    ∧ filter Admin.changes_services (Admin.made Admin.at_start m') = []
    ∧ Admin.messages (Admin.made Admin.at_start m') =
        [((Admin.SERVICE_FULL_NAME_PREFIX
           ++ Admin.vars Admin.at_start Admin.var_strCage)
          ++ " has been installed   ")%string].
Proof.
  split; [discriminate|].
  apply (install_leaves_an_existing_service (scm := Scenario2.installed));
    discriminate.
Defined.

(** X13. [WinMain] takes the text before the first space of the command
    line as the command, compared as it is: unless that text is
    [install], [remove] or [run], the program shows the usage text,
    returns 1 and makes no call to the service control manager. *)
Theorem unknown_command_shows_usage {scm : SCM} h line cmd m :
  String.index 0 " " cmd = None →
  line = cmd ∨ (∃ rest, line = (cmd ++ " " ++ rest)%string) →
  cmd ≠ "install"%string → cmd ≠ "remove"%string → cmd ≠ "run"%string →
  let '(r, m') := WinMain h line m in
  r = 1
  ∧ made m m' =
      (if h =? 0 then [] else [EvGetModuleFileName h MAX_PATH])
      ++ [EvMessageBox usage "pmnc3ksvc.exe" MB_OK].
Proof.
  intros Hcmd Hline Hi Hr Hu.
  apply String.eqb_neq in Hi, Hr, Hu.
  destruct Hline as [->|[rest ->]].
  - rewrite (WinMain_parsed h cmd cmd "") by (right; split; reflexivity) || exact Hcmd.
    cbv zeta. rewrite Hi, Hr, Hu. rewrite module_filename_run. run_admin.
    destruct (h =? 0); cbn [snd calls]; (split; [reflexivity|]);
      apply made_app; cbn [calls]; rewrite <- ?app_assoc; reflexivity.
  - rewrite (WinMain_parsed h _ cmd rest) by (left; reflexivity) || exact Hcmd.
    cbv zeta. rewrite Hi, Hr, Hu. rewrite module_filename_run. run_admin.
    destruct (h =? 0); cbn [snd calls]; (split; [reflexivity|]);
      apply made_app; cbn [calls]; rewrite <- ?app_assoc; reflexivity.
Qed.

Lemma string_app_assoc_l (a b c : string) :
  ((a ++ b) ++ c = a ++ b ++ c)%string.
Proof.
  induction a as [|x a IH]; [reflexivity|].
  rewrite !append_cons, IH. reflexivity.
Qed.

Lemma module_filename_vars {scm : SCM} h m : vars (module_filename h m).2 = vars m.
Proof. rewrite module_filename_run. destruct (h =? 0); reflexivity. Qed.

Lemma module_filename_static {scm : SCM} h m :
  strModuleFileName (module_filename h m).2 = (module_filename h m).1.
Proof. rewrite module_filename_run. destruct (h =? 0); reflexivity. Qed.

Lemma module_filename_calls {scm : SCM} h m :
  ∃ new, calls (module_filename h m).2 = calls m ++ new
         ∧ created new = [] ∧ messages new = [].
Proof.
  rewrite module_filename_run. destruct (h =? 0).
  - exists []. rewrite app_nil_r. repeat split.
  - eexists. repeat split.
Qed.

(** [start] is not a command. *)
Lemma start_is_not_a_command :
  let '(r, m') :=
    Admin.WinMain (scm := Scenario2.bare) Scenario2.hInstance "start cage"
      Admin.at_start in
  r = 1
  ∧ Admin.made Admin.at_start m' =
      (if Scenario2.hInstance =? 0 then []
       else [Admin.EvGetModuleFileName Scenario2.hInstance Admin.MAX_PATH])
      ++ [Admin.EvMessageBox Admin.usage "pmnc3ksvc.exe" Admin.MB_OK].
Proof.
  apply (unknown_command_shows_usage (scm := Scenario2.bare)
           Scenario2.hInstance "start cage" "start" Admin.at_start).
  - reflexivity.
  - right. exists "cage"%string. reflexivity.
  - discriminate.
  - discriminate.
  - discriminate.
Defined.

(** X14. After [pmnc3ksvc.exe install], the word up to the next space is
    the cage and everything behind that one space is the command line,
    taken as it is.  A service is asked for only when the service
    control manager opens and has no service of that name: then it is
    the service [pmnc3k_] followed by the cage, started by the path of
    the program itself in double quotes, the word [run] and that
    command line. *)
Theorem install_registers_the_run_command {scm : SCM} h cage cmd m :
  String.index 0 " " cage = None →
  let '(r, m') := WinMain h ("install " ++ cage ++ " " ++ cmd)%string m in
  let path := (module_filename h m).1 in
  let t0 := calls (module_filename h m).2 in
  let name := (SERVICE_SHORT_NAME_PREFIX ++ cage)%string in
  let open := EvOpenSCManager SC_MANAGER_ALL_ACCESS in
  let hM := scm_OpenSCManager (t0 ++ [open]) in
  let hS := scm_OpenService
              ((t0 ++ [open]) ++ [EvOpenService hM name SERVICE_QUERY_STATUS]) in
  vars m' var_strCage = cage
  ∧ vars m' var_strCommandLine = cmd
  ∧ created (made m m') =
      if (hM =? 0) || negb (hS =? 0) then []
      else [(name, (SERVICE_FULL_NAME_PREFIX ++ cage)%string,
             (quote ++ path ++ quote ++ " run " ++ cmd)%string)].
Proof.
  intros Hcage.
  rewrite (WinMain_parsed h _ "install" (cage ++ String " " cmd))
    by first [left; reflexivity | reflexivity].
  cbv zeta. cbn [String.eqb Ascii.eqb Bool.eqb andb].
  unfold mbind at 1, MainM_bind at 1.
  rewrite (split_word _ _ _ _ " "%char cage cmd)
    by first [exact Hcage | cbn [Strings.value vars]; apply assign_same].
  cbn [vars calls strModuleFileName].
  pose proof (EntryInstallService_run) as Hrun. cbv zeta in Hrun.
  rewrite Hrun. clear Hrun. cbn [vars calls strModuleFileName].
  rewrite !assign_same, !(assign_other var_strCage var_strCommandLine),
    !assign_same by discriminate.
  rewrite module_filename_static.
  destruct (module_filename_calls h m) as (new0 & Hnew0 & Hc0 & _).
  rewrite Hnew0.
  repeat match goal with
         | |- context [if ?x =? 0 then _ else _] => destruct (x =? 0)
         end;
    cbn [vars calls orb negb];
    rewrite !assign_same, ?(assign_other var_strCage var_strCommandLine),
      ?assign_same by discriminate;
    (split; [reflexivity|]); (split; [reflexivity|]);
    rewrite <- app_assoc, made_after;
    unfold created; rewrite omap_app; fold (created new0); rewrite Hc0;
    cbn [omap list_omap app]; try reflexivity.
  all: rewrite !string_app_assoc_l; reflexivity.
Qed.

(** The installation of the cage [cage] on a machine without it. *)
Lemma install_cage_on_bare_machine :
  String.index 0 " " "cage" = None
  ∧ Admin.created
      (Admin.calls
         (Admin.WinMain (scm := Scenario2.bare) Scenario2.hInstance
            "install cage python.exe startup.py cage" Admin.at_start).2)
    = [("pmnc3k_cage", "Pythomnic3k cage cage",
        Admin.quote ++ "C:\pmnc3k\pmnc3ksvc.exe" ++ Admin.quote
        ++ " run python.exe startup.py cage")%string].
Proof.
  split; [reflexivity|].
  pose proof (install_registers_the_run_command (scm := Scenario2.bare)
                Scenario2.hInstance "cage" "python.exe startup.py cage"
                Admin.at_start eq_refl) as H.
  change ("install " ++ "cage" ++ " " ++ "python.exe startup.py cage")%string
    with "install cage python.exe startup.py cage"%string in H.
  destruct (Admin.WinMain _ _ _) as [r m']. cbv zeta in H.
  destruct H as (_ & _ & H). cbn [snd].
  change (made at_start m') with (calls m') in H.
  rewrite H. vm_compute. reflexivity.
Defined.

(** X15. After [pmnc3ksvc.exe remove] the word up to the next space, or
    to the end of the command line, is the cage, and the service that
    is opened to be stopped and deleted is the one that [install]
    names for that cage: [pmnc3k_] followed by the cage.  Nothing is
    opened when the service control manager does not open. *)
Theorem remove_opens_the_service_of_the_cage {scm : SCM} h cage m :
  String.index 0 " " cage = None →
  let '(r, m') := WinMain h ("remove " ++ cage)%string m in
  let t0 := calls (module_filename h m).2 in
  let hM := scm_OpenSCManager (t0 ++ [EvOpenSCManager SC_MANAGER_ALL_ACCESS]) in
  vars m' var_strCage = cage
  ∧ opened (made m m') =
      if hM =? 0 then []
      else [((SERVICE_SHORT_NAME_PREFIX ++ cage)%string,
             Z.lor DELETE SERVICE_STOP)].
Proof.
  intros Hcage.
  rewrite (WinMain_parsed h _ "remove" cage)
    by first [left; reflexivity | reflexivity].
  cbv zeta. cbn [String.eqb Ascii.eqb Bool.eqb andb].
  unfold mbind at 1, MainM_bind at 1.
  rewrite (split_whole _ _ _ _ " "%char)
    by (cbn [Strings.value vars]; rewrite assign_same; exact Hcage).
  cbn [vars calls strModuleFileName Strings.value].
  pose proof (EntryRemoveService_run) as Hrun. cbv zeta in Hrun.
  rewrite Hrun. clear Hrun. cbn [vars calls strModuleFileName].
  rewrite !assign_same, !(assign_other var_strCage var_strCommandLine),
    !assign_same by discriminate.
  destruct (module_filename_calls h m) as (new0 & Hnew0 & _ & _).
  assert (Ho0 : opened new0 = []).
  { revert Hnew0. rewrite module_filename_run. destruct (h =? 0); cbn [snd calls].
    - rewrite <- (app_nil_r (calls m)) at 1. intros <-%app_inv_head. reflexivity.
    - intros <-%app_inv_head. reflexivity. }
  rewrite Hnew0.
  repeat match goal with
         | |- context [if ?x =? 0 then _ else _] => destruct (x =? 0)
         end;
    cbn [vars calls];
    rewrite ?(assign_other var_strCage var_strCommandLine),
      ?assign_same by discriminate;
    (split; [reflexivity|]);
    rewrite <- app_assoc, made_after;
    unfold opened; rewrite omap_app; fold (opened new0); rewrite Ho0;
    reflexivity.
Qed.

Lemma remove_cage_on_installed_machine :
  String.index 0 " " "cage" = None
  ∧ opened
      (calls (WinMain (scm := Scenario2.installed) Scenario2.hInstance
                "remove cage" at_start).2)
    = [("pmnc3k_cage"%string, 65568)].
Proof.
  split; [reflexivity|].
  pose proof (remove_opens_the_service_of_the_cage (scm := Scenario2.installed)
                Scenario2.hInstance "cage" at_start eq_refl) as H.
  change ("remove " ++ "cage")%string with "remove cage"%string in H.
  destruct (WinMain _ _ _) as [r m']. cbv zeta in H.
  destruct H as (_ & H). cbn [snd].
  change (made at_start m') with (calls m') in H.
  rewrite H. vm_compute. reflexivity.
Defined.

(** ** From the command line to the child *)

Lemma commands_app t1 t2 : commands (t1 ++ t2) = commands t1 ++ commands t2.
Proof. unfold commands. apply omap_app. Qed.

Lemma commands_not_a_spawn evs :
  forallb not_a_spawn evs = true → commands evs = [].
Proof.
  induction evs as [|e evs IH]; [reflexivity|]. simpl.
  intros [He Hevs]%andb_true_iff. unfold commands in *.
  destruct e; simpl; try (apply IH, Hevs). discriminate.
Qed.

Lemma CSatelliteProcess_ctor_commands {os : OS} cmd ms w :
  ∃ evs, trace (CSatelliteProcess_ctor cmd ms w).2 = trace w ++ evs
         ∧ commands evs = [cmd].
Proof.
  pose proof (CSatelliteProcess_ctor_run cmd ms w) as Hrun. cbv zeta in Hrun.
  rewrite Hrun. clear Hrun.
  destruct (make_pipes_emits_no_spawn w) as (evs & Htrace & Hevs).
  destruct (make_pipes w) as [[[i o] e] w1]. cbn [fst snd trace] in *.
  rewrite Htrace, <- !app_assoc. eexists. split; [reflexivity|].
  rewrite commands_app, (commands_not_a_spawn _ Hevs).
  destruct (os_CreateProcess _); reflexivity.
Qed.

Lemma ServiceEntry_commands {os : OS} s :
  let name := (SERVICE_SHORT_NAME_PREFIX ++ strCage s)%string in
  let t1 := trace (world s) ++ [EvRegisterServiceCtrlHandlerEx name] in
  commands (since (trace (world s)) (trace (world (final (ServiceEntry s))))) =
    if os_RegisterServiceCtrlHandlerEx t1 =? 0 then []
    else if os_new (t1 ++ [EvSleep 7000]) then [strCommandLine s] else [].
Proof.
  cbv zeta.
  destruct (os_RegisterServiceCtrlHandlerEx _ =? 0) eqn:Hreg.
  - pose proof (ServiceEntry_not_started s) as Hrun. cbv zeta in Hrun.
    rewrite Hrun by (left; apply Z.eqb_eq, Hreg). rewrite Hreg.
    cbn [final]. unfold after_calls, with_hServiceStatus, with_world.
    cbn [world trace]. rewrite since_app. reflexivity.
  - destruct (os_new _) eqn:Hnew.
    + pose proof (ServiceEntry_started s) as Hrun. cbv zeta in Hrun.
      rewrite Hrun by first [apply Z.eqb_neq, Hreg | exact Hnew].
      cbn [final]. unfold after_calls, with_hServiceStatus, with_world,
        with_heap, with_poApp. cbn [world trace].
      destruct (CSatelliteProcess_ctor_commands (strCommandLine s) 0
        {| std := std (world s); open_handles := open_handles (world s);
           last_error := last_error (world s);
           trace := (trace (world s)
                     ++ [EvRegisterServiceCtrlHandlerEx
                           (SERVICE_SHORT_NAME_PREFIX ++ strCage s)%string])
                    ++ [EvSleep 7000] |}) as (evs & Htrace & Hevs).
      rewrite Htrace. cbn [trace]. rewrite <- !app_assoc, since_app.
      rewrite !commands_app, Hevs. reflexivity.
    + pose proof (ServiceEntry_not_started s) as Hrun. cbv zeta in Hrun.
      rewrite Hrun by (right; exact Hnew). rewrite Hreg.
      cbn [final]. unfold after_calls, with_hServiceStatus, with_world,
        with_poApp. cbn [world trace]. rewrite since_app. reflexivity.
Qed.

(** X16. After [pmnc3ksvc.exe run] everything behind the one space is
    the command line, taken as it is, and no cage name is read: the
    dispatcher is given the service name [pmnc3k_] alone, and
    [ServiceEntry] registers its handler under that name.  The service
    then launches that command line as its one child, when the
    registration and the allocation succeed, and no child otherwise. *)
Theorem run_launches_the_rest_of_the_command_line {scm : SCM} {os : OS} h cmd w :
  let '(r, m') := WinMain h ("run " ++ cmd)%string at_start in
  let s := dispatched w m' in
  let t1 := trace w ++ [EvRegisterServiceCtrlHandlerEx "pmnc3k_"] in
  made at_start m' =
    (if h =? 0 then [] else [EvGetModuleFileName h MAX_PATH])
    ++ [EvStartServiceCtrlDispatcher "pmnc3k_"]
  ∧ r = (if scm_StartServiceCtrlDispatcher (calls m') then 0 else 1)
  ∧ strCage s = ""%string
  ∧ strCommandLine s = cmd
  ∧ commands (since (trace w) (trace (world (final (ServiceEntry s))))) =
      if os_RegisterServiceCtrlHandlerEx t1 =? 0 then []
      else if os_new (t1 ++ [EvSleep 7000]) then [cmd] else [].
Proof.
  rewrite (WinMain_parsed h _ "run" cmd)
    by first [left; reflexivity | reflexivity].
  cbv zeta. cbn [String.eqb Ascii.eqb Bool.eqb andb].
  pose proof EntryLaunchService_run as Hrun. cbv zeta in Hrun.
  rewrite Hrun. clear Hrun. cbn [vars calls strModuleFileName].
  rewrite module_filename_vars.
  rewrite (assign_other var_strCage), (assign_other var_strCage),
    (assign_other var_strCage), (assign_other var_strCage) by discriminate.
  cbn [at_start vars].
  split; [|split; [reflexivity|]].
  - rewrite module_filename_run.
    destruct (h =? 0); cbn [snd calls at_start app]; reflexivity.
  - pose proof (ServiceEntry_commands
                  (dispatched w
                     {| vars := Strings.assign var_strCommandLine cmd
                          (Strings.assign var_strCommand "run"
                             (Strings.assign var_strCommandLine
                                ("run " ++ cmd)%string
                                (Strings.assign var_strCommand ""%string
                                   (λ _, ""%string))));
                        strModuleFileName :=
                          strModuleFileName (module_filename h at_start).2;
                        calls := calls (module_filename h at_start).2
                          ++ [EvStartServiceCtrlDispatcher "pmnc3k_"] |}))
      as Hc.
    cbv zeta in Hc. unfold dispatched in *.
    cbn [startup strCage strCommandLine world vars] in *.
    rewrite (assign_other var_strCage), (assign_other var_strCage),
      (assign_other var_strCage), (assign_other var_strCage) in Hc
      by discriminate.
    rewrite !assign_same in *.
    repeat split. exact Hc.
Qed.

